(** * clementine-cli: the primitive registry, the configuration patcher and
      the flows that drive them

    A shallow embedding of
    - [src/primitives/queues/config.ts]  (the wrangler configuration patcher),
    - [src/primitives/registry.ts], [src/primitives/base.ts],
    - the queues and worker-only primitives,
    - [src/lib/deploy.ts], [src/lib/detect.ts],
    - [src/lib/flows/generic-new.ts], [src/lib/flows/generic-existing.ts],
      [src/lib/flows/existing.ts], [src/lib/flows/new.ts],
      [src/lib/flows/worker-only.ts],
    - [src/lib/config.ts] (the KV binding patcher), [src/lib/prompts.ts],
    - [src/commands/init.ts], [src/commands/queues.ts], [src/index.ts],
    followed by the properties proved about them. Not modelled:
    [src/lib/ast-patcher.ts] (it edits a TypeScript syntax tree through
    ts-morph) and [src/lib/wrangler.ts] (it reads the output of wrangler);
    no flow calls them. *)

From Stdlib Require Import ZArith String Ascii List Bool Lia.
From stdpp Require Import base option gmap strings list fin_maps pretty.

Set Warnings "-register-all".
Local Open Scope Z_scope.

(* ===================================================================== *)
(** * Characters and strings *)
(* ===================================================================== *)

(** The double quote and the line feed, which the templates of the
    structured-text patcher are full of. *)
Definition dq : string := String (ascii_of_nat 34) EmptyString.
Definition nl : string := String (ascii_of_nat 10) EmptyString.

(** [`"${s}"`] *)
Definition quoted (s : string) : string := dq +:+ s +:+ dq.

(** [String.prototype.includes]: [needle] occurs somewhere in [s]. *)
Fixpoint includes (s needle : string) : bool :=
  String.prefix needle s
  || match s with
     | EmptyString => false
     | String _ s' => includes s' needle
     end.

(** [String.prototype.endsWith]. *)
Fixpoint endsWith (s suffix : string) : bool :=
  String.eqb s suffix
  || match s with
     | EmptyString => false
     | String _ s' => endsWith s' suffix
     end.

(** [path.join(dir, name)] for a directory and a plain file name. *)
Definition path_join (dir name : string) : string := dir +:+ "/" +:+ name.

(* ===================================================================== *)
(** * JavaScript values read from a JSON document *)
(* ===================================================================== *)

(** What [jsonc.parse] builds: the JSON values. A JavaScript object is a map
    from property names to values. [undefined] is not a JSON value: an
    expression that may be [undefined] has type [option json]. *)
Inductive json :=
| JNull
| JBool (b : bool)
| JNumber (n : Z)
| JString (s : string)
| JArray (items : list json)
| JObject (fields : gmap string json).

(** Evaluation of JavaScript expressions either gives a value or raises
    (here: always a [TypeError] or an [Error], of which the message is kept). *)
Inductive Except (A : Type) :=
| Val (a : A)
| Raise (message : string).
Arguments Val {A} a.
Arguments Raise {A} message.

Definition ebind {A B} (m : Except A) (k : A -> Except B) : Except B :=
  match m with
  | Val a => k a
  | Raise e => Raise e
  end.

Declare Scope except_scope.
Delimit Scope except_scope with except.
Notation "'let?' x ':=' m 'in' k" := (ebind m (fun x => k))
  (at level 10, x name, m at level 100, k at level 200) : except_scope.
Local Open Scope except_scope.

(** [v.k]: reading a property of [undefined] or [null] raises; a value that is
    not an object has none of the properties the patcher asks for. *)
Definition prop (v : option json) (k : string) : Except (option json) :=
  match v with
  | None => Raise "Cannot read properties of undefined"
  | Some JNull => Raise "Cannot read properties of null"
  | Some (JObject fields) => Val (fields !! k)
  | Some _ => Val None
  end.

(** [v?.k] *)
Definition optProp (v : option json) (k : string) : Except (option json) :=
  match v with
  | None | Some JNull => Val None
  | _ => prop v k
  end.

(** Truthiness, and [v || d]. *)
Definition truthy (v : option json) : bool :=
  match v with
  | None | Some JNull | Some (JBool false) | Some (JNumber 0) => false
  | Some (JString s) => negb (String.eqb s EmptyString)
  | Some _ => true
  end.

Definition orElse (v : option json) (d : json) : json :=
  match v with
  | Some x => if truthy v then x else d
  | None => d
  end.

(** [v === s] for a string [s] that may be [undefined]. *)
Definition strictEq (v : option json) (s : option string) : bool :=
  match v, s with
  | Some (JString x), Some y => String.eqb x y
  | None, None => true
  | _, _ => false
  end.

(** [Array.prototype.some]: stops at the first element the callback accepts;
    a callback that raises ends the search with its error. *)
Fixpoint js_some (f : json -> Except bool) (items : list json) : Except bool :=
  match items with
  | [] => Val false
  | x :: rest =>
      let? b := f x in
      if b then Val true else js_some f rest
  end.

(** [x.some(f)] for a value [x] that is neither [undefined] nor [null]:
    only arrays have the method. *)
Definition callSome (x : json) (f : json -> Except bool) : Except bool :=
  match x with
  | JArray items => js_some f items
  | _ => Raise "some is not a function"
  end.

(** [x?.some(f)] *)
Definition optSome (x : option json) (f : json -> Except bool) : Except bool :=
  match x with
  | None | Some JNull => Val false
  | Some v => callSome v f
  end.

(** [x?.includes(s)], as a truth value: arrays compare their elements with
    [s]; strings look for [s] as a substring; nothing else has the method. *)
Definition optIncludes (x : option json) (s : string) : Except bool :=
  match x with
  | None | Some JNull => Val false
  | Some (JArray items) => Val (existsb (fun e => strictEq (Some e) (Some s)) items)
  | Some (JString t) => Val (includes t s)
  | Some _ => Raise "includes is not a function"
  end.

(** [[...x]]: arrays and strings are iterable. *)
Definition spread (x : json) : Except (list json) :=
  match x with
  | JArray items => Val items
  | JString s =>
      Val (map (fun c => JString (String c EmptyString)) (list_ascii_of_string s))
  | _ => Raise "is not iterable"
  end.

(** An object literal, as [JSON.stringify] writes it: a property whose value
    is [undefined] is left out. *)
Fixpoint objectLiteral (props : list (string * option json)) : gmap string json :=
  match props with
  | [] => ∅
  | (k, Some v) :: rest => <[k := v]> (objectLiteral rest)
  | (_, None) :: rest => objectLiteral rest
  end.

(** [`${x}`] for a string that may be [undefined]. *)
Definition str (x : option string) : string :=
  match x with
  | Some s => s
  | None => "undefined"
  end.

(* ===================================================================== *)
(** * The jsonc-parser library *)
(* ===================================================================== *)

(** The text of a JSON-with-comments file is kept as the value its tokens
    spell; comments and blank space, which the library's edits leave where
    they are, are not represented. The value is absent for a text that holds
    no JSON value at all (an empty file). The library is taken at its
    contract, for texts in which no object repeats a property name. *)
Module jsonc.

Record Text := mkText { value : option json }.

(** [jsonc.parse(text)] *)
Definition parse (text : Text) : option json := value text.

(** [findNodeAtLocation(root, path)] for a path of property names. *)
Fixpoint findNodeAtLocation (root : json) (path : list string) : option json :=
  match path with
  | [] => Some root
  | segment :: rest =>
      match root with
      | JObject fields =>
          match fields !! segment with
          | Some child => findNodeAtLocation child rest
          | None => None
          end
      | _ => None
      end
  end.

(** One edit: give the object at [parent] the property [key := content];
    with no parent, replace the whole document. *)
Inductive Edit :=
| SetProperty (parent : list string) (key : string) (content : json)
| ReplaceDocument (content : json).

(** The loop of [setProperty]: walk up from the end of the path (given
    here in reverse) to the deepest node that exists, wrapping the value in
    an object for every segment below it. *)
Fixpoint setProperty_loop (root : option json) (rpath : list string) (v : json)
  : option (list string * json * string) * json :=
  match rpath with
  | [] => (None, v)
  | lastSegment :: rpath' =>
      match root ≫= (fun r => findNodeAtLocation r (rev rpath')) with
      | None => setProperty_loop root rpath' (JObject {[ lastSegment := v ]})
      | Some parent => (Some (rev rpath', parent, lastSegment), v)
      end
  end.

(** [jsonc.modify(text, path, value, {})]: the edits that set the value at
    the path, creating the objects on the way; a property cannot be added
    to a parent that is not an object. *)
Definition modify (text : Text) (path : list string) (v : json) : Except (list Edit) :=
  match setProperty_loop (value text) (rev path) v with
  | (None, v') => Val [ReplaceDocument v']
  | (Some (parentPath, JObject _, key), v') => Val [SetProperty parentPath key v']
  | (Some _, _) => Raise "Can not add index to parent of type"
  end.

Fixpoint setAt (root : json) (parent : list string) (key : string) (v : json) : json :=
  match parent with
  | [] =>
      match root with
      | JObject fields => JObject (<[key := v]> fields)
      | _ => root
      end
  | segment :: rest =>
      match root with
      | JObject fields =>
          match fields !! segment with
          | Some child => JObject (<[segment := setAt child rest key v]> fields)
          | None => root
          end
      | _ => root
      end
  end.

Definition applyEdit (text : Text) (e : Edit) : Text :=
  match e with
  | SetProperty parent key v =>
      match value text with
      | Some root => mkText (Some (setAt root parent key v))
      | None => text
      end
  | ReplaceDocument v => mkText (Some v)
  end.

(** [jsonc.applyEdits(text, edits)] *)
Definition applyEdits (text : Text) (edits : list Edit) : Text :=
  fold_left applyEdit edits text.

End jsonc.

(* ===================================================================== *)
(** * config.ts: the text each patcher produces *)
(* ===================================================================== *)

Record QueueConfig := {
  queueName : option string;
  bindingName : option string;
  maxBatchSize : option Z;
  maxBatchTimeout : option Z;
  maxRetries : option Z;
}.

(** The destructuring defaults [maxBatchSize = 4, maxBatchTimeout = 3,
    maxRetries = 3]. *)
Definition maxBatchSize_of (config : QueueConfig) : Z := default 4 (maxBatchSize config).
Definition maxBatchTimeout_of (config : QueueConfig) : Z := default 3 (maxBatchTimeout config).
Definition maxRetries_of (config : QueueConfig) : Z := default 3 (maxRetries config).

Module Toml.

(** The substrings the structured-text patcher searches for. *)
Definition queueMarker (config : QueueConfig) : string :=
  "queue = " +:+ quoted (str (queueName config)).
Definition htmlRuleMarker : string :=
  "globs = [" +:+ quoted "**/*.html" +:+ "]".
Definition eventStoreMarker : string := "name = " +:+ quoted "EVENT_STORE".
Definition migrationMarker : string :=
  "new_classes = [" +:+ quoted "EventStore" +:+ "]".

(** The blocks it appends. *)
Definition htmlRule : string :=
  nl +:+ "[[rules]]" +:+ nl +:+
  "type = " +:+ quoted "Text" +:+ nl +:+
  htmlRuleMarker +:+ nl +:+
  "fallthrough = true" +:+ nl.

Definition queueConfig (config : QueueConfig) : string :=
  nl +:+ "# Queue Configuration" +:+ nl +:+
  "[[queues.producers]]" +:+ nl +:+
  queueMarker config +:+ nl +:+
  "binding = " +:+ quoted (str (bindingName config)) +:+ nl +:+
  nl +:+
  "[[queues.consumers]]" +:+ nl +:+
  queueMarker config +:+ nl +:+
  "max_batch_size = " +:+ pretty (maxBatchSize_of config) +:+ nl +:+
  "max_batch_timeout = " +:+ pretty (maxBatchTimeout_of config) +:+ nl +:+
  "max_retries = " +:+ pretty (maxRetries_of config) +:+ nl.

Definition doBinding : string :=
  nl +:+ "# Durable Object for Event Storage" +:+ nl +:+
  "[[durable_objects.bindings]]" +:+ nl +:+
  eventStoreMarker +:+ nl +:+
  "class_name = " +:+ quoted "EventStore" +:+ nl.

Definition migration : string :=
  nl +:+ "# Durable Object Migrations" +:+ nl +:+
  "[[migrations]]" +:+ nl +:+
  "tag = " +:+ quoted "v1" +:+ nl +:+
  migrationMarker +:+ nl.

(** [updatedContent] of [patchTomlConfigForQueues], once the queue is known
    not to be in the text: every test looks at the content as it was read,
    every block goes to the end. *)
Definition updatedContent (content : string) (config : QueueConfig) : string :=
  let updated := content in
  let updated :=
    if negb (includes content htmlRuleMarker) then updated +:+ htmlRule else updated in
  let updated := updated +:+ queueConfig config in
  let updated :=
    if negb (includes content eventStoreMarker) then updated +:+ doBinding else updated in
  let updated :=
    if negb (includes content migrationMarker) then updated +:+ migration else updated in
  updated.

End Toml.

Module Json.

Definition htmlRule : json :=
  JObject (objectLiteral
    [("type", Some (JString "Text"));
     ("globs", Some (JArray [JString "**/*.html"]));
     ("fallthrough", Some (JBool true))]).

Definition newProducer (config : QueueConfig) : json :=
  JObject (objectLiteral
    [("queue", JString <$> queueName config);
     ("binding", JString <$> bindingName config)]).

Definition newConsumer (config : QueueConfig) : json :=
  JObject (objectLiteral
    [("queue", JString <$> queueName config);
     ("max_batch_size", Some (JNumber (maxBatchSize_of config)));
     ("max_batch_timeout", Some (JNumber (maxBatchTimeout_of config)));
     ("max_retries", Some (JNumber (maxRetries_of config)))]).

Definition newBinding : json :=
  JObject (objectLiteral
    [("name", Some (JString "EVENT_STORE"));
     ("class_name", Some (JString "EventStore"))]).

Definition newMigration : json :=
  JObject (objectLiteral
    [("tag", Some (JString "v1"));
     ("new_classes", Some (JArray [JString "EventStore"]))]).

(** [(p) => p.queue === queueName] *)
Definition isQueue (config : QueueConfig) (p : json) : Except bool :=
  let? q := prop (Some p) "queue" in
  Val (strictEq q (queueName config)).

(** [(r) => r.type === 'Text' && r.globs?.includes('**/*.html')] *)
Definition isHtmlRule (r : json) : Except bool :=
  let? t := prop (Some r) "type" in
  if strictEq t (Some "Text") then
    let? globs := prop (Some r) "globs" in
    optIncludes globs "**/*.html"
  else Val false.

(** [(b) => b.name === 'EVENT_STORE'] *)
Definition isEventStore (b : json) : Except bool :=
  let? n := prop (Some b) "name" in
  Val (strictEq n (Some "EVENT_STORE")).

(** [(m) => m.new_classes?.includes('EventStore')] *)
Definition isEventStoreMigration (m : json) : Except bool :=
  let? classes := prop (Some m) "new_classes" in
  optIncludes classes "EventStore".

(** [parsedConfig.queues?.producers?.some((p) => p.queue === queueName)] *)
Definition queueExists (parsedConfig : option json) (config : QueueConfig)
  : Except bool :=
  let? queues := prop parsedConfig "queues" in
  let? producers := optProp queues "producers" in
  optSome producers (isQueue config).

(** [edits = jsonc.modify(text, path, value, {});
     text = jsonc.applyEdits(text, edits)] *)
Definition edit (text : jsonc.Text) (path : list string) (v : json)
  : Except jsonc.Text :=
  let? edits := jsonc.modify text path v in
  Val (jsonc.applyEdits text edits).

(** [updatedContent] of [patchJsonConfigForQueues], once the queue is known
    not to be among the producers. Every test reads [parsedConfig], the
    document as it was read; every edit goes to the text edited so far. *)
Definition updatedContent (content : jsonc.Text) (config : QueueConfig)
  : Except jsonc.Text :=
  let parsedConfig := jsonc.parse content in
  let updated := content in
  (* 1. Add HTML module rule if not present *)
  let? rules := prop parsedConfig "rules" in
  let rules := orElse rules (JArray []) in
  let? hasHtmlRule := callSome rules isHtmlRule in
  let? updated :=
    if negb hasHtmlRule then
      let? items := spread rules in
      edit updated ["rules"] (JArray (items ++ [htmlRule]))
    else Val updated in
  (* 2. Add queue producer *)
  let? queues := prop parsedConfig "queues" in
  let? producers := optProp queues "producers" in
  let producers := orElse producers (JArray []) in
  let? items := spread producers in
  let? updated :=
    edit updated ["queues"; "producers"] (JArray (items ++ [newProducer config])) in
  (* 3. Add queue consumer *)
  let? queues := prop parsedConfig "queues" in
  let? consumers := optProp queues "consumers" in
  let consumers := orElse consumers (JArray []) in
  let? items := spread consumers in
  let? updated :=
    edit updated ["queues"; "consumers"] (JArray (items ++ [newConsumer config])) in
  (* 4. Add Durable Object binding if not present *)
  let? durable := prop parsedConfig "durable_objects" in
  let? doBindings := optProp durable "bindings" in
  let doBindings := orElse doBindings (JArray []) in
  let? hasEventStore := callSome doBindings isEventStore in
  let? updated :=
    if negb hasEventStore then
      let? items := spread doBindings in
      edit updated ["durable_objects"; "bindings"] (JArray (items ++ [newBinding]))
    else Val updated in
  (* 5. Add migration if not present *)
  let? migrations := prop parsedConfig "migrations" in
  let migrations := orElse migrations (JArray []) in
  let? hasMigration := callSome migrations isEventStoreMigration in
  let? updated :=
    if negb hasMigration then
      let? items := spread migrations in
      edit updated ["migrations"] (JArray (items ++ [newMigration]))
    else Val updated in
  Val updated.

End Json.

(* ===================================================================== *)
(** * The world the tool runs in *)
(* ===================================================================== *)

(** The file system keeps every file in the form its reader takes it in:
    characters for the files the tool reads and writes as text, the
    [jsonc.Text] for the JSON-with-comments documents. Writing to a path in
    [readOnly] fails. *)
Record FileSystem := {
  textFiles : gmap string string;
  jsoncFiles : gmap string jsonc.Text;
  dirs : gset string;
  readOnly : gset string;
}.

(** The object [prompts] returns: the answers by question name, strings for
    the text and select questions, booleans for the confirm questions; a
    question the user cancelled has no answer. *)
Record Answers := {
  texts : gmap string string;
  flags : gmap string bool;
}.

(** One run of an external process ([execa]): what it does to the files, and
    the message of the error it ends with when its exit code is not zero. *)
Record Process := {
  effect : FileSystem -> FileSystem;
  failure : option string;
}.

(** The console, by logger method ([console.log] is [Plain]). *)
Inductive Level := Intro | Success | Error | Info | Warn | Step | Plain.

Record World := {
  fs : FileSystem;
  console : list (Level * string);
  cwd : string;               (* process.cwd() *)
  answers : list Answers;     (* what the user will answer, prompt by prompt *)
  processes : list Process;   (* how the external processes will go, run by run *)
  written : list string;      (* the paths [fs.writeFile] has written, oldest first *)
}.

(** A computation returns, throws, or ends the process ([process.exit]). *)
Inductive Outcome (A : Type) :=
| Ret (a : A)
| Throw (message : string)
| Exit (code : Z).
Arguments Ret {A} a.
Arguments Throw {A} message.
Arguments Exit {A} code.

Definition M (A : Type) : Type := World -> Outcome A * World.

Definition ret {A} (a : A) : M A := fun w => (Ret a, w).

Definition bind {A B} (m : M A) (k : A -> M B) : M B :=
  fun w =>
    match m w with
    | (Ret a, w') => k a w'
    | (Throw e, w') => (Throw e, w')
    | (Exit c, w') => (Exit c, w')
    end.

Definition throw {A} (message : string) : M A := fun w => (Throw message, w).

(** [process.exit(code)]: nothing after it runs, no handler catches it. *)
Definition process_exit {A} (code : Z) : M A := fun w => (Exit code, w).

(** [try { body } catch (error) { handler(error.message) }] *)
Definition tryCatch {A} (body : M A) (handler : string -> M A) : M A :=
  fun w =>
    match body w with
    | (Throw e, w') => handler e w'
    | r => r
    end.

Definition lift {A} (e : Except A) : M A :=
  match e with
  | Val a => ret a
  | Raise message => throw message
  end.

(** A computation raises in a world. *)
Definition raises {A} (m : M A) (w : World) : Prop :=
  exists message w', m w = (Throw message, w').

Declare Scope flow_scope.
Delimit Scope flow_scope with flow.
Notation "'let!' x ':=' m 'in' k" := (bind m (fun x => k))
  (at level 10, x name, m at level 100, k at level 200) : flow_scope.
Notation "m ';;' k" := (bind m (fun _ => k))
  (at level 100, k at level 200, right associativity) : flow_scope.
Local Open Scope flow_scope.

Definition set_fs (f : FileSystem) (w : World) : World :=
  {| fs := f; console := console w; cwd := cwd w;
     answers := answers w; processes := processes w; written := written w |}.

(** The world once [fs.writeFile] has written [path]: the files are [f], and
    the write is on record. Nothing reads the record; it is there to tell a
    call that wrote a file from a call that did not. *)
Definition wrote (path : string) (f : FileSystem) (w : World) : World :=
  {| fs := f; console := console w; cwd := cwd w;
     answers := answers w; processes := processes w;
     written := written w ++ [path] |}.

Definition log (level : Level) (message : string) : M unit :=
  fun w =>
    (Ret tt,
     {| fs := fs w; console := console w ++ [(level, message)]; cwd := cwd w;
        answers := answers w; processes := processes w; written := written w |}).

Module logger.
Definition success := log Success.
Definition error := log Error.
Definition info := log Info.
Definition warn := log Warn.
Definition step := log Step.
Definition intro := log Intro.
End logger.

Definition console_log := log Plain.

Definition process_cwd : M string := fun w => (Ret (cwd w), w).

(** ** fs-extra *)

Definition exists_in (f : FileSystem) (path : string) : bool :=
  bool_decide (path ∈ dom (textFiles f))
  || bool_decide (path ∈ dom (jsoncFiles f))
  || bool_decide (path ∈ dirs f).

Definition pathExists (path : string) : M bool :=
  fun w => (Ret (exists_in (fs w) path), w).

Definition ensureDir (path : string) : M unit :=
  fun w =>
    (Ret tt,
     set_fs {| textFiles := textFiles (fs w); jsoncFiles := jsoncFiles (fs w);
               dirs := {[path]} ∪ dirs (fs w); readOnly := readOnly (fs w) |} w).

Definition readFile (path : string) : M string :=
  fun w =>
    match textFiles (fs w) !! path with
    | Some content => (Ret content, w)
    | None => (Throw "ENOENT: no such file or directory", w)
    end.

Definition readJsonc (path : string) : M jsonc.Text :=
  fun w =>
    match jsoncFiles (fs w) !! path with
    | Some content => (Ret content, w)
    | None => (Throw "ENOENT: no such file or directory", w)
    end.

Definition writeFile (path : string) (content : string) : M unit :=
  fun w =>
    if bool_decide (path ∈ readOnly (fs w)) then
      (Throw "EACCES: permission denied", w)
    else
      (Ret tt,
       wrote path {| textFiles := <[path := content]> (textFiles (fs w));
                     jsoncFiles := jsoncFiles (fs w);
                     dirs := dirs (fs w); readOnly := readOnly (fs w) |} w).

Definition writeJsonc (path : string) (content : jsonc.Text) : M unit :=
  fun w =>
    if bool_decide (path ∈ readOnly (fs w)) then
      (Throw "EACCES: permission denied", w)
    else
      (Ret tt,
       wrote path {| textFiles := textFiles (fs w);
                     jsoncFiles := <[path := content]> (jsoncFiles (fs w));
                     dirs := dirs (fs w); readOnly := readOnly (fs w) |} w).

(** ** The collaborators *)

(** [prompts(questions)]: the next answers of the user; a user who is no
    longer there cancels everything. *)
Definition prompts : M Answers :=
  fun w =>
    match answers w with
    | a :: rest =>
        (Ret a,
         {| fs := fs w; console := console w; cwd := cwd w;
            answers := rest; processes := processes w; written := written w |})
    | [] => (Ret {| texts := ∅; flags := ∅ |}, w)
    end.

(** [coloredPrompts] only colours the questions. *)
Definition coloredPrompts : M Answers := prompts.

(** [execa(file, args, { cwd })]: the next process runs; a non-zero exit code
    rejects. *)
Definition execa (file : string) (args : list string) (dir : string) : M unit :=
  fun w =>
    match processes w with
    | p :: rest =>
        let w' := {| fs := effect p (fs w); console := console w; cwd := cwd w;
                     answers := answers w; processes := rest;
                     written := written w |} in
        match failure p with
        | Some message => (Throw message, w')
        | None => (Ret tt, w')
        end
    | [] => (Throw "spawn ENOENT", w)
    end.

(* ===================================================================== *)
(** * config.ts *)
(* ===================================================================== *)

Definition patchTomlConfigForQueues
  (configPath : string) (content : string) (config : QueueConfig) : M bool :=
  tryCatch
    ((* Check if queue already exists *)
     if includes content (Toml.queueMarker config) then
       logger.warn ("Queue " +:+ quoted (str (queueName config)) +:+
                    " already exists in config");;
       ret true
     else
       writeFile configPath (Toml.updatedContent content config);;
       logger.success "Updated wrangler.toml with queue configuration";;
       ret true)
    (fun message =>
       logger.error ("Failed to patch TOML config: " +:+ message);;
       ret false).

Definition patchJsonConfigForQueues
  (configPath : string) (content : jsonc.Text) (config : QueueConfig) : M bool :=
  tryCatch
    (let parsedConfig := jsonc.parse content in
     (* Check if queue already exists *)
     let! found := lift (Json.queueExists parsedConfig config) in
     if found then
       logger.warn ("Queue " +:+ quoted (str (queueName config)) +:+
                    " already exists in config");;
       ret true
     else
       let! updatedContent := lift (Json.updatedContent content config) in
       writeJsonc configPath updatedContent;;
       logger.success "Updated wrangler config with queue configuration";;
       ret true)
    (fun message =>
       logger.error ("Failed to patch JSON config: " +:+ message);;
       ret false).

(** The content is read in the form the chosen patcher takes it in, which is
    why the model tests the extension before it reads. *)
Definition patchWranglerConfigForQueues
  (configPath : string) (config : QueueConfig) : M bool :=
  tryCatch
    (if endsWith configPath ".toml" then
       (* Check if it's TOML *)
       let! content := readFile configPath in
       patchTomlConfigForQueues configPath content config
     else
       (* Handle JSON/JSONC *)
       let! content := readJsonc configPath in
       patchJsonConfigForQueues configPath content config)
    (fun message =>
       logger.error ("Failed to patch config: " +:+ message);;
       ret false).

(* ===================================================================== *)
(** * primitives/base.ts and primitives/registry.ts *)
(* ===================================================================== *)

(** [PrimitiveConfig]: the open-ended mapping a primitive's prompt returns.
    All its entries come from text and select questions. A key that is
    absent reads as [undefined]. *)
Definition PrimitiveConfig := gmap string string.

Record DeploymentInfo := {
  successMessage : option string;
  nextSteps : option (list string);
}.

Record Primitive := mkPrimitive {
  (* Metadata *)
  id : string;
  name : string;
  description : string;
  (* Capabilities *)
  supportsNewProject : bool;
  supportsExisting : bool;
  (* Prompts; [None] as a result is the cancellation [null] *)
  promptNew : M (option PrimitiveConfig);
  promptExisting : option (M (option PrimitiveConfig));
  (* Config patching *)
  patchConfig : option (string -> PrimitiveConfig -> M bool);
  (* File generation *)
  generateFiles : string -> PrimitiveConfig -> M unit;
  (* Pre-deployment steps *)
  preDeploySteps : option (string -> PrimitiveConfig -> M unit);
  (* Post-deployment info *)
  getDeploymentInfo : option (PrimitiveConfig -> DeploymentInfo);
}.

(** A JavaScript [Map] with string keys: the entries in insertion order, one
    per key. [set] on a key that is present replaces the value where it
    stands; on a new key it adds the entry at the end. *)
Module Map.

Fixpoint set {V} (key : string) (v : V) (entries : list (string * V))
  : list (string * V) :=
  match entries with
  | [] => [(key, v)]
  | (k, old) :: rest =>
      if String.eqb k key then (k, v) :: rest else (k, old) :: set key v rest
  end.

Fixpoint get {V} (key : string) (entries : list (string * V)) : option V :=
  match entries with
  | [] => None
  | (k, v) :: rest => if String.eqb k key then Some v else get key rest
  end.

Definition has {V} (key : string) (entries : list (string * V)) : bool :=
  match get key entries with Some _ => true | None => false end.

Definition values {V} (entries : list (string * V)) : list V := map snd entries.

End Map.

Module PrimitiveRegistry.

(** The private field [primitives]. *)
Definition t := list (string * Primitive).

Definition empty : t := [].

Definition register (primitive : Primitive) (primitives : t) : t :=
  Map.set (id primitive) primitive primitives.

Definition get (key : string) (primitives : t) : option Primitive :=
  Map.get key primitives.

Definition getAll (primitives : t) : list Primitive := Map.values primitives.

Definition getForNewProject (primitives : t) : list Primitive :=
  List.filter supportsNewProject (getAll primitives).

Definition getForExisting (primitives : t) : list Primitive :=
  List.filter supportsExisting (getAll primitives).

Definition has (key : string) (primitives : t) : bool := Map.has key primitives.

End PrimitiveRegistry.

(* ===================================================================== *)
(** * The queues primitive and the worker-only primitive *)
(* ===================================================================== *)

(** templates.ts: the generated sources are fixed texts; the worker's source
    has the binding name in two places (and the queue name nowhere). The
    texts themselves are taken as given. *)
Record Templates := {
  workerCodeHead : string;
  workerCodeMiddle : string;
  workerCodeTail : string;
  eventStoreCode : string;
  dashboardHTML : string;
}.

Definition generateQueueWorkerCode
  (t : Templates) (queue binding : option string) : string :=
  workerCodeHead t +:+ str binding +:+ workerCodeMiddle t +:+ str binding
  +:+ workerCodeTail t.

Definition generateEventStoreCode (t : Templates) : string := eventStoreCode t.
Definition generateDashboardHTML (t : Templates) : string := dashboardHTML t.

(** [!x] for a string that may be [undefined]. *)
Definition falsy (x : option string) : bool :=
  match x with
  | None => true
  | Some s => String.eqb s EmptyString
  end.

(** queues/prompts.ts *)
Definition promptNewQueueProject : M (option PrimitiveConfig) :=
  console_log (nl +:+ "No Worker project detected. Let's create a new one with Queues!" +:+ nl);;
  let! response := coloredPrompts in
  if falsy (texts response !! "projectName") then ret None
  else ret (Some (texts response)).

Definition promptExistingQueueProject : M (option PrimitiveConfig) :=
  console_log (nl +:+ "Detected a Cloudflare Worker project in this directory." +:+ nl);;
  let! response := coloredPrompts in
  if falsy (texts response !! "action") then ret None
  else ret (Some (texts response)).

(** An object literal of strings; a property whose value is [undefined]
    reads like an absent one. *)
Fixpoint configLiteral (props : list (string * option string)) : PrimitiveConfig :=
  match props with
  | [] => ∅
  | (k, Some v) :: rest => <[k := v]> (configLiteral rest)
  | (_, None) :: rest => configLiteral rest
  end.

Module QueuesPrimitive.

Definition promptNew : M (option PrimitiveConfig) :=
  let! choices := promptNewQueueProject in
  ret choices.

Definition promptExisting : M (option PrimitiveConfig) :=
  let! choices := promptExistingQueueProject in
  match choices with
  | None => ret None
  | Some choices =>
      (* For existing projects, we don't have projectName *)
      ret (Some (configLiteral [("queueName", choices !! "queueName");
                                ("bindingName", choices !! "bindingName")]))
  end.

Definition patchConfig (configPath : string) (config : PrimitiveConfig) : M bool :=
  patchWranglerConfigForQueues configPath
    {| queueName := config !! "queueName";
       bindingName := config !! "bindingName";
       maxBatchSize := Some 4;
       maxBatchTimeout := Some 3;
       maxRetries := Some 3 |}.

Definition generateFiles (t : Templates) (projectDir : string) (config : PrimitiveConfig)
  : M unit :=
  let srcDir := path_join projectDir "src" in
  (* Ensure src directory exists *)
  ensureDir srcDir;;
  (* Generate index.ts with full demo worker *)
  let entryFilePath := path_join srcDir "index.ts" in
  let workerCode :=
    generateQueueWorkerCode t (config !! "queueName") (config !! "bindingName") in
  writeFile entryFilePath workerCode;;
  (* Generate event-store.ts *)
  let eventStorePath := path_join srcDir "event-store.ts" in
  writeFile eventStorePath (generateEventStoreCode t);;
  (* Generate dashboard.html *)
  let dashboardPath := path_join srcDir "dashboard.html" in
  writeFile dashboardPath (generateDashboardHTML t);;
  logger.success "Created queue demo files (index.ts, event-store.ts, dashboard.html)".

Definition preDeploySteps (projectDir : string) (config : PrimitiveConfig) : M unit :=
  logger.step ("Creating queue: " +:+ str (config !! "queueName") +:+ "...");;
  tryCatch
    (execa "npx" ["wrangler"; "queues"; "create"; str (config !! "queueName")] projectDir;;
     logger.success ("Queue " +:+ quoted (str (config !! "queueName")) +:+ " created"))
    (fun _ =>
       (* Queue might already exist, which is okay *)
       logger.warn "Queue creation failed (it might already exist)";;
       logger.info "Continuing with deployment...").

Definition getDeploymentInfo (config : PrimitiveConfig) : DeploymentInfo :=
  {| successMessage := Some "🎉 Your queue worker is live!";
     nextSteps := Some
       ["Open http://localhost:8787 in your browser to view the live dashboard";
        "Click " +:+ quoted "Enqueue Message" +:+ " to send messages to the queue";
        "Watch the real-time visualization of queue → consumer → events"] |}.

Definition primitive (t : Templates) : Primitive :=
  mkPrimitive
    (* id *) "queues"
    (* name *) "Queues"
    (* description *) "Workers Queues with interactive dashboard"
    (* supportsNewProject *) true
    (* supportsExisting *) true
    promptNew
    (Some promptExisting)
    (Some patchConfig)
    (generateFiles t)
    (Some preDeploySteps)
    (Some getDeploymentInfo).

End QueuesPrimitive.

Module WorkerOnlyPrimitive.

Definition promptNew : M (option PrimitiveConfig) :=
  console_log (nl +:+ "Creating a basic Worker project (no primitives)." +:+ nl);;
  let! response := coloredPrompts in
  if falsy (texts response !! "projectName") then ret None
  else ret (Some (texts response)).

(** Worker-only doesn't generate any additional files. *)
Definition generateFiles (projectDir : string) (config : PrimitiveConfig) : M unit :=
  ret tt.

Definition getDeploymentInfo (config : PrimitiveConfig) : DeploymentInfo :=
  {| successMessage := Some "🎉 Your worker is live!";
     nextSteps := Some
       ["Open your worker URL to see it in action";
        "Run " +:+ quoted "clementine" +:+
        " again to add primitives like Queues, KV, or D1"] |}.

Definition primitive : Primitive :=
  mkPrimitive
    (* id *) "worker-only"
    (* name *) "Worker only"
    (* description *) "Basic Worker project (no primitives)"
    (* supportsNewProject *) true
    (* supportsExisting: can't add worker-only to an existing project *) false
    promptNew
    (* promptExisting *) None
    (* patchConfig *) None
    generateFiles
    (* preDeploySteps *) None
    (Some getDeploymentInfo).

End WorkerOnlyPrimitive.

(** primitives/index.ts: the registry with both primitives registered. *)
Definition registry (t : Templates) : PrimitiveRegistry.t :=
  PrimitiveRegistry.register WorkerOnlyPrimitive.primitive
    (PrimitiveRegistry.register (QueuesPrimitive.primitive t) PrimitiveRegistry.empty).

(* ===================================================================== *)
(** * lib/deploy.ts *)
(* ===================================================================== *)

Definition promptDeploy : M bool :=
  let! response := coloredPrompts in
  (* response.deploy ?? false *)
  ret (default false (flags response !! "deploy")).

Definition deployProject (projectDir : string) (queue : option string)
  (projectName : string) : M unit :=
  tryCatch
    ((* Step 1: If there's a queue, create it first *)
     (if negb (falsy queue) then
        logger.step ("Creating queue: " +:+ str queue +:+ "...");;
        tryCatch
          (execa "npx" ["wrangler"; "queues"; "create"; str queue] projectDir;;
           logger.success ("Queue " +:+ quoted (str queue) +:+ " created"))
          (fun _ =>
             (* Queue might already exist, which is okay *)
             logger.warn "Queue creation failed (it might already exist)";;
             logger.info "Continuing with deployment...")
      else ret tt);;
     (* Step 2: Deploy the worker *)
     logger.step "Deploying to Cloudflare...";;
     execa "npx" ["wrangler"; "deploy"] projectDir;;
     logger.success ("Successfully deployed " +:+ projectName +:+ "!");;
     if negb (falsy queue) then
       console_log (nl +:+ "🎉 Your queue worker is live!");;
       console_log "View your deployment at: https://dash.cloudflare.com"
     else
       console_log (nl +:+ "🎉 Your worker is live!");;
       console_log "View your deployment at: https://dash.cloudflare.com")
    (fun message =>
       logger.error "Deployment failed";;
       if includes message "not authenticated" then
         logger.info ("Run " +:+ quoted "wrangler login" +:+
                      " to authenticate with Cloudflare")
       else
         logger.info ("You can deploy later by running: cd " +:+ projectName +:+
                      " && npx wrangler deploy");;
         if negb (falsy queue) then
           logger.info ("Remember to create the queue first: npx wrangler queues create "
                        +:+ str queue)
         else ret tt).

(* ===================================================================== *)
(** * lib/detect.ts *)
(* ===================================================================== *)

Inductive ConfigType := toml | jsonc_.

Record ProjectContext := {
  isWorkerProject : bool;
  wranglerConfigPath : option string;
  wranglerConfigType : option ConfigType;
  entryFilePath : option string;
  srcDir : option string;
  hasPackageJson : bool;
}.

(** The common entry file locations, each with the directory it lies in
    ([path.dirname] of the joined path). *)
Definition possiblePaths (dir : string) : list (string * string) :=
  let src := path_join dir "src" in
  [(src, path_join src "index.ts");
   (src, path_join src "index.js");
   (src, path_join src "worker.ts");
   (src, path_join src "worker.js");
   (dir, path_join dir "index.ts");
   (dir, path_join dir "index.js");
   (dir, path_join dir "worker.ts");
   (dir, path_join dir "worker.js")].

Fixpoint firstExisting (candidates : list (string * string))
  : M (option (string * string)) :=
  match candidates with
  | [] => ret None
  | (dir, filePath) :: rest =>
      let! found := pathExists filePath in
      if found then ret (Some (dir, filePath)) else firstExisting rest
  end.

Definition detectEntryFile (dir : string) (wranglerConfigPath : string)
  : M (option (string * string)) :=
  firstExisting (possiblePaths dir).

Definition detectProjectContext : M ProjectContext :=
  let! dir := process_cwd in
  (* Check for package.json *)
  let! hasPackage := pathExists (path_join dir "package.json") in
  (* Check for wrangler config files *)
  let wranglerJsonc := path_join dir "wrangler.jsonc" in
  let wranglerJson := path_join dir "wrangler.json" in
  let wranglerToml := path_join dir "wrangler.toml" in
  let! isJsonc := pathExists wranglerJsonc in
  let! found :=
    if isJsonc then ret (Some (wranglerJsonc, jsonc_))
    else
      let! isJson := pathExists wranglerJson in
      if isJson then ret (Some (wranglerJson, jsonc_))
      else
        let! isToml := pathExists wranglerToml in
        if isToml then ret (Some (wranglerToml, toml)) else ret None in
  (* If it's a Worker project, try to find entry file *)
  let! entry :=
    match found with
    | Some (configPath, _) => detectEntryFile dir configPath
    | None => ret None
    end in
  ret {| isWorkerProject := bool_decide (is_Some found);
         wranglerConfigPath := fst <$> found;
         wranglerConfigType := snd <$> found;
         entryFilePath := snd <$> entry;
         srcDir := fst <$> entry;
         hasPackageJson := hasPackage |}.

(* ===================================================================== *)
(** * lib/flows/generic-new.ts *)
(* ===================================================================== *)

(** [list.forEach((step, i) => console.log(`  ${i + 1}. ${step}`))] *)
Fixpoint logNumbered (i : Z) (steps : list string) : M unit :=
  match steps with
  | [] => ret tt
  | step :: rest =>
      console_log ("  " +:+ pretty (i + 1) +:+ ". " +:+ step);;
      logNumbered (i + 1) rest
  end.

(** [list.forEach((step) => console.log(`  ${step}`))] *)
Fixpoint logIndented (steps : list string) : M unit :=
  match steps with
  | [] => ret tt
  | step :: rest => console_log ("  " +:+ step);; logIndented rest
  end.

(** [primitive.getDeploymentInfo?.(config)] *)
Definition deploymentInfo (primitive : Primitive) (config : PrimitiveConfig)
  : option DeploymentInfo :=
  (fun f => f config) <$> getDeploymentInfo primitive.

Module GenericNew.

(** Steps 1 and 2: scaffold the Worker project using create-cloudflare, then
    detect which wrangler config file was generated. *)
Definition scaffold (projectName projectDir : string) : M string :=
  logger.step "Creating Worker project with create-cloudflare...";;
  let! dir := process_cwd in
  tryCatch
    (execa "npm"
       ["create"; "cloudflare@latest"; projectName; "--"; "--type"; "hello-world";
        "--lang"; "ts"; "--no-deploy"; "--git"] dir;;
     logger.success "Base Worker project created")
    (fun _ =>
       logger.error "Failed to run create-cloudflare";;
       logger.info "Make sure you have npm installed and internet connection";;
       process_exit 1);;
  let wranglerJsoncPath := path_join projectDir "wrangler.jsonc" in
  let wranglerJsonPath := path_join projectDir "wrangler.json" in
  let wranglerTomlPath := path_join projectDir "wrangler.toml" in
  (* Check in priority order: jsonc, json, toml *)
  let! isJsonc := pathExists wranglerJsoncPath in
  if isJsonc then
    logger.info "Detected wrangler.jsonc configuration";; ret wranglerJsoncPath
  else
    let! isJson := pathExists wranglerJsonPath in
    if isJson then
      logger.info "Detected wrangler.json configuration";; ret wranglerJsonPath
    else
      let! isToml := pathExists wranglerTomlPath in
      if isToml then
        logger.info "Detected wrangler.toml configuration";; ret wranglerTomlPath
      else
        logger.error "Could not find wrangler config in the generated project";;
        process_exit 1.

(** Steps 3 to 5: patch the config, generate the files, report success. *)
Definition configure (primitive : Primitive) (config : PrimitiveConfig)
  (projectName projectDir configPath : string) : M unit :=
  (* Step 3: Patch config (if primitive needs it) *)
  match patchConfig primitive with
  | Some patch =>
      logger.step ("Adding " +:+ name primitive +:+ " configuration...");;
      let! configPatched := patch configPath config in
      if negb configPatched then
        logger.error "Failed to patch wrangler config";;
        process_exit 1
      else ret tt
  | None => ret tt
  end;;
  (* Step 4: Generate files (if primitive needs it) *)
  logger.step ("Generating " +:+ name primitive +:+ " files...");;
  generateFiles primitive projectDir config;;
  (* Step 5: Success message *)
  logger.success ("Created project: " +:+ projectName).

(** Step 6: ask about deployment. *)
Definition deployment (primitive : Primitive) (config : PrimitiveConfig)
  (projectName projectDir : string) : M unit :=
  console_log "";;
  let! shouldDeploy := promptDeploy in
  if shouldDeploy then
    console_log "";;
    (* Run primitive-specific pre-deploy steps *)
    match preDeploySteps primitive with
    | Some steps => steps projectDir config
    | None => ret tt
    end;;
    (* Deploy *)
    deployProject projectDir None projectName;;
    (* Show primitive-specific deployment info *)
    match deploymentInfo primitive config with
    | Some deployInfo =>
        match successMessage deployInfo with
        | Some message =>
            if negb (falsy (Some message)) then console_log (nl +:+ message)
            else ret tt
        | None => ret tt
        end;;
        console_log "View your deployment at: https://dash.cloudflare.com"
    | None => ret tt
    end
  else
    (* Show local dev instructions *)
    console_log (nl +:+ "For local development:");;
    console_log ("  cd " +:+ projectName);;
    console_log "  npm run dev";;
    (* Show primitive-specific next steps *)
    match deploymentInfo primitive config ≫= nextSteps with
    | Some steps =>
        console_log (nl +:+ "Try the demo:");;
        logNumbered 0 steps
    | None => ret tt
    end;;
    console_log (nl +:+ "Or use curl:");;
    console_log ("  curl -X POST http://localhost:8787 -d " +:+ quoted "Hello!");;
    console_log (nl +:+ "To deploy later:");;
    console_log ("  cd " +:+ projectName);;
    (* Add primitive-specific deployment instructions *)
    (if String.eqb (id primitive) "queues" then
       console_log ("  npx wrangler queues create " +:+ str (config !! "queueName"))
     else ret tt);;
    console_log "  npx wrangler deploy".

End GenericNew.

Definition runGenericNewFlow (primitive : Primitive) (config : PrimitiveConfig)
  (context : ProjectContext) : M unit :=
  let projectName := config !! "projectName" in
  if falsy projectName then
    logger.error "Project name is required";;
    process_exit 1
  else
    let projectName := str projectName in
    let! dir := process_cwd in
    let projectDir := path_join dir projectName in
    let! taken := pathExists projectDir in
    if taken then
      logger.error ("Directory " +:+ quoted projectName +:+ " already exists");;
      process_exit 1
    else
      let! configPath := GenericNew.scaffold projectName projectDir in
      GenericNew.configure primitive config projectName projectDir configPath;;
      GenericNew.deployment primitive config projectName projectDir.

(* ===================================================================== *)
(** * lib/flows/generic-existing.ts and lib/flows/existing.ts *)
(* ===================================================================== *)

Fixpoint logAll (lines : list string) : M unit :=
  match lines with
  | [] => ret tt
  | line :: rest => console_log line;; logAll rest
  end.

(** ['='.repeat(80)] *)
Definition rule80 : string :=
  "================================================================================".

(** The manual steps both existing-project flows print for the queues. *)
Definition manualSteps (binding : option string) : list string :=
  [nl +:+ "📝 Manual steps required:" +:+ nl;
   "Your existing index.ts was not modified. You need to integrate the queue code:";
   nl +:+ "1. Add to your Env interface:";
   "   " +:+ str binding +:+ ": Queue;";
   "   EVENT_STORE: DurableObjectNamespace;";
   nl +:+ "2. Add these imports at the top of your index.ts:";
   "   import { EventStore } from " +:+ quoted "./event-store" +:+ ";";
   "   import dashboardHTML from " +:+ quoted "./dashboard.html" +:+ ";";
   nl +:+ "3. Export the EventStore class:";
   "   export { EventStore };";
   nl +:+ "4. Add dashboard route to your fetch handler:";
   "   if (request.method === " +:+ quoted "GET" +:+ " && url.pathname === "
     +:+ quoted "/" +:+ ") {";
   "     return new Response(dashboardHTML, {";
   "       headers: { " +:+ quoted "Content-Type" +:+ ": " +:+ quoted "text/html" +:+ " },";
   "     });";
   "   }";
   nl +:+ "5. Add queue consumer handler to your worker:";
   "   async queue(batch: MessageBatch, env: Env): Promise<void> {";
   "     // See queue-handler.ts for full implementation";
   "   }";
   nl +:+ "📄 Reference: Check queue-handler.ts for the complete implementation"].

Definition runGenericExistingFlow (primitive : Primitive) (config : PrimitiveConfig)
  (context : ProjectContext) : M unit :=
  (* Find wrangler config *)
  let configPath := wranglerConfigPath context in
  if falsy configPath then
    logger.error "Could not find wrangler.toml or wrangler.json in the project";;
    process_exit 1
  else
    let configPath := str configPath in
    (* Step 1: Patch config (if primitive needs it) *)
    match patchConfig primitive with
    | Some patch =>
        logger.step ("Adding " +:+ name primitive +:+ " configuration...");;
        let! configPatched := patch configPath config in
        if negb configPatched then
          logger.error "Failed to patch wrangler config";;
          process_exit 1
        else ret tt
    | None => ret tt
    end;;
    (* Step 2: Generate files *)
    logger.step ("Creating " +:+ name primitive +:+ " files...");;
    let! projectRoot := process_cwd in
    let srcDir := path_join projectRoot "src" in
    (* Ensure src directory exists *)
    ensureDir srcDir;;
    (* Generate primitive-specific files *)
    generateFiles primitive projectRoot config;;
    (* Step 3: Success message *)
    console_log (nl +:+ rule80);;
    logger.success (name primitive +:+ " configuration added!");;
    console_log rule80;;
    (* Show integration instructions if needed *)
    (if String.eqb (id primitive) "queues" then
       logAll (manualSteps (config !! "bindingName"))
     else ret tt);;
    (* Step 4: Ask if they want to run primitive-specific setup *)
    match preDeploySteps primitive with
    | Some steps =>
        console_log "";;
        let! response := prompts in
        if default false (flags response !! "createResource") then
          console_log "";;
          let! dir := process_cwd in
          steps dir config
        else if String.eqb (id primitive) "queues" then
          console_log (nl +:+ "⚠️  Remember to create the queue before deploying: "
                       +:+ "npx wrangler queues create " +:+ str (config !! "queueName"))
        else ret tt
    | None => ret tt
    end;;
    (* Step 5: Show next steps *)
    console_log (nl +:+ "Next steps:");;
    console_log "  npm run dev";;
    match deploymentInfo primitive config ≫= nextSteps with
    | Some steps => logIndented steps
    | None => ret tt
    end;;
    console_log (nl +:+ "When ready to deploy:");;
    console_log "  npx wrangler deploy".

(** [if (await fs.pathExists(path)) warn(...) else { writeFile(path, content);
    success(...) }], the way lib/flows/existing.ts creates each file. *)
Definition createUnlessExists (filePath content warning created : string) : M unit :=
  let! found := pathExists filePath in
  if found then logger.warn warning
  else writeFile filePath content;; logger.success created.

(** lib/flows/existing.ts: the flow the [queues] command runs in an existing
    project. *)
Definition runExistingProjectFlow (t : Templates) (context : ProjectContext) : M unit :=
  let! choices := promptExistingQueueProject in
  match choices with
  | None =>
      logger.info "Setup cancelled";;
      process_exit 0
  | Some choices =>
      let queue := choices !! "queueName" in
      let binding := choices !! "bindingName" in
      (* Find wrangler config *)
      let configPath := wranglerConfigPath context in
      if falsy configPath then
        logger.error "Could not find wrangler.toml or wrangler.json in the project";;
        process_exit 1
      else
        let configPath := str configPath in
        logger.step "Adding queue configuration...";;
        let! configPatched :=
          patchWranglerConfigForQueues configPath
            {| queueName := queue; bindingName := binding;
               maxBatchSize := Some 4; maxBatchTimeout := Some 3;
               maxRetries := Some 3 |} in
        if negb configPatched then
          logger.error "Failed to patch wrangler config";;
          process_exit 1
        else
          (* Create the queue demo files in src/ *)
          logger.step "Creating queue demo files...";;
          let! projectRoot := process_cwd in
          let srcDir := path_join projectRoot "src" in
          (* Ensure src directory exists *)
          ensureDir srcDir;;
          (* Create event-store.ts *)
          createUnlessExists (path_join srcDir "event-store.ts")
            (generateEventStoreCode t)
            "event-store.ts already exists, skipping" "Created event-store.ts";;
          (* Create dashboard.html *)
          createUnlessExists (path_join srcDir "dashboard.html")
            (generateDashboardHTML t)
            "dashboard.html already exists, skipping" "Created dashboard.html";;
          (* Create a sample queue handler file (but don't overwrite existing
             index.ts) *)
          createUnlessExists (path_join srcDir "queue-handler.ts")
            (generateQueueWorkerCode t queue binding)
            "queue-handler.ts already exists, skipping"
            "Created queue-handler.ts as a reference";;
          (* Provide manual instructions *)
          console_log (nl +:+ rule80);;
          logger.success "Queue configuration added!";;
          console_log rule80;;
          logAll (manualSteps binding);;
          (* Ask if they want to create the queue now *)
          console_log "";;
          let! response := prompts in
          let createQueue := default false (flags response !! "createQueue") in
          (if createQueue then
             console_log "";;
             logger.step ("Creating queue: " +:+ str queue +:+ "...");;
             let! dir := process_cwd in
             tryCatch
               (execa "npx" ["wrangler"; "queues"; "create"; str queue] dir;;
                logger.success ("Queue " +:+ quoted (str queue) +:+ " created"))
               (fun _ =>
                  logger.warn "Queue creation failed (it might already exist)";;
                  logger.info ("You can create it later: npx wrangler queues create "
                               +:+ str queue))
           else
             console_log (nl +:+ "⚠️  Remember to create the queue before deploying: "
                          +:+ "npx wrangler queues create " +:+ str queue));;
          console_log (nl +:+ "Next steps:");;
          console_log "  npm run dev";;
          console_log "  Open http://localhost:8787 to view the dashboard";;
          console_log (nl +:+ "When ready to deploy:");;
          (if negb createQueue then
             console_log ("  npx wrangler queues create " +:+ str queue)
           else ret tt);;
          console_log "  npx wrangler deploy"
  end.

(* ===================================================================== *)
(** * commands/init.ts *)
(* ===================================================================== *)

Record InitOptions := {
  add : bool;
  new : bool;
}.

Definition promptPrimitiveSelection (registered : PrimitiveRegistry.t)
  (isExistingProject : bool) : M (option string) :=
  let primitives :=
    if isExistingProject then PrimitiveRegistry.getForExisting registered
    else PrimitiveRegistry.getForNewProject registered in
  match primitives with
  | [] =>
      logger.error "No primitives available";;
      ret None
  | _ =>
      console_log (if isExistingProject
                   then nl +:+ "✨ Detected existing Worker project" +:+ nl
                   else nl +:+ "✨ No Worker project detected" +:+ nl);;
      let! response := prompts in
      (* response.primitive || null *)
      let choice := texts response !! "primitive" in
      ret (if falsy choice then None else choice)
  end.

Definition init (registered : PrimitiveRegistry.t) (options : InitOptions) : M unit :=
  (* Validate options *)
  if add options && new options then
    logger.error "Cannot use both --add and --new flags";;
    process_exit 1
  else
    (* Detect project context *)
    let! context := detectProjectContext in
    (* Determine if we should show feature selection *)
    let showFeatureSelection := negb (add options) && negb (new options) in
    if showFeatureSelection then
      (* Interactive mode - show primitive selection menu *)
      let! selectedPrimitiveId :=
        promptPrimitiveSelection registered (isWorkerProject context) in
      match selectedPrimitiveId with
      | None =>
          logger.info "Setup cancelled";;
          process_exit 0
      | Some selectedPrimitiveId =>
          match PrimitiveRegistry.get selectedPrimitiveId registered with
          | None =>
              logger.error ("Unknown primitive: " +:+ selectedPrimitiveId);;
              process_exit 1
          | Some primitive =>
              (* Get primitive-specific config *)
              if isWorkerProject context then
                if negb (supportsExisting primitive) then
                  logger.warn (name primitive +:+ " cannot be added to existing projects.");;
                  process_exit 0
                else
                  match promptExisting primitive with
                  | None =>
                      logger.error (name primitive +:+ " does not support existing projects.");;
                      process_exit 1
                  | Some prompt =>
                      let! config := prompt in
                      match config with
                      | None =>
                          logger.info "Setup cancelled";;
                          process_exit 0
                      | Some config => runGenericExistingFlow primitive config context
                      end
                  end
              else
                let! config := promptNew primitive in
                match config with
                | None =>
                    logger.info "Setup cancelled";;
                    process_exit 0
                | Some config => runGenericNewFlow primitive config context
                end
          end
      end
    else
      (* Flag-based mode (--new or --add) - default to queues for backwards
         compatibility *)
      match PrimitiveRegistry.get "queues" registered with
      | None =>
          logger.error "Queues primitive not found";;
          process_exit 1
      | Some queuesPrimitive =>
          if new options then
            (* Force new project with queues *)
            let! config := promptNew queuesPrimitive in
            match config with
            | None =>
                logger.info "Setup cancelled";;
                process_exit 0
            | Some config => runGenericNewFlow queuesPrimitive config context
            end
          else if add options then
            (* Force add to existing *)
            if negb (isWorkerProject context) then
              logger.error "Not a Worker project. Use --new to create a new project.";;
              process_exit 1
            else
              match promptExisting queuesPrimitive with
              | None =>
                  logger.error "Queues does not support existing projects.";;
                  process_exit 1
              | Some prompt =>
                  let! config := prompt in
                  match config with
                  | None =>
                      logger.info "Setup cancelled";;
                      process_exit 0
                  | Some config =>
                      runGenericExistingFlow queuesPrimitive config context
                  end
              end
          else ret tt
      end.

(* ===================================================================== *)
(** * lib/config.ts: the KV namespace patcher *)
(* ===================================================================== *)

Module KV.

(** [(ns) => ns.binding === bindingName] *)
Definition isBinding (binding : string) (ns : json) : Except bool :=
  let? b := prop (Some ns) "binding" in
  Val (strictEq b (Some binding)).

Definition newBinding (binding namespaceId : string) : json :=
  JObject (objectLiteral
    [("binding", Some (JString binding)); ("id", Some (JString namespaceId))]).

(** The test [if (config.kv_namespaces) { exists = ....some(...) }] of
    [patchJsonConfig]. *)
Definition bindingExists (config : option json) (binding : string) : Except bool :=
  let? namespaces := prop config "kv_namespaces" in
  match namespaces with
  | Some v => if truthy namespaces then callSome v (isBinding binding) else Val false
  | None => Val false
  end.

(** [updatedContent] of [patchJsonConfig]. *)
Definition updatedContent (content : jsonc.Text) (binding namespaceId : string)
  : Except jsonc.Text :=
  let config := jsonc.parse content in
  let? namespaces := prop config "kv_namespaces" in
  let? items := spread (orElse namespaces (JArray [])) in
  Json.edit content ["kv_namespaces"] (JArray (items ++ [newBinding binding namespaceId])).

Definition patchJsonConfig (configPath : string) (content : jsonc.Text)
  (binding namespaceId : string) : M bool :=
  tryCatch
    (let config := jsonc.parse content in
     (* Check if binding already exists *)
     let! found := lift (bindingExists config binding) in
     if found then
       logger.warn ("Binding " +:+ quoted binding +:+ " already exists in config");;
       ret true
     else
       (* Add KV namespace binding *)
       let! updated := lift (updatedContent content binding namespaceId) in
       writeJsonc configPath updated;;
       logger.success "Updated wrangler config with KV binding";;
       ret true)
    (fun message =>
       logger.error ("Failed to patch JSON config: " +:+ message);;
       ret false).

Definition bindingBlock (binding namespaceId : string) : string :=
  "[[kv_namespaces]]" +:+ nl +:+
  "binding = " +:+ quoted binding +:+ nl +:+
  "id = " +:+ quoted namespaceId +:+ nl.

Definition patchTomlConfig (configPath content binding namespaceId : string) : M bool :=
  tryCatch
    ((* Check if kv_namespaces already exists *)
     (if includes content "[[kv_namespaces]]" then
        (* Append to existing section *)
        writeFile configPath (content +:+ (nl +:+ bindingBlock binding namespaceId))
      else
        (* Create new section *)
        writeFile configPath
          (content +:+ (nl +:+ "# KV Namespaces" +:+ nl +:+ bindingBlock binding namespaceId)));;
     logger.success "Updated wrangler.toml with KV binding";;
     ret true)
    (fun message =>
       logger.error ("Failed to patch TOML config: " +:+ message);;
       ret false).

Definition patchWranglerConfig (configPath binding namespaceId : string) : M bool :=
  tryCatch
    (if endsWith configPath ".toml" then
       let! content := readFile configPath in
       patchTomlConfig configPath content binding namespaceId
     else
       let! content := readJsonc configPath in
       patchJsonConfig configPath content binding namespaceId)
    (fun message =>
       logger.error ("Failed to patch config: " +:+ message);;
       ret false).

End KV.

(* ===================================================================== *)
(** * lib/prompts.ts, lib/flows/new.ts, lib/flows/worker-only.ts *)
(* ===================================================================== *)

Definition promptFeatureSelection (isExistingProject : bool) : M (option string) :=
  console_log (if isExistingProject
               then nl +:+ "✨ Detected existing Worker project" +:+ nl
               else nl +:+ "✨ No Worker project detected" +:+ nl);;
  let! response := coloredPrompts in
  (* response.feature || null *)
  let feature := texts response !! "feature" in
  ret (if falsy feature then None else feature).

Definition confirmAction (message : string) : M bool :=
  let! response := coloredPrompts in
  (* response.confirmed ?? false *)
  ret (default false (flags response !! "confirmed")).

Definition promptWorkerOnlyProject : M (option PrimitiveConfig) :=
  WorkerOnlyPrimitive.promptNew.

(** The scaffolding both older flows start with: the target directory must
    be free, then create-cloudflare runs; [created] is the success line. *)
Definition scaffoldWith (stepLine created projectName projectDir : string) : M unit :=
  let! taken := pathExists projectDir in
  if taken then
    logger.error ("Directory " +:+ quoted projectName +:+ " already exists");;
    process_exit 1
  else
    logger.step stepLine;;
    let! dir := process_cwd in
    tryCatch
      (execa "npm"
         ["create"; "cloudflare@latest"; projectName; "--"; "--type"; "hello-world";
          "--lang"; "ts"; "--no-deploy"; "--git"] dir;;
       logger.success created)
      (fun _ =>
         logger.error "Failed to run create-cloudflare";;
         logger.info "Make sure you have npm installed and internet connection";;
         process_exit 1).

(** lib/flows/new.ts *)
Definition runNewProjectFlow (t : Templates) (context : ProjectContext) : M unit :=
  let! choices := promptNewQueueProject in
  match choices with
  | None =>
      logger.info "Setup cancelled";;
      process_exit 0
  | Some choices =>
      let projectName := str (choices !! "projectName") in
      let queue := choices !! "queueName" in
      let binding := choices !! "bindingName" in
      let! dir := process_cwd in
      let projectDir := path_join dir projectName in
      (* Step 1: Use c3 to scaffold the Worker project *)
      scaffoldWith "Scaffolding Worker project with create-cloudflare..."
        "Base Worker project created" projectName projectDir;;
      (* Step 2: Detect which wrangler config file was generated *)
      let wranglerJsoncPath := path_join projectDir "wrangler.jsonc" in
      let wranglerJsonPath := path_join projectDir "wrangler.json" in
      let wranglerTomlPath := path_join projectDir "wrangler.toml" in
      let! isJsonc := pathExists wranglerJsoncPath in
      let! configPath :=
        if isJsonc then
          logger.info "Detected wrangler.jsonc configuration";; ret wranglerJsoncPath
        else
          let! isJson := pathExists wranglerJsonPath in
          if isJson then
            logger.info "Detected wrangler.json configuration";; ret wranglerJsonPath
          else
            let! isToml := pathExists wranglerTomlPath in
            if isToml then
              logger.info "Detected wrangler.toml configuration";; ret wranglerTomlPath
            else
              logger.error "Could not find wrangler config in the generated project";;
              process_exit 1 in
      logger.step "Adding queue configuration...";;
      let! configPatched :=
        patchWranglerConfigForQueues configPath
          {| queueName := queue; bindingName := binding;
             maxBatchSize := Some 4; maxBatchTimeout := Some 3;
             maxRetries := Some 3 |} in
      if negb configPatched then
        logger.error "Failed to patch wrangler config";;
        process_exit 1
      else
        (* Step 3: Create the full queue demo files *)
        logger.step "Generating queue demo files...";;
        let srcDir := path_join projectDir "src" in
        writeFile (path_join srcDir "index.ts") (generateQueueWorkerCode t queue binding);;
        writeFile (path_join srcDir "event-store.ts") (generateEventStoreCode t);;
        writeFile (path_join srcDir "dashboard.html") (generateDashboardHTML t);;
        logger.success "Created queue demo files (index.ts, event-store.ts, dashboard.html)";;
        (* Success message *)
        logger.success ("Created project: " +:+ projectName);;
        (* Ask about deployment *)
        console_log "";;
        let! shouldDeploy := promptDeploy in
        if shouldDeploy then
          console_log "";;
          deployProject projectDir queue projectName
        else
          (* Show local dev instructions *)
          logAll
            [nl +:+ "For local development:";
             "  cd " +:+ projectName;
             "  npm run dev";
             nl +:+ "Try the demo:";
             "  1. Open http://localhost:8787 in your browser to view the live dashboard";
             "  2. Click " +:+ quoted "Enqueue Message" +:+ " to send messages to the queue";
             "  3. Watch the real-time visualization of queue → consumer → events";
             nl +:+ "Or use curl:";
             "  curl -X POST http://localhost:8787 -d " +:+ quoted "Hello queue!";
             nl +:+ "To deploy later:";
             "  cd " +:+ projectName;
             "  npx wrangler queues create " +:+ str queue;
             "  npx wrangler deploy"]
  end.

(** lib/flows/worker-only.ts *)
Definition runWorkerOnlyFlow (context : ProjectContext) : M unit :=
  let! choices := promptWorkerOnlyProject in
  match choices with
  | None =>
      logger.info "Setup cancelled";;
      process_exit 0
  | Some choices =>
      let projectName := str (choices !! "projectName") in
      let! dir := process_cwd in
      let projectDir := path_join dir projectName in
      (* Scaffold the Worker project using create-cloudflare *)
      scaffoldWith "Creating Worker project with create-cloudflare..."
        "Worker project created" projectName projectDir;;
      (* Success message *)
      logger.success ("Created project: " +:+ projectName);;
      (* Ask about deployment *)
      console_log "";;
      let! shouldDeploy := promptDeploy in
      (if shouldDeploy then
         console_log "";;
         deployProject projectDir None projectName
       else
         (* Show local dev instructions *)
         logAll
           [nl +:+ "For local development:";
            "  cd " +:+ projectName;
            "  npm run dev";
            nl +:+ "Your Worker will be available at http://localhost:8787";
            nl +:+ "To deploy later:";
            "  cd " +:+ projectName;
            "  npx wrangler deploy"]);;
      console_log (nl +:+ "To add primitives later, run:");;
      console_log "  clementine"
  end.

(* ===================================================================== *)
(** * commands/queues.ts, the older commands/init.ts, and index.ts *)
(* ===================================================================== *)

Definition initQueues (t : Templates) (options : InitOptions) : M unit :=
  (* Validate options *)
  if add options && new options then
    logger.error "Cannot use both --add and --new flags";;
    process_exit 1
  else
    let! context := detectProjectContext in
    if new options then runNewProjectFlow t context
    else if add options then
      if negb (isWorkerProject context) then
        logger.error "Not a Worker project. Use --new to create a new project.";;
        process_exit 1
      else runExistingProjectFlow t context
    else if isWorkerProject context then
      logger.info "Detected existing Worker project";;
      runExistingProjectFlow t context
    else
      logger.info "No Worker project detected. Creating new project...";;
      runNewProjectFlow t context.

Module Legacy.

(** The earlier [init], which chooses between the fixed flows. *)
Definition init (t : Templates) (options : InitOptions) : M unit :=
  if add options && new options then
    logger.error "Cannot use both --add and --new flags";;
    process_exit 1
  else
    let! context := detectProjectContext in
    let showFeatureSelection := negb (add options) && negb (new options) in
    if showFeatureSelection then
      let! feature := promptFeatureSelection (isWorkerProject context) in
      match feature with
      | None =>
          logger.info "Setup cancelled";;
          process_exit 0
      | Some feature =>
          if String.eqb feature "queues" then
            if isWorkerProject context then runExistingProjectFlow t context
            else runNewProjectFlow t context
          else if String.eqb feature "worker-only" then
            if isWorkerProject context then
              logger.warn "Already in a Worker project. Nothing to do!";;
              process_exit 0
            else runWorkerOnlyFlow context
          else ret tt
      end
    else if new options then runNewProjectFlow t context
    else if add options then
      (* Force add to existing *)
      if negb (isWorkerProject context) then
        logger.error "Not a Worker project. Use --new to create a new project.";;
        process_exit 1
      else runExistingProjectFlow t context
    else ret tt.

End Legacy.

(** What [parseArgs] hands to [main]. *)
Record ParsedArgs := {
  values_add : bool;
  values_new : bool;
  values_help : bool;
  values_version : bool;
  positionals : list string;
}.

Definition helpText : string :=
  nl +:+ "🍊 Clementine - Instant Cloudflare Workers primitives" +:+ nl +:+
  nl +:+ "Usage:" +:+ nl +:+
  "  clementine [command] [options]" +:+ nl +:+
  "  clem [command] [options]" +:+ nl +:+
  nl +:+ "Commands:" +:+ nl +:+
  "  (none)          Interactive mode - choose what to create/add" +:+ nl +:+
  "  queues          Add Workers Queues to your project" +:+ nl +:+
  nl +:+ "Options:" +:+ nl +:+
  "  -a, --add       Force add to existing project" +:+ nl +:+
  "  -n, --new       Force create new project" +:+ nl +:+
  "  -h, --help      Show this help message" +:+ nl +:+
  "  -v, --version   Show version" +:+ nl +:+
  nl +:+ "Examples:" +:+ nl +:+
  "  clementine              # Interactive mode - choose Worker or Queues" +:+ nl +:+
  "  clementine queues       # Add Queues directly" +:+ nl +:+
  "  clementine --new        # Force create new project (shows options)" +:+ nl +:+
  "  clementine --add        # Force add to existing project (shows options)" +:+ nl +:+
  nl +:+ "  clem                    # Short alias works too!" +:+ nl +:+ "  ".

(** [printHelp]: [process.stdout.write(help)]. *)
Definition printHelp : M unit := console_log helpText.

(** index.ts: [main], for arguments [parseArgs] accepted. *)
Definition main (t : Templates) (parsed : ParsedArgs) : M unit :=
  tryCatch
    (if values_help parsed then printHelp;; process_exit 0
     else if values_version parsed then
       console_log "clementine-cli v0.1.0";; process_exit 0
     else
       let options := {| add := values_add parsed; new := values_new parsed |} in
       logger.intro "🍊 Clementine";;
       (* Route based on command *)
       let command := head (positionals parsed) in
       if falsy command then
         (* Default: interactive mode with feature selection *)
         init (registry t) options
       else if String.eqb (str command) "queues" then
         (* Legacy: direct queues command for backwards compatibility *)
         initQueues t options
       else
         logger.error ("Unknown command: " +:+ str command);;
         logger.info ("Run " +:+ quoted "clementine --help" +:+ " for usage");;
         process_exit 1)
    (fun message =>
       logger.error message;;
       process_exit 1).

(* ===================================================================== *)
(** * Reading a configuration document *)
(* ===================================================================== *)

(** The sequences of the configuration document, as they stand in a JSON
    value: a sequence that is absent, or is no array, has no entries. *)
Definition arrayItems (v : option json) : list json :=
  match v with
  | Some (JArray items) => items
  | _ => []
  end.

Definition field (root : json) (k : string) : option json :=
  match root with
  | JObject fields => fields !! k
  | _ => None
  end.

Definition field2 (root : json) (k1 k2 : string) : option json :=
  field root k1 ≫= (fun child => field child k2).

Definition rulesOf (root : json) : list json := arrayItems (field root "rules").
Definition producersOf (root : json) : list json :=
  arrayItems (field2 root "queues" "producers").
Definition consumersOf (root : json) : list json :=
  arrayItems (field2 root "queues" "consumers").
Definition bindingsOf (root : json) : list json :=
  arrayItems (field2 root "durable_objects" "bindings").
Definition migrationsOf (root : json) : list json :=
  arrayItems (field root "migrations").
Definition kvNamespacesOf (root : json) : list json :=
  arrayItems (field root "kv_namespaces").

(** The [queue] values the producers name. *)
Definition queueValues (root : json) : list json :=
  omap (fun p => field p "queue") (producersOf root).

Definition hasString (s : string) (v : option json) : bool :=
  match v with
  | Some (JArray items) => existsb (fun e => strictEq (Some e) (Some s)) items
  | _ => false
  end.

(** The text rule for [**/*.html]. *)
Definition isHtmlTextRule (r : json) : bool :=
  strictEq (field r "type") (Some "Text") && hasString "**/*.html" (field r "globs").

(** A binding named [EVENT_STORE]. *)
Definition isEventStoreBinding (b : json) : bool :=
  strictEq (field b "name") (Some "EVENT_STORE").

(** A migration whose [new_classes] contains ["EventStore"]. *)
Definition namesEventStore (m : json) : bool :=
  hasString "EventStore" (field m "new_classes").

Definition count (f : json -> bool) (items : list json) : nat :=
  length (List.filter f items).

(** The uniqueness bounds of a JSON configuration document. *)
Definition jsonBounds (root : json) : Prop :=
  NoDup (queueValues root)
  /\ (count isEventStoreBinding (bindingsOf root) <= 1)%nat
  /\ (count namesEventStore (migrationsOf root) <= 1)%nat
  /\ (count isHtmlTextRule (rulesOf root) <= 1)%nat.

(** ** The entries of a structured-text document

    The arrays of tables of a TOML text, read line by line: [[[name]]] opens
    an entry of the array [name]; [key = value] gives the open entry a
    property, blank space around the key and the value being of no account;
    a line that starts with [#] is a comment. *)
Module TomlReader.

Definition isSpace (c : ascii) : bool := Ascii.eqb c " "%char.

Fixpoint splitLines (s : string) : list string :=
  match s with
  | EmptyString => [EmptyString]
  | String c rest =>
      if Ascii.eqb c (ascii_of_nat 10) then EmptyString :: splitLines rest
      else
        match splitLines rest with
        | line :: more => String c line :: more
        | [] => [String c EmptyString]
        end
  end.

Fixpoint trimLeft (s : string) : string :=
  match s with
  | EmptyString => EmptyString
  | String c rest => if isSpace c then trimLeft rest else s
  end.

Fixpoint trimRight (s : string) : string :=
  match s with
  | EmptyString => EmptyString
  | String c rest =>
      match trimRight rest with
      | EmptyString => if isSpace c then EmptyString else String c EmptyString
      | rest' => String c rest'
      end
  end.

Definition trim (s : string) : string := trimRight (trimLeft s).

Fixpoint splitAtEquals (s : string) : option (string * string) :=
  match s with
  | EmptyString => None
  | String c rest =>
      if Ascii.eqb c "="%char then Some (EmptyString, rest)
      else
        match splitAtEquals rest with
        | Some (k, v) => Some (String c k, v)
        | None => None
        end
  end.

(** [[[name]]] *)
Definition header (line : string) : option string :=
  if String.prefix "[[" line && endsWith line "]]" then
    Some (substring 2 (String.length line - 4) line)
  else None.

Definition Entry : Type := string * list (string * string).

Fixpoint entries (lines : list string) (open : option Entry) : list Entry :=
  match lines with
  | [] => match open with Some e => [e] | None => [] end
  | line :: rest =>
      let line := trim line in
      match header line with
      | Some table =>
          match open with
          | Some e => e :: entries rest (Some (table, []))
          | None => entries rest (Some (table, []))
          end
      | None =>
          if String.prefix "#" line then entries rest open
          else
            match splitAtEquals line, open with
            | Some (k, v), Some (table, props) =>
                entries rest (Some (table, props ++ [(trim k, trim v)]))
            | _, _ => entries rest open
            end
      end
  end.

(** The entries of the array of tables [table]. *)
Definition array (text table : string) : list (list (string * string)) :=
  map snd
    (List.filter (fun e => String.eqb (fst e) table) (entries (splitLines text) None)).

Definition hasProperty (k v : string) (props : list (string * string)) : bool :=
  existsb (fun kv => String.eqb (fst kv) k && String.eqb (snd kv) v) props.

(** How many [durable_objects.bindings] entries are named [EVENT_STORE]. *)
Definition eventStoreBindings (text : string) : nat :=
  length (List.filter (hasProperty "name" (quoted "EVENT_STORE"))
            (array text "durable_objects.bindings")).

End TomlReader.

(** The file system with one text file, or one JSON document, written. *)
Definition withText (f : FileSystem) (path content : string) : FileSystem :=
  {| textFiles := <[path := content]> (textFiles f); jsoncFiles := jsoncFiles f;
     dirs := dirs f; readOnly := readOnly f |}.

Definition withJsonc (f : FileSystem) (path : string) (content : jsonc.Text)
  : FileSystem :=
  {| textFiles := textFiles f; jsoncFiles := <[path := content]> (jsoncFiles f);
     dirs := dirs f; readOnly := readOnly f |}.

(** [items], with [x] appended unless it is [present]. *)
Definition appendUnless (present : bool) (items : list json) (x : json)
  : list json :=
  if present then items else items ++ [x].

(** The bounds, as the entries of a structured-text document show them:
    how many rules, bindings, migrations and producers of each kind. *)
Module TomlBounds.

Definition htmlRules (text : string) : nat :=
  length (List.filter
            (fun props =>
               TomlReader.hasProperty "type" (quoted "Text") props
               && TomlReader.hasProperty "globs" ("[" +:+ quoted "**/*.html" +:+ "]") props)
            (TomlReader.array text "rules")).

Definition eventStoreMigrations (text : string) : nat :=
  length (List.filter
            (TomlReader.hasProperty "new_classes" ("[" +:+ quoted "EventStore" +:+ "]"))
            (TomlReader.array text "migrations")).

(** The [queue] values of the producers. *)
Definition producerQueues (text : string) : list string :=
  omap (fun props => snd <$> List.find (fun kv => String.eqb (fst kv) "queue") props)
    (TomlReader.array text "queues.producers").

Fixpoint distinct (names : list string) : bool :=
  match names with
  | [] => true
  | x :: rest => negb (existsb (String.eqb x) rest) && distinct rest
  end.

Definition holds (text : string) : bool :=
  distinct (producerQueues text)
  && (TomlReader.eventStoreBindings text <=? 1)%nat
  && (eventStoreMigrations text <=? 1)%nat
  && (htmlRules text <=? 1)%nat.

End TomlBounds.

(** [block], unless its marker is [present] in the text already. *)
Definition unlessPresent (present : bool) (block : string) : string :=
  if present then EmptyString else block.

(** Scenario C: the minimal document, the configuration, and the document
    the patch leaves. *)
Module ScenarioC.

Definition minimal : json := JObject {[ "name" := JString "x" ]}.

Definition config : QueueConfig :=
  {| queueName := Some "demo-queue"; bindingName := Some "DEMO_QUEUE";
     maxBatchSize := None; maxBatchTimeout := None; maxRetries := None |}.

Definition producer : json :=
  JObject (<["queue" := JString "demo-queue"]> {[ "binding" := JString "DEMO_QUEUE" ]}).

Definition consumer : json :=
  JObject (<["queue" := JString "demo-queue"]>
          (<["max_batch_size" := JNumber 4]>
          (<["max_batch_timeout" := JNumber 3]>
           {[ "max_retries" := JNumber 3 ]}))).

Definition patched : json :=
  JObject (<["name" := JString "x"]>
          (<["rules" := JArray [Json.htmlRule]]>
          (<["queues" := JObject (<["producers" := JArray [producer]]>
                                  {[ "consumers" := JArray [consumer] ]})]>
          (<["durable_objects" := JObject {[ "bindings" := JArray [Json.newBinding] ]}]>
           {[ "migrations" := JArray [Json.newMigration] ]})))).

End ScenarioC.

(** A world with nothing in it but the given files, in the directory
    [/work]. *)
Definition worldWith (texts : gmap string string) (docs : gmap string jsonc.Text)
  (folders : gset string) : World :=
  {| fs := {| textFiles := texts; jsoncFiles := docs; dirs := folders;
              readOnly := ∅ |};
     console := []; cwd := "/work"; answers := []; processes := [];
     written := [] |}.

(** The world of scenario C: [wrangler.jsonc] holds the minimal document. *)
Definition scenarioC_world : World :=
  worldWith ∅ {[ "/work/wrangler.jsonc" := jsonc.mkText (Some ScenarioC.minimal) ]} ∅.

(** A structured-text document that spells its EVENT_STORE binding without
    blank space around the equals signs. *)
Module TomlDuplicate.

Definition document : string :=
  "[[durable_objects.bindings]]" +:+ nl +:+
  "name=" +:+ quoted "EVENT_STORE" +:+ nl +:+
  "class_name=" +:+ quoted "EventStore" +:+ nl.

Definition world : World := worldWith {[ "/work/wrangler.toml" := document ]} ∅ ∅.

End TomlDuplicate.

(** The three ways [patchWranglerConfigForQueues] meets an error: reading
    the file raises; looking into the parsed document or computing an edit
    raises; writing the file raises. *)
Definition readRaises (configPath : string) (w : World) : Prop :=
  if endsWith configPath ".toml" then raises (readFile configPath) w
  else raises (readJsonc configPath) w.

Definition parseRaises (configPath : string) (config : QueueConfig) (w : World)
  : Prop :=
  endsWith configPath ".toml" = false
  /\ exists content,
       jsoncFiles (fs w) !! configPath = Some content
       /\ ((exists message,
              Json.queueExists (jsonc.parse content) config = Raise message)
           \/ (Json.queueExists (jsonc.parse content) config = Val false
               /\ exists message, Json.updatedContent content config = Raise message)).

Definition writeRaises (configPath : string) (config : QueueConfig) (w : World)
  : Prop :=
  if endsWith configPath ".toml" then
    exists content,
      textFiles (fs w) !! configPath = Some content
      /\ includes content (Toml.queueMarker config) = false
      /\ raises (writeFile configPath (Toml.updatedContent content config)) w
  else
    exists content updated,
      jsoncFiles (fs w) !! configPath = Some content
      /\ Json.queueExists (jsonc.parse content) config = Val false
      /\ Json.updatedContent content config = Val updated
      /\ raises (writeJsonc configPath updated) w.

Definition patchRaises (configPath : string) (config : QueueConfig) (w : World)
  : Prop :=
  readRaises configPath w \/ parseRaises configPath config w
  \/ writeRaises configPath config w.

(** Sample data for the runs below: short stand-ins for the template texts,
    the answers of a user who names the project [my-app], the context of an
    existing project, and a create-cloudflare run that leaves the project
    directory with the given configuration document. *)
Module Sample.

Definition templates : Templates :=
  {| workerCodeHead := "interface Env { ";
     workerCodeMiddle := ": Queue } ... env.";
     workerCodeTail := ".send(message)";
     eventStoreCode := "export class EventStore {}";
     dashboardHTML := "<html></html>" |}.

Definition config : PrimitiveConfig :=
  <["projectName" := "my-app"]>
    (<["queueName" := "demo-queue"]> {[ "bindingName" := "DEMO_QUEUE" ]}).

Definition existingContext : ProjectContext :=
  {| isWorkerProject := true;
     wranglerConfigPath := Some "/work/wrangler.jsonc";
     wranglerConfigType := Some jsonc_;
     entryFilePath := Some "/work/src/index.ts";
     srcDir := Some "/work/src";
     hasPackageJson := true |}.

Definition newContext : ProjectContext :=
  {| isWorkerProject := false;
     wranglerConfigPath := None;
     wranglerConfigType := None;
     entryFilePath := None;
     srcDir := None;
     hasPackageJson := false |}.

Definition createCloudflare (document : jsonc.Text) : Process :=
  {| effect := fun f =>
       {| textFiles := <["/work/my-app/src/index.ts" := "export default {}"]> (textFiles f);
          jsoncFiles := <["/work/my-app/wrangler.jsonc" := document]> (jsoncFiles f);
          dirs := {["/work/my-app"]} ∪ ({["/work/my-app/src"]} ∪ dirs f);
          readOnly := readOnly f |};
     failure := None |}.

Definition failingProcess : Process :=
  {| effect := fun f => f; failure := Some "Command failed with exit code 1" |}.


Definition noAnswer : Answers := {| texts := ∅; flags := ∅ |}.

(** An empty directory in which create-cloudflare will run as given, the
    user will answer as given and the later processes will go as given. *)
Definition newProjectWorld (document : jsonc.Text) (replies : list Answers)
  (later : list Process) : World :=
  {| fs := {| textFiles := ∅; jsoncFiles := ∅; dirs := {["/work"]}; readOnly := ∅ |};
     console := []; cwd := "/work"; answers := replies;
     processes := createCloudflare document :: later; written := [] |}.

(** An existing project whose [src/index.ts] holds the user's code. *)
Definition existingProjectWorld (replies : list Answers) : World :=
  {| fs := {| textFiles := {[ "/work/src/index.ts" := "export default { /* my code */ }" ]};
              jsoncFiles := {[ "/work/wrangler.jsonc" := jsonc.mkText (Some ScenarioC.minimal) ]};
              dirs := {["/work"]} ∪ {["/work/src"]}; readOnly := ∅ |};
     console := []; cwd := "/work"; answers := replies; processes := [];
     written := [] |}.

End Sample.

(** ** Registration order *)

(** The registry after a sequence of [register] calls, first call first. *)
Definition registerAll (calls : list Primitive) : PrimitiveRegistry.t :=
  fold_left (fun primitives p => PrimitiveRegistry.register p primitives) calls
    PrimitiveRegistry.empty.

(** The ids in the order in which they were first registered. *)
Fixpoint firstRegistered (ids : list string) : list string :=
  match ids with
  | [] => []
  | k :: rest => k :: List.filter (fun k' => negb (String.eqb k' k)) (firstRegistered rest)
  end.

(** The primitive registered last under an id. *)
Definition latest (key : string) (calls : list Primitive) : option Primitive :=
  List.find (fun p => String.eqb (id p) key) (rev calls).

(** The registered primitives in registration order: one per id, in the
    order of the first registration of the ids, each id with the primitive
    registered last under it. *)
Definition registrationOrder (calls : list Primitive) : list Primitive :=
  omap (fun key => latest key calls) (firstRegistered (map id calls)).

(** ** Looking at a run *)

Definition Level_eqb (a b : Level) : bool :=
  match a, b with
  | Intro, Intro | Success, Success | Error, Error | Info, Info
  | Warn, Warn | Step, Step | Plain, Plain => true
  | _, _ => false
  end.

(** The line is on the console. *)
Definition printed (level : Level) (message : string) (w : World) : bool :=
  existsb (fun line => Level_eqb (fst line) level && String.eqb (snd line) message)
    (console w).

(** The world with other answers to come. *)
Definition withAnswers (replies : list Answers) (w : World) : World :=
  {| fs := fs w; console := console w; cwd := cwd w;
     answers := replies; processes := processes w; written := written w |}.

(** The world with more lines on the console. *)
Definition withLines (lines : list (Level * string)) (w : World) : World :=
  {| fs := fs w; console := console w ++ lines; cwd := cwd w;
     answers := answers w; processes := processes w; written := written w |}.

(** No wrangler configuration file in the working directory. *)
Definition noProject (w : World) : Prop :=
  exists_in (fs w) (path_join (cwd w) "wrangler.jsonc") = false
  /\ exists_in (fs w) (path_join (cwd w) "wrangler.json") = false
  /\ exists_in (fs w) (path_join (cwd w) "wrangler.toml") = false.



(** The lines [logNumbered], [logIndented] and [logAll] write. *)
Fixpoint numberedLines (i : Z) (steps : list string) : list (Level * string) :=
  match steps with
  | [] => []
  | step :: rest =>
      (Plain, "  " +:+ pretty (i + 1) +:+ ". " +:+ step) :: numberedLines (i + 1) rest
  end.

Definition plainLines (lines : list string) : list (Level * string) :=
  map (pair Plain) lines.

(** What the new-project flow prints when the deployment is declined. *)
Definition localDevLines (primitive : Primitive) (config : PrimitiveConfig)
  (projectName : string) : list (Level * string) :=
  [(Plain, nl +:+ "For local development:");
   (Plain, "  cd " +:+ projectName);
   (Plain, "  npm run dev")]
  ++ match deploymentInfo primitive config ≫= nextSteps with
     | Some steps => (Plain, nl +:+ "Try the demo:") :: numberedLines 0 steps
     | None => []
     end
  ++ [(Plain, nl +:+ "Or use curl:");
      (Plain, "  curl -X POST http://localhost:8787 -d " +:+ quoted "Hello!");
      (Plain, nl +:+ "To deploy later:");
      (Plain, "  cd " +:+ projectName)]
  ++ (if String.eqb (id primitive) "queues"
      then [(Plain, "  npx wrangler queues create " +:+ str (config !! "queueName"))]
      else [])
  ++ [(Plain, "  npx wrangler deploy")].


(** The answers [a], with the deployment declined. *)
Definition declined (a : Answers) : Answers :=
  {| texts := texts a; flags := <["deploy" := false]> (flags a) |}.

(** The world after the process [p] has run. *)
Definition afterProcess (p : Process) (later : list Process) (w : World) : World :=
  {| fs := effect p (fs w); console := console w; cwd := cwd w;
     answers := answers w; processes := later; written := written w |}.

(** A computation that only writes to the console. *)
Definition onlyLogs {A} (m : M A) : Prop :=
  forall w, exists a lines, m w = (Ret a, withLines lines w).

(** ** The shape of a document *)

Definition isObject (v : json) : bool :=
  match v with JObject _ => true | _ => false end.

Definition objectOrAbsent (v : option json) : bool :=
  match v with Some x => isObject x | None => true end.

(** The root is an object, and so are [queues] and [durable_objects] where
    the root has them. *)
Definition wellShaped (content : jsonc.Text) : bool :=
  match jsonc.value content with
  | Some (JObject fields) =>
      objectOrAbsent (fields !! "queues")
      && objectOrAbsent (fields !! "durable_objects")
  | _ => false
  end.

(** ** What a computation keeps *)

(** A process respects a property of the files when running it keeps the
    property. *)
Definition respects (Q : FileSystem -> Prop) (p : Process) : Prop :=
  forall f, Q f -> Q (effect p f).

(** The files have the property, the working directory is [dir], and the
    processes to come respect the property. *)
Definition stable (Q : FileSystem -> Prop) (dir : string) (w : World) : Prop :=
  Q (fs w) /\ cwd w = dir /\ Forall (respects Q) (processes w).

(** A computation keeps a property of the files: however it ends, the world
    it leaves is stable if the world it started in was. *)
Definition keeps (Q : FileSystem -> Prop) (dir : string) {A} (m : M A) : Prop :=
  forall w, stable Q dir w -> stable Q dir (snd (m w)).

(** The file at [path] is there, with the content it has in [f0]. *)
Definition sameFile (f0 : FileSystem) (path : string) (f : FileSystem) : Prop :=
  textFiles f !! path = textFiles f0 !! path
  /\ jsoncFiles f !! path = jsoncFiles f0 !! path
  /\ exists_in f path = true.

(** The file at [path] is as it is in [f0] (there with the same content, or
    not there). *)
Definition untouched (f0 : FileSystem) (path : string) (f : FileSystem) : Prop :=
  textFiles f !! path = textFiles f0 !! path
  /\ jsoncFiles f !! path = jsoncFiles f0 !! path.

(** The files [QueuesPrimitive.generateFiles] writes in a project. *)
Definition generatedFiles (projectDir : string) : list string :=
  let srcDir := path_join projectDir "src" in
  [path_join srcDir "index.ts"; path_join srcDir "event-store.ts";
   path_join srcDir "dashboard.html"].

(** ** How a computation ends *)

(** The computation returns, in every world. *)
Definition returns {A} (m : M A) : Prop :=
  forall w, exists a w', m w = (Ret a, w').

(** The computation never ends the process. *)
Definition neverExits {A} (m : M A) : Prop :=
  forall w code w', m w <> (Exit code, w').

(** ** The answers to come *)

(** What the next prompt will return: the answers of the user, or no answer
    to any question when the user is no longer there. *)
Definition nextAnswers (w : World) : Answers :=
  hd {| texts := ∅; flags := ∅ |} (answers w).

(** The world after a prompt. *)
Definition afterPrompt (w : World) : World := withAnswers (tl (answers w)) w.

(** The answers [a], with [action] chosen at the first question of
    [promptExistingQueueProject]. *)
Definition withAction (action : string) (a : Answers) : Answers :=
  {| texts := <["action" := action]> (texts a); flags := flags a |}.

(** When the computation ends the process, the exit code is 0 or 1. *)
Definition exitsCleanly {A} (m : M A) : Prop :=
  forall w code w', m w = (Exit code, w') -> code = 0 \/ code = 1.

(** The functions of a primitive end the process, if at all, with exit code 0
    or 1. *)
Definition wellBehaved (p : Primitive) : Prop :=
  exitsCleanly (promptNew p)
  /\ (forall prompt, promptExisting p = Some prompt -> exitsCleanly prompt)
  /\ (forall patch, patchConfig p = Some patch ->
        forall configPath config, exitsCleanly (patch configPath config))
  /\ (forall projectDir config, exitsCleanly (generateFiles p projectDir config))
  /\ (forall steps, preDeploySteps p = Some steps ->
        forall projectDir config, exitsCleanly (steps projectDir config)).



(** The banner [main] prints before it looks at the command. *)
Definition banner : Level * string := (Intro, "🍊 Clementine").

(** The command line names a command that [main] runs: none (which is
    [init]), or [queues]. *)
Definition runsCommand (parsed : ParsedArgs) : Prop :=
  falsy (head (positionals parsed)) = true
  \/ head (positionals parsed) = Some "queues".

(** The outcome of [patchWranglerConfigForQueues], by what it finds. *)
Definition patchResult (configPath : string) (config : QueueConfig)
  (f : FileSystem) (b : bool) (f' : FileSystem) : Prop :=
  if endsWith configPath ".toml" then
    match textFiles f !! configPath with
    | None => b = false /\ f' = f
    | Some content =>
        if includes content (Toml.queueMarker config) then b = true /\ f' = f
        else if bool_decide (configPath ∈ readOnly f) then b = false /\ f' = f
        else b = true /\ f' = withText f configPath (Toml.updatedContent content config)
    end
  else
    match jsoncFiles f !! configPath with
    | None => b = false /\ f' = f
    | Some content =>
        match Json.queueExists (jsonc.parse content) config with
        | Raise _ => b = false /\ f' = f
        | Val true => b = true /\ f' = f
        | Val false =>
            match Json.updatedContent content config with
            | Raise _ => b = false /\ f' = f
            | Val updated =>
                if bool_decide (configPath ∈ readOnly f) then b = false /\ f' = f
                else b = true /\ f' = withJsonc f configPath updated
            end
        end
    end.

(** Unfolding the operations of a computation. *)
Ltac run :=
  unfold tryCatch, bind, ret, throw, lift, process_exit, process_cwd,
    logger.warn, logger.error, logger.success, logger.info, logger.step,
    logger.intro, console_log, log, readFile, readJsonc, writeFile, writeJsonc,
    pathExists, ensureDir, set_fs; simpl.


(* ===================================================================== *)
(** * Properties: strings *)
(* ===================================================================== *)

Lemma prefix_app (t b : string) : String.prefix t (t +:+ b) = true.
Proof.
  induction t as [|c t IH]; simpl.
  - by destruct b.
  - destruct (ascii_dec c c); [done | congruence].
Qed.

Lemma prefix_app_r (x s t : string) :
  String.prefix x s = true -> String.prefix x (s +:+ t) = true.
Proof.
  revert s; induction x as [|c x IH]; intros s H; simpl in *.
  - by destruct (s +:+ t).
  - destruct s as [|d s]; simpl in *; [done|].
    destruct (ascii_dec c d); [by apply IH | done].
Qed.

Lemma includes_app_r (s t x : string) :
  includes s x = true -> includes (s +:+ t) x = true.
Proof.
  induction s as [|c s IH]; intros H.
  - simpl in H. rewrite orb_false_r in H.
    destruct x; [by destruct t | done].
  - change (includes (String c s +:+ t) x)
      with (String.prefix x (String c s +:+ t) || includes (s +:+ t) x).
    simpl in H. apply orb_true_iff in H as [H | H].
    + by rewrite (prefix_app_r x (String c s) t H).
    + rewrite (IH H). apply orb_true_r.
Qed.

Lemma includes_app_l (s t x : string) :
  includes t x = true -> includes (s +:+ t) x = true.
Proof.
  induction s as [|c s IH]; simpl; intros H; [done|].
  rewrite (IH H). apply orb_true_r.
Qed.

Lemma includes_prefix (x t : string) : includes (x +:+ t) x = true.
Proof.
  destruct x; simpl.
  - destruct t; done.
  - destruct (ascii_dec a a); [|congruence]. by rewrite prefix_app.
Qed.

Lemma queueConfig_includes config :
  includes (Toml.queueConfig config) (Toml.queueMarker config) = true.
Proof.
  unfold Toml.queueConfig.
  do 5 apply includes_app_l. apply includes_prefix.
Qed.

(** The text the structured-text patcher writes names the queue. *)
Lemma updatedContent_includes content config :
  includes (Toml.updatedContent content config) (Toml.queueMarker config) = true.
Proof.
  unfold Toml.updatedContent.
  assert (H : forall s, includes (s +:+ Toml.queueConfig config)
                          (Toml.queueMarker config) = true)
    by (intros s; apply includes_app_l, queueConfig_includes).
  destruct (negb (includes content Toml.htmlRuleMarker));
    destruct (negb (includes content Toml.eventStoreMarker));
    destruct (negb (includes content Toml.migrationMarker));
    repeat (apply H || apply includes_app_r).
Qed.

(* ===================================================================== *)
(** * Properties: the edits of the JSON patcher *)
(* ===================================================================== *)

Lemma ebind_Val {A B} (m : Except A) (k : A -> Except B) b :
  ebind m k = Val b -> exists a, m = Val a /\ k a = Val b.
Proof. destruct m; simpl; [eauto | discriminate]. Qed.

Lemma edit_object1 m k v :
  Json.edit (jsonc.mkText (Some (JObject m))) [k] v
  = Val (jsonc.mkText (Some (JObject (<[k := v]> m)))).
Proof. reflexivity. Qed.

Lemma edit_object2 m k1 k2 v :
  Json.edit (jsonc.mkText (Some (JObject m))) [k1; k2] v
  = match m !! k1 with
    | None => Val (jsonc.mkText (Some (JObject (<[k1 := JObject {[ k2 := v ]}]> m))))
    | Some (JObject q) =>
        Val (jsonc.mkText (Some (JObject (<[k1 := JObject (<[k2 := v]> q)]> m))))
    | Some _ => Raise "Can not add index to parent of type"
    end.
Proof.
  unfold Json.edit, jsonc.modify. simpl.
  destruct (m !! k1) as [[]|] eqn:E; simpl; try reflexivity.
  unfold jsonc.applyEdits; simpl. by rewrite E.
Qed.

Lemma prop_object m k : prop (Some (JObject m)) k = Val (m !! k).
Proof. reflexivity. Qed.

Lemma optProp_field2 m k1 k2 :
  optProp (m !! k1) k2 = Val (field2 (JObject m) k1 k2).
Proof. unfold field2; simpl. by destruct (m !! k1) as [[]|]. Qed.

Lemma spread_array l : spread (JArray l) = Val l.
Proof. reflexivity. Qed.

Lemma callSome_orElse v f b :
  callSome (orElse v (JArray [])) f = Val b ->
  orElse v (JArray []) = JArray (arrayItems v) /\ js_some f (arrayItems v) = Val b.
Proof.
  destruct v as [[| [] | n | s | l | m]|]; simpl; try discriminate; auto.
  - destruct n; simpl; try discriminate; auto.
  - destruct (String.eqb s EmptyString); simpl; try discriminate; auto.
Qed.

Lemma optSome_false v f :
  optSome v f = Val false ->
  orElse v (JArray []) = JArray (arrayItems v) /\ js_some f (arrayItems v) = Val false.
Proof.
  destruct v as [[| [] | n | s | l | m]|]; simpl; try discriminate; auto.
Qed.

Lemma js_some_false f items :
  js_some f items = Val false -> forall x, In x items -> f x = Val false.
Proof.
  induction items as [|y items IH]; simpl; intros H x Hx; [done|].
  destruct (f y) as [[]|] eqn:E; simpl in H; try discriminate.
  destruct Hx as [<- | Hx]; auto.
Qed.

Lemma js_some_snoc f items x :
  js_some f items = Val false -> js_some f (items ++ [x]) = js_some f [x].
Proof.
  induction items as [|y items IH]; simpl; intros H; [done|].
  destruct (f y) as [[]|]; simpl in *; try discriminate. auto.
Qed.

Lemma js_some_snoc_true f items x :
  js_some f items = Val true -> js_some f (items ++ [x]) = Val true.
Proof.
  induction items as [|y items IH]; simpl; intros H; [done|].
  destruct (f y) as [[]|]; simpl in *; try discriminate; auto.
Qed.

(** A patch that goes through starts from a document whose root is an
    object. *)
Lemma updatedContent_object content config t' :
  Json.updatedContent content config = Val t' ->
  exists m, jsonc.value content = Some (JObject m).
Proof.
  intros H. destruct content as [[root|]]; [|discriminate H].
  destruct root as [| b | n | s | l | m]; [exfalso.. | by exists m].
  all: unfold Json.updatedContent in H; simpl in H; discriminate H.
Qed.

(** What a patch that goes through does to the five sequences. *)
Lemma updatedContent_inv content config t' :
  Json.queueExists (jsonc.parse content) config = Val false ->
  Json.updatedContent content config = Val t' ->
  exists root root' hr hb hm,
    jsonc.value content = Some root /\ jsonc.value t' = Some root' /\
    js_some (Json.isQueue config) (producersOf root) = Val false /\
    producersOf root' = producersOf root ++ [Json.newProducer config] /\
    js_some Json.isHtmlRule (rulesOf root) = Val hr /\
    rulesOf root' = appendUnless hr (rulesOf root) Json.htmlRule /\
    js_some Json.isEventStore (bindingsOf root) = Val hb /\
    bindingsOf root' = appendUnless hb (bindingsOf root) Json.newBinding /\
    js_some Json.isEventStoreMigration (migrationsOf root) = Val hm /\
    migrationsOf root' = appendUnless hm (migrationsOf root) Json.newMigration.
Proof.
  intros Hq H.
  destruct (updatedContent_object _ _ _ H) as [m Hm].
  destruct content as [c]; simpl in Hm; subst c.
  unfold Json.queueExists, jsonc.parse in Hq; simpl jsonc.value in Hq.
  rewrite prop_object in Hq; simpl ebind in Hq.
  rewrite optProp_field2 in Hq; simpl ebind in Hq.
  apply optSome_false in Hq as [Hp1 Hp2].
  unfold Json.updatedContent, jsonc.parse in H; simpl jsonc.value in H.
  rewrite !prop_object in H; simpl ebind in H.
  rewrite !optProp_field2 in H.
  apply ebind_Val in H as (hr & Hr & H).
  apply callSome_orElse in Hr as [Hr1 Hr2]. rewrite Hr1 in H.
  apply ebind_Val in H as (t1 & Ht1 & H).
  simpl ebind in H. rewrite Hp1 in H. rewrite spread_array in H. simpl ebind in H.
  apply ebind_Val in H as (t2 & Ht2 & H).
  simpl ebind in H.
  apply ebind_Val in H as (citems & Hc & H).
  apply ebind_Val in H as (t3 & Ht3 & H).
  simpl ebind in H.
  apply ebind_Val in H as (hb & Hb & H).
  apply callSome_orElse in Hb as [Hb1 Hb2]. rewrite Hb1 in H.
  apply ebind_Val in H as (t4 & Ht4 & H).
  apply ebind_Val in H as (hm & Hmg & H).
  apply callSome_orElse in Hmg as [Hg1 Hg2]. rewrite Hg1 in H.
  apply ebind_Val in H as (t5 & Ht5 & H).
  injection H as <-.
  unfold rulesOf, producersOf, bindingsOf, migrationsOf, field.
  set (P := JArray (arrayItems (field2 (JObject m) "queues" "producers")
                      ++ [Json.newProducer config])) in *.
  set (C := JArray (citems ++ [Json.newConsumer config])) in *.
  exists (JObject m).
  (* 1. the rule *)
  assert (exists m1, t1 = jsonc.mkText (Some (JObject m1))
            /\ arrayItems (m1 !! "rules")
               = appendUnless hr (arrayItems (m !! "rules")) Json.htmlRule
            /\ (forall k, k <> "rules" -> m1 !! k = m !! k)) as (m1 & -> & Hrules & Hf1).
  { destruct hr; simpl in Ht1.
    - injection Ht1 as <-. by exists m.
    - rewrite edit_object1 in Ht1. injection Ht1 as <-.
      eexists; split; [done|]. split; [by rewrite lookup_insert_eq|].
      intros k Hk. by rewrite lookup_insert_ne. }
  (* 2 and 3. the producer and the consumer *)
  rewrite edit_object2, Hf1 in Ht2 by done.
  assert (exists q3, t3 = jsonc.mkText (Some (JObject (<["queues" := JObject q3]> m1)))
            /\ q3 !! "producers" = Some P) as (q3 & -> & Hq3).
  { destruct (m !! "queues") as [[| | | | |q]|] eqn:Eq; try discriminate Ht2;
      injection Ht2 as <-;
      rewrite edit_object2, lookup_insert_eq in Ht3; injection Ht3 as <-;
      rewrite insert_insert_eq; eexists; (split; [done|]);
      rewrite lookup_insert_ne by done.
    - by rewrite lookup_insert_eq.
    - by rewrite lookup_singleton_eq. }
  (* 4. the binding *)
  assert (exists m4, t4 = jsonc.mkText (Some (JObject m4))
            /\ arrayItems (field2 (JObject m4) "durable_objects" "bindings")
               = appendUnless hb
                   (arrayItems (field2 (JObject m) "durable_objects" "bindings"))
                   Json.newBinding
            /\ (forall k, k <> "durable_objects" ->
                   m4 !! k = (<["queues" := JObject q3]> m1) !! k))
    as (m4 & -> & Hbind & Hf4).
  { destruct hb; simpl in Ht4.
    - injection Ht4 as <-. eexists; split; [done|]. split; [|done].
      unfold field2; simpl. rewrite lookup_insert_ne, Hf1 by done. done.
    - rewrite edit_object2, lookup_insert_ne, Hf1 in Ht4 by done.
      unfold field2 in *; simpl in *.
      destruct (m !! "durable_objects") as [[| | | | |d]|] eqn:Ed;
        try discriminate Ht4; injection Ht4 as <-;
        (eexists; split; [done|]; split;
         [ rewrite lookup_insert_eq; simpl
         | by intros k Hk; rewrite lookup_insert_ne ]).
      + by rewrite lookup_insert_eq.
      + by rewrite lookup_singleton_eq. }
  (* 5. the migration *)
  assert (exists m5, t5 = jsonc.mkText (Some (JObject m5))
            /\ arrayItems (m5 !! "migrations")
               = appendUnless hm (arrayItems (m !! "migrations")) Json.newMigration
            /\ (forall k, k <> "migrations" -> m5 !! k = m4 !! k))
    as (m5 & -> & Hmig & Hf5).
  { destruct hm; simpl in Ht5.
    - injection Ht5 as <-. eexists; split; [done|]. split; [|done].
      rewrite Hf4, lookup_insert_ne, Hf1 by done. done.
    - rewrite edit_object1 in Ht5. injection Ht5 as <-.
      eexists; split; [done|]. split; [by rewrite lookup_insert_eq|].
      intros k Hk. by rewrite lookup_insert_ne. }
  exists (JObject m5), hr, hb, hm. simpl.
  repeat split; try done.
  - unfold field2; simpl. rewrite Hf5, Hf4, lookup_insert_eq by done. simpl.
    by rewrite Hq3.
  - rewrite Hf5, Hf4, lookup_insert_ne by done. done.
  - unfold field2 in *; simpl in *. rewrite Hf5 by done. done.
Qed.

Lemma isQueue_newProducer config :
  Json.isQueue config (Json.newProducer config) = Val true.
Proof.
  unfold Json.isQueue, Json.newProducer. rewrite prop_object. simpl ebind.
  destruct config as [[q|] [b|] ? ? ?]; simpl.
  - rewrite lookup_insert_eq. simpl. by rewrite String.eqb_refl.
  - rewrite lookup_insert_eq. simpl. by rewrite String.eqb_refl.
  - by rewrite lookup_insert_ne, lookup_empty.
  - by rewrite lookup_empty.
Qed.

(** After a patch that goes through, the queue is among the producers. *)
Lemma updatedContent_queueExists content config t' :
  Json.queueExists (jsonc.parse content) config = Val false ->
  Json.updatedContent content config = Val t' ->
  Json.queueExists (jsonc.parse t') config = Val true.
Proof.
  intros Hq H.
  destruct (updatedContent_inv _ _ _ Hq H)
    as (root & root' & hr & hb & hm & _ & Hv & Hold & Hnew & _).
  destruct (updatedContent_object _ _ _ H) as [m _].
  destruct t' as [v]; simpl in Hv; subst v.
  unfold Json.queueExists, jsonc.parse; simpl jsonc.value.
  unfold producersOf in Hnew.
  assert (Hnil : forall l : list json, [] = l ++ [Json.newProducer config] -> False)
    by (intros l Hl; symmetry in Hl; by apply app_eq_nil in Hl as [_ ?]).
  destruct root' as [| | | | |m']; simpl in Hnew; try (by apply Hnil in Hnew).
  rewrite prop_object; simpl ebind. rewrite optProp_field2; simpl ebind.
  destruct (field2 (JObject m') "queues" "producers") as [[| | | | items |]|];
    simpl in Hnew; try (by apply Hnil in Hnew).
  subst items. unfold optSome, callSome.
  rewrite (js_some_snoc _ _ _ Hold). cbn [js_some].
  by rewrite isQueue_newProducer.
Qed.

(* ===================================================================== *)
(** * Properties: what one call of the patcher does *)
(* ===================================================================== *)

Lemma patchToml_run configPath content config w :
  exists b w',
    patchTomlConfigForQueues configPath content config w = (Ret b, w') /\
    cwd w' = cwd w /\ answers w' = answers w /\ processes w' = processes w /\
    if includes content (Toml.queueMarker config) then b = true /\ fs w' = fs w
    else if bool_decide (configPath ∈ readOnly (fs w)) then b = false /\ fs w' = fs w
    else b = true /\
         fs w' = withText (fs w) configPath (Toml.updatedContent content config).
Proof.
  unfold patchTomlConfigForQueues. run.
  destruct (includes content (Toml.queueMarker config)); simpl.
  - eauto 10.
  - destruct (bool_decide (configPath ∈ readOnly (fs w))); simpl; eauto 10.
Qed.

Lemma patchJson_run configPath content config w :
  exists b w',
    patchJsonConfigForQueues configPath content config w = (Ret b, w') /\
    cwd w' = cwd w /\ answers w' = answers w /\ processes w' = processes w /\
    match Json.queueExists (jsonc.parse content) config with
    | Raise _ => b = false /\ fs w' = fs w
    | Val true => b = true /\ fs w' = fs w
    | Val false =>
        match Json.updatedContent content config with
        | Raise _ => b = false /\ fs w' = fs w
        | Val updated =>
            if bool_decide (configPath ∈ readOnly (fs w)) then
              b = false /\ fs w' = fs w
            else b = true /\ fs w' = withJsonc (fs w) configPath updated
        end
    end.
Proof.
  unfold patchJsonConfigForQueues. run.
  destruct (Json.queueExists (jsonc.parse content) config) as [[]|]; simpl; eauto 10.
  destruct (Json.updatedContent content config); simpl; eauto 10.
  destruct (bool_decide (configPath ∈ readOnly (fs w))); simpl; eauto 10.
Qed.

Lemma patchWrangler_run configPath config w :
  exists b w',
    patchWranglerConfigForQueues configPath config w = (Ret b, w') /\
    cwd w' = cwd w /\ answers w' = answers w /\ processes w' = processes w /\
    patchResult configPath config (fs w) b (fs w').
Proof.
  unfold patchWranglerConfigForQueues, patchResult, tryCatch at 1.
  destruct (endsWith configPath ".toml"); unfold bind at 1.
  - unfold readFile. destruct (textFiles (fs w) !! configPath) as [content|].
    + destruct (patchToml_run configPath content config w)
        as (b & w' & -> & ? & ? & ? & ?). eauto 10.
    + run. eauto 10.
  - unfold readJsonc. destruct (jsoncFiles (fs w) !! configPath) as [content|].
    + destruct (patchJson_run configPath content config w)
        as (b & w' & -> & ? & ? & ? & ?). eauto 10.
    + run. eauto 10.
Qed.

(** A second call finds the document the first one left and changes
    nothing. *)
Lemma patchResult_again configPath config f b f' b2 f2 :
  patchResult configPath config f b f' ->
  patchResult configPath config f' b2 f2 ->
  f2 = f' /\ b2 = b.
Proof.
  unfold patchResult. destruct (endsWith configPath ".toml").
  - destruct (textFiles f !! configPath) as [content|] eqn:E.
    + destruct (includes content (Toml.queueMarker config)) eqn:Ei.
      * intros [-> ->]. rewrite E, Ei. by intros [-> ->].
      * destruct (bool_decide (configPath ∈ readOnly f)) eqn:Er.
        -- intros [-> ->]. rewrite E, Ei, Er. by intros [-> ->].
        -- intros [-> ->]. simpl. rewrite lookup_insert_eq.
           rewrite updatedContent_includes. by intros [-> ->].
    + intros [-> ->]. rewrite E. by intros [-> ->].
  - destruct (jsoncFiles f !! configPath) as [content|] eqn:E.
    + destruct (Json.queueExists (jsonc.parse content) config) as [[]|] eqn:Eq.
      * intros [-> ->]. rewrite E, Eq. by intros [-> ->].
      * destruct (Json.updatedContent content config) as [updated|] eqn:Eu.
        -- destruct (bool_decide (configPath ∈ readOnly f)) eqn:Er.
           ++ intros [-> ->]. rewrite E, Eq, Eu, Er. by intros [-> ->].
           ++ intros [-> ->]. simpl. rewrite lookup_insert_eq.
              rewrite (updatedContent_queueExists _ _ _ Eq Eu). by intros [-> ->].
        -- intros [-> ->]. rewrite E, Eq, Eu. by intros [-> ->].
      * intros [-> ->]. rewrite E, Eq. by intros [-> ->].
    + intros [-> ->]. rewrite E. by intros [-> ->].
Qed.

(* ===================================================================== *)
(** * The claims about the configuration patcher *)
(* ===================================================================== *)

(** A call that finds the queue in the document stops there. *)
Lemma patch_found_run configPath config w :
  (endsWith configPath ".toml" = true
   /\ exists content,
        textFiles (fs w) !! configPath = Some content
        /\ includes content (Toml.queueMarker config) = true)
  \/ (endsWith configPath ".toml" = false
      /\ exists content,
           jsoncFiles (fs w) !! configPath = Some content
           /\ Json.queueExists (jsonc.parse content) config = Val true) ->
  patchWranglerConfigForQueues configPath config w
  = (Ret true,
     withLines [(Warn, "Queue " +:+ quoted (str (queueName config))
                       +:+ " already exists in config")] w).
Proof.
  intros [(Ht & content & Hl & Hi) | (Ht & content & Hl & Hq)];
    unfold patchWranglerConfigForQueues, patchTomlConfigForQueues,
      patchJsonConfigForQueues; rewrite Ht; run; rewrite Hl; simpl.
  - by rewrite Hi.
  - by rewrite Hq.
Qed.

(** After a call that returned [true], the queue is in the document. *)
Lemma patchResult_true_found configPath config f f' :
  patchResult configPath config f true f' ->
  (endsWith configPath ".toml" = true
   /\ exists content,
        textFiles f' !! configPath = Some content
        /\ includes content (Toml.queueMarker config) = true)
  \/ (endsWith configPath ".toml" = false
      /\ exists content,
           jsoncFiles f' !! configPath = Some content
           /\ Json.queueExists (jsonc.parse content) config = Val true).
Proof.
  unfold patchResult. intros R.
  destruct (endsWith configPath ".toml"); [left | right]; (split; [done|]).
  - destruct (textFiles f !! configPath) as [content|] eqn:E; [|by destruct R].
    destruct (includes content (Toml.queueMarker config)) eqn:Ei.
    + destruct R as [_ ->]. by exists content.
    + destruct (bool_decide (configPath ∈ readOnly f)); [by destruct R|].
      destruct R as [_ ->]. exists (Toml.updatedContent content config). split.
      * apply lookup_insert_eq.
      * apply updatedContent_includes.
  - destruct (jsoncFiles f !! configPath) as [content|] eqn:E; [|by destruct R].
    destruct (Json.queueExists (jsonc.parse content) config) as [[]|] eqn:Eq;
      [| |by destruct R].
    + destruct R as [_ ->]. by exists content.
    + destruct (Json.updatedContent content config) as [updated|] eqn:Eu;
        [|by destruct R].
      destruct (bool_decide (configPath ∈ readOnly f)); [by destruct R|].
      destruct R as [_ ->]. exists updated. split.
      * apply lookup_insert_eq.
      * by apply (updatedContent_queueExists content).
Qed.

(** A call that returns [false] has written nothing. *)
Lemma patch_false_written configPath config w w' :
  patchWranglerConfigForQueues configPath config w = (Ret false, w') ->
  written w' = written w.
Proof.
  unfold patchWranglerConfigForQueues, patchTomlConfigForQueues,
    patchJsonConfigForQueues. run.
  destruct (endsWith configPath ".toml").
  - destruct (textFiles (fs w) !! configPath) as [content|]; simpl;
      [|by intros [= <-]].
    destruct (includes content (Toml.queueMarker config)); simpl; [by intros [=]|].
    destruct (bool_decide (configPath ∈ readOnly (fs w))); simpl;
      [by intros [= <-] | by intros [=]].
  - destruct (jsoncFiles (fs w) !! configPath) as [content|]; simpl;
      [|by intros [= <-]].
    destruct (Json.queueExists (jsonc.parse content) config) as [[]|]; simpl;
      [by intros [=] | | by intros [= <-]].
    destruct (Json.updatedContent content config); simpl; [|by intros [= <-]].
    destruct (bool_decide (configPath ∈ readOnly (fs w))); simpl;
      [by intros [= <-] | by intros [=]].
Qed.

(** C1. Applying [patchWranglerConfigForQueues] twice in succession with the
    same configuration leaves the document as one application leaves it,
    byte for byte, whatever the path (structured text or JSON) and the
    document: the second call writes nothing (the record of the writes is
    the one the first call left), the files are as after the first call, and
    the second call returns what the first returned. After a first call that
    returned [true] the second call is exactly the call that finds the queue:
    it returns [true] and only logs the warning. *)
Theorem patch_twice_same_document (configPath : string) (config : QueueConfig)
  (w : World) :
  let first := patchWranglerConfigForQueues configPath config w in
  let once := snd first in
  let second := patchWranglerConfigForQueues configPath config once in
  let twice := snd second in
  fs twice = fs once
  /\ written twice = written once
  /\ fst second = fst first
  /\ match fst first with
     | Ret true =>
         second
         = (Ret true,
            withLines [(Warn, "Queue " +:+ quoted (str (queueName config))
                              +:+ " already exists in config")] once)
     | _ => True
     end.
Proof.
  cbv zeta.
  destruct (patchWrangler_run configPath config w) as (b & w1 & E1 & _ & _ & _ & R1).
  rewrite E1. cbn [fst snd].
  destruct b.
  - rewrite (patch_found_run configPath config w1 (patchResult_true_found _ _ _ _ R1)).
    by repeat split.
  - destruct (patchWrangler_run configPath config w1) as (b2 & w2 & E2 & _ & _ & _ & R2).
    destruct (patchResult_again _ _ _ _ _ _ _ R1 R2) as [Hfs ->].
    rewrite E2. cbn [fst snd]. repeat split; try done.
    by apply (patch_false_written configPath config w1).
Qed.

(** ** The bounds on the JSON path *)

Lemma prop_field b k v : prop (Some b) k = Val v -> field b k = v.
Proof. destruct b; simpl; congruence. Qed.

Lemma count_app f l x :
  count f (l ++ [x]) = (count f l + (if f x then 1 else 0))%nat.
Proof.
  unfold count. rewrite List.filter_app, length_app. simpl. by destruct (f x).
Qed.

Lemma count_none f l : (forall x, In x l -> f x = false) -> count f l = 0%nat.
Proof.
  unfold count. induction l as [|y l IH]; simpl; intros H; [done|].
  rewrite (H y) by auto. apply IH. auto.
Qed.

Lemma count_appendUnless (test : json -> Except bool) (f : json -> bool) l x h :
  (forall y, test y = Val false -> f y = false) ->
  js_some test l = Val h ->
  (count f l <= 1)%nat ->
  (count f (appendUnless h l x) <= 1)%nat.
Proof.
  intros Hf Hs Hc. destruct h; simpl; [done|].
  rewrite count_app, count_none.
  - destruct (f x); lia.
  - intros y Hy. apply Hf. by eapply js_some_false.
Qed.

Lemma optIncludes_hasString v s :
  optIncludes v s = Val false -> hasString s v = false.
Proof. destruct v as [[]|]; simpl; congruence. Qed.

Lemma isEventStore_false b :
  Json.isEventStore b = Val false -> isEventStoreBinding b = false.
Proof.
  unfold Json.isEventStore, isEventStoreBinding. intros H.
  apply ebind_Val in H as (n & Hn & H). apply prop_field in Hn as ->. congruence.
Qed.

Lemma isEventStoreMigration_false m :
  Json.isEventStoreMigration m = Val false -> namesEventStore m = false.
Proof.
  unfold Json.isEventStoreMigration, namesEventStore. intros H.
  apply ebind_Val in H as (c & Hc & H). apply prop_field in Hc as ->.
  by apply optIncludes_hasString.
Qed.

Lemma isHtmlRule_false r :
  Json.isHtmlRule r = Val false -> isHtmlTextRule r = false.
Proof.
  unfold Json.isHtmlRule, isHtmlTextRule. intros H.
  apply ebind_Val in H as (t & Ht & H). apply prop_field in Ht as ->.
  destruct (strictEq t (Some "Text")); simpl; [|reflexivity].
  apply ebind_Val in H as (g & Hg & H). apply prop_field in Hg as ->.
  by apply optIncludes_hasString.
Qed.

Lemma omap_singleton {A B} (f : A -> option B) x :
  omap f [x] = match f x with Some y => [y] | None => [] end.
Proof. reflexivity. Qed.

Lemma newProducer_queue config :
  field (Json.newProducer config) "queue" = JString <$> queueName config.
Proof.
  unfold Json.newProducer. simpl.
  destruct config as [[q|] [b|] ? ? ?]; simpl.
  - by rewrite lookup_insert_eq.
  - by rewrite lookup_insert_eq.
  - by rewrite lookup_insert_ne, lookup_empty.
  - by rewrite lookup_empty.
Qed.

Lemma queueValues_newProducer config root root' :
  js_some (Json.isQueue config) (producersOf root) = Val false ->
  producersOf root' = producersOf root ++ [Json.newProducer config] ->
  NoDup (queueValues root) -> NoDup (queueValues root').
Proof.
  intros Hold Hnew Hnd. unfold queueValues in *.
  rewrite Hnew, omap_app, omap_singleton, newProducer_queue.
  apply NoDup_app. split; [done|]. split.
  - intros v Hv Hv'. apply list_elem_of_omap in Hv as (p & Hp & Hq).
    apply list_elem_of_In in Hp.
    pose proof (js_some_false _ _ Hold p Hp) as Hf.
    unfold Json.isQueue in Hf. apply ebind_Val in Hf as (q & Hq' & Hf).
    apply prop_field in Hq'. rewrite Hq in Hq'. subst q.
    destruct (queueName config) as [q|]; simpl in *.
    + apply list_elem_of_singleton in Hv' as ->.
      rewrite String.eqb_refl in Hf. congruence.
    + by apply elem_of_nil in Hv'.
  - destruct (JString <$> queueName config);
      [apply NoDup_singleton | apply NoDup_nil_2].
Qed.

(** A patch that goes through keeps the bounds of a JSON document. *)
Lemma updatedContent_bounds content config t' root :
  Json.queueExists (jsonc.parse content) config = Val false ->
  Json.updatedContent content config = Val t' ->
  jsonc.value content = Some root ->
  jsonBounds root ->
  exists root', jsonc.value t' = Some root' /\ jsonBounds root'.
Proof.
  intros Hq H Hroot (Hp & Hb & Hm & Hr).
  destruct (updatedContent_inv _ _ _ Hq H)
    as (r0 & root' & hr & hb & hm & Hr0 & Hv & Hold & Hnew &
        Hrs & Hrn & Hbs & Hbn & Hms & Hmn).
  rewrite Hroot in Hr0. injection Hr0 as <-.
  exists root'. split; [done|]. repeat split.
  - by eapply queueValues_newProducer.
  - rewrite Hbn. eapply count_appendUnless; eauto using isEventStore_false.
  - rewrite Hmn. eapply count_appendUnless; eauto using isEventStoreMigration_false.
  - rewrite Hrn. eapply count_appendUnless; eauto using isHtmlRule_false.
Qed.

Lemma string_app_assoc (a b c : string) : (a +:+ b) +:+ c = a +:+ (b +:+ c).
Proof.
  induction a as [|x a IH]; [done|].
  change (String x ((a +:+ b) +:+ c) = String x (a +:+ (b +:+ c))). by f_equal.
Qed.

Lemma string_app_empty (a : string) : a +:+ EmptyString = a.
Proof.
  induction a as [|x a IH]; [done|].
  change (String x (a +:+ EmptyString) = String x a). by f_equal.
Qed.

(** The text the structured-text patcher writes: the content, then each
    guarded block unless its marker is in the content, the queue block
    always. *)
Lemma toml_updatedContent_blocks content config :
  Toml.updatedContent content config
  = content
    +:+ unlessPresent (includes content Toml.htmlRuleMarker) Toml.htmlRule
    +:+ Toml.queueConfig config
    +:+ unlessPresent (includes content Toml.eventStoreMarker) Toml.doBinding
    +:+ unlessPresent (includes content Toml.migrationMarker) Toml.migration.
Proof.
  unfold Toml.updatedContent, unlessPresent.
  destruct (includes content Toml.htmlRuleMarker),
    (includes content Toml.eventStoreMarker),
    (includes content Toml.migrationMarker);
    cbn [negb]; rewrite ?string_app_assoc, ?string_app_empty;
    change (EmptyString +:+ ?x) with x; reflexivity.
Qed.

(** C2, as the code has it. A successful patch of a JSON or JSONC document
    keeps the bounds: no two producers with the same queue value, at most one
    binding named EVENT_STORE, at most one migration naming EventStore, at
    most one text rule for **/*.html. A structured-text document is patched
    by its characters: unless the queue marker is there already, the text
    becomes the content, the rule block unless its marker is in the content,
    the queue block, and the binding and migration blocks unless their
    markers are in the content. *)
Theorem patch_keeps_bounds (configPath : string) (config : QueueConfig)
  (w w' : World) :
  patchWranglerConfigForQueues configPath config w = (Ret true, w') ->
  (forall root,
     endsWith configPath ".toml" = false ->
     jsoncFiles (fs w) !! configPath = Some (jsonc.mkText (Some root)) ->
     jsonBounds root ->
     exists root',
       jsoncFiles (fs w') !! configPath = Some (jsonc.mkText (Some root'))
       /\ jsonBounds root')
  /\ (forall content,
        endsWith configPath ".toml" = true ->
        textFiles (fs w) !! configPath = Some content ->
        textFiles (fs w') !! configPath
        = Some (if includes content (Toml.queueMarker config) then content
                else content
                     +:+ unlessPresent (includes content Toml.htmlRuleMarker) Toml.htmlRule
                     +:+ Toml.queueConfig config
                     +:+ unlessPresent (includes content Toml.eventStoreMarker) Toml.doBinding
                     +:+ unlessPresent (includes content Toml.migrationMarker) Toml.migration)).
Proof.
  intros H.
  destruct (patchWrangler_run configPath config w) as (b & w1 & E & _ & _ & _ & R).
  rewrite E in H. injection H as -> ->. unfold patchResult in R. split.
  - intros root Ht Hl Hb. rewrite Ht, Hl in R.
    destruct (Json.queueExists (jsonc.parse (jsonc.mkText (Some root))) config)
      as [[]|] eqn:Eq.
    + destruct R as [_ ->]. eauto.
    + destruct (Json.updatedContent (jsonc.mkText (Some root)) config)
        as [updated|] eqn:Eu; [|by destruct R].
      destruct (bool_decide (configPath ∈ readOnly (fs w))); [by destruct R|].
      destruct R as [_ ->]. simpl. rewrite lookup_insert_eq.
      destruct (updatedContent_bounds _ _ _ root Eq Eu eq_refl Hb) as (root' & Hv & Hb').
      exists root'. split; [|done]. destruct updated as [v]. simpl in Hv. by subst v.
    + by destruct R.
  - intros content Ht Hl. rewrite Ht, Hl in R.
    destruct (includes content (Toml.queueMarker config)).
    + destruct R as [_ ->]. done.
    + destruct (bool_decide (configPath ∈ readOnly (fs w))); [by destruct R|].
      destruct R as [_ ->]. simpl. rewrite lookup_insert_eq.
      by rewrite toml_updatedContent_blocks.
Qed.

Lemma patch_keeps_bounds_witness :
  let w1 := snd (patchWranglerConfigForQueues "/work/wrangler.jsonc" ScenarioC.config
                   scenarioC_world) in
  patchWranglerConfigForQueues "/work/wrangler.jsonc" ScenarioC.config scenarioC_world
  = (Ret true, w1)
  /\ exists root',
       jsoncFiles (fs w1) !! "/work/wrangler.jsonc" = Some (jsonc.mkText (Some root'))
       /\ jsonBounds root'.
Proof.
  intros w1.
  assert (H : patchWranglerConfigForQueues "/work/wrangler.jsonc" ScenarioC.config
                scenarioC_world = (Ret true, w1)) by (vm_compute; reflexivity).
  split; [exact H|].
  apply (proj1 (patch_keeps_bounds _ _ _ _ H) ScenarioC.minimal).
  - vm_compute; reflexivity.
  - vm_compute; reflexivity.
  - unfold jsonBounds. vm_compute. repeat split; try lia. constructor.
Defined.

(** C2 as stated fails on the structured-text path: a document with one
    EVENT_STORE binding, spelled [name="EVENT_STORE"], satisfies the bounds;
    the patch succeeds and leaves two bindings named EVENT_STORE. *)
Lemma toml_patch_breaks_bounds :
  exists w1 text1,
    patchWranglerConfigForQueues "/work/wrangler.toml" ScenarioC.config
      TomlDuplicate.world = (Ret true, w1)
    /\ TomlBounds.holds TomlDuplicate.document = true
    /\ textFiles (fs w1) !! "/work/wrangler.toml" = Some text1
    /\ TomlReader.eventStoreBindings text1 = 2%nat
    /\ TomlBounds.holds text1 = false.
Proof.
  exists (snd (patchWranglerConfigForQueues "/work/wrangler.toml" ScenarioC.config
                 TomlDuplicate.world)),
         (Toml.updatedContent TomlDuplicate.document ScenarioC.config).
  repeat split; vm_compute; reflexivity.
Qed.

(** C3. Scenario C: patching the minimal JSON document [{"name":"x"}] for the
    queue demo-queue with binding DEMO_QUEUE and the default batch settings
    succeeds; the document then has exactly that producer, exactly that
    consumer (4, 3, 3), one text rule for **/*.html, one EVENT_STORE binding
    and one migration naming EventStore; the same call again succeeds and
    leaves the five sequences at length 1. *)
Theorem scenario_C (configPath : string) (w : World) :
  endsWith configPath ".toml" = false ->
  jsoncFiles (fs w) !! configPath = Some (jsonc.mkText (Some ScenarioC.minimal)) ->
  configPath ∉ readOnly (fs w) ->
  exists w1 w2 root,
    patchWranglerConfigForQueues configPath ScenarioC.config w = (Ret true, w1)
    /\ jsoncFiles (fs w1) !! configPath = Some (jsonc.mkText (Some root))
    /\ producersOf root = [ScenarioC.producer]
    /\ consumersOf root = [ScenarioC.consumer]
    /\ rulesOf root = [Json.htmlRule] /\ isHtmlTextRule Json.htmlRule = true
    /\ bindingsOf root = [Json.newBinding] /\ isEventStoreBinding Json.newBinding = true
    /\ migrationsOf root = [Json.newMigration] /\ namesEventStore Json.newMigration = true
    /\ patchWranglerConfigForQueues configPath ScenarioC.config w1 = (Ret true, w2)
    /\ jsoncFiles (fs w2) !! configPath = Some (jsonc.mkText (Some root)).
Proof.
  intros Ht Hl Hw.
  destruct (patchWrangler_run configPath ScenarioC.config w)
    as (b & w1 & E1 & _ & _ & _ & R1).
  destruct (patchWrangler_run configPath ScenarioC.config w1)
    as (b2 & w2 & E2 & _ & _ & _ & R2).
  destruct (patchResult_again _ _ _ _ _ _ _ R1 R2) as [Hfs ->].
  unfold patchResult in R1. rewrite Ht, Hl in R1.
  assert (Eq : Json.queueExists (jsonc.parse (jsonc.mkText (Some ScenarioC.minimal)))
                 ScenarioC.config = Val false) by (vm_compute; reflexivity).
  assert (Eu : Json.updatedContent (jsonc.mkText (Some ScenarioC.minimal))
                 ScenarioC.config = Val (jsonc.mkText (Some ScenarioC.patched)))
    by (vm_compute; reflexivity).
  rewrite Eq, Eu in R1. rewrite bool_decide_eq_false_2 in R1 by done.
  destruct R1 as [-> Hf1].
  exists w1, w2, ScenarioC.patched. rewrite Hfs, Hf1. simpl. rewrite lookup_insert_eq.
  repeat split; try done; vm_compute; reflexivity.
Qed.

Lemma scenario_C_witness :
  exists w1 w2 root,
    patchWranglerConfigForQueues "/work/wrangler.jsonc" ScenarioC.config scenarioC_world
    = (Ret true, w1)
    /\ jsoncFiles (fs w1) !! "/work/wrangler.jsonc" = Some (jsonc.mkText (Some root))
    /\ producersOf root = [ScenarioC.producer]
    /\ consumersOf root = [ScenarioC.consumer]
    /\ rulesOf root = [Json.htmlRule] /\ isHtmlTextRule Json.htmlRule = true
    /\ bindingsOf root = [Json.newBinding] /\ isEventStoreBinding Json.newBinding = true
    /\ migrationsOf root = [Json.newMigration] /\ namesEventStore Json.newMigration = true
    /\ patchWranglerConfigForQueues "/work/wrangler.jsonc" ScenarioC.config w1
       = (Ret true, w2)
    /\ jsoncFiles (fs w2) !! "/work/wrangler.jsonc" = Some (jsonc.mkText (Some root)).
Proof.
  apply (scenario_C "/work/wrangler.jsonc" scenarioC_world).
  - vm_compute; reflexivity.
  - vm_compute; reflexivity.
  - simpl. apply not_elem_of_empty.
Defined.

(** ** Failure of the patcher *)

Lemma falsy_Some s : s <> EmptyString -> falsy (Some s) = false.
Proof. intros H. simpl. by apply String.eqb_neq. Qed.

Lemma patchRaises_false configPath config w :
  patchRaises configPath config w ->
  exists w', patchWranglerConfigForQueues configPath config w = (Ret false, w')
             /\ fs w' = fs w.
Proof.
  intros H.
  destruct (patchWrangler_run configPath config w) as (b & w' & E & _ & _ & _ & R).
  exists w'. rewrite E. unfold patchResult in R.
  destruct H as [H | [H | H]].
  - unfold readRaises, raises, readFile, readJsonc in H.
    destruct (endsWith configPath ".toml"); destruct H as (msg & w0 & H).
    + destruct (textFiles (fs w) !! configPath); [discriminate H|]. by destruct R as [-> ->].
    + destruct (jsoncFiles (fs w) !! configPath); [discriminate H|]. by destruct R as [-> ->].
  - destruct H as (Ht & content & Hl & H). rewrite Ht, Hl in R.
    destruct H as [[msg H] | [H [msg Hu]]].
    + rewrite H in R. by destruct R as [-> ->].
    + rewrite H, Hu in R. by destruct R as [-> ->].
  - unfold writeRaises, raises, writeFile, writeJsonc in H.
    destruct (endsWith configPath ".toml").
    + destruct H as (content & Hl & Hi & msg & w0 & H). rewrite Hl, Hi in R.
      destruct (bool_decide (configPath ∈ readOnly (fs w))); [|discriminate H].
      by destruct R as [-> ->].
    + destruct H as (content & updated & Hl & Hq & Hu & msg & w0 & H).
      rewrite Hl, Hq, Hu in R.
      destruct (bool_decide (configPath ∈ readOnly (fs w))); [|discriminate H].
      by destruct R as [-> ->].
Qed.

Lemma genericExisting_patch_false primitive patch config context configPath w w1 :
  patchConfig primitive = Some patch ->
  wranglerConfigPath context = Some configPath ->
  configPath <> EmptyString ->
  patch configPath config
    (snd (logger.step ("Adding " +:+ name primitive +:+ " configuration...") w))
  = (Ret false, w1) ->
  runGenericExistingFlow primitive config context w
  = (Exit 1, snd (logger.error "Failed to patch wrangler config" w1)).
Proof.
  intros Hp Hc Hne H. unfold runGenericExistingFlow.
  rewrite Hc, (falsy_Some _ Hne), Hp. simpl str.
  unfold bind at 1. unfold bind at 1. unfold bind at 1.
  change (logger.step ("Adding " +:+ name primitive +:+ " configuration...") w)
    with (Ret tt, snd (logger.step ("Adding " +:+ name primitive +:+ " configuration...") w)).
  cbv beta iota. rewrite H. reflexivity.
Qed.

Lemma genericNew_patch_false primitive patch config context projectName configPath
  w w1 w2 :
  patchConfig primitive = Some patch ->
  config !! "projectName" = Some projectName ->
  projectName <> EmptyString ->
  exists_in (fs w) (path_join (cwd w) projectName) = false ->
  GenericNew.scaffold projectName (path_join (cwd w) projectName) w
  = (Ret configPath, w1) ->
  patch configPath config
    (snd (logger.step ("Adding " +:+ name primitive +:+ " configuration...") w1))
  = (Ret false, w2) ->
  runGenericNewFlow primitive config context w
  = (Exit 1, snd (logger.error "Failed to patch wrangler config" w2)).
Proof.
  intros Hp Hc Hne Hex Hs H. unfold runGenericNewFlow.
  rewrite Hc, (falsy_Some _ Hne). simpl str.
  unfold bind at 1, process_cwd. cbv beta iota.
  unfold bind at 1, pathExists. cbv beta iota. rewrite Hex.
  unfold bind at 1. rewrite Hs.
  unfold bind at 1, GenericNew.configure. rewrite Hp.
  unfold bind at 1. unfold bind at 1. unfold bind at 1.
  change (logger.step ("Adding " +:+ name primitive +:+ " configuration...") w1)
    with (Ret tt, snd (logger.step ("Adding " +:+ name primitive +:+ " configuration...") w1)).
  cbv beta iota. rewrite H. reflexivity.
Qed.

(** C5. [patchWranglerConfigForQueues] always returns a boolean, it never
    throws or ends the process; whenever reading the document, looking into
    it or editing it, or writing it raises, the result is [false] and the
    files are as they were. And whenever the patch step of a generic flow
    returns [false], the flow ends the process with exit code 1. *)
Theorem patch_errors_false_and_fatal :
  (forall configPath config w,
     exists b w', patchWranglerConfigForQueues configPath config w = (Ret b, w'))
  /\ (forall configPath config w,
        patchRaises configPath config w ->
        exists w', patchWranglerConfigForQueues configPath config w = (Ret false, w')
                   /\ fs w' = fs w)
  /\ (forall primitive patch config context configPath w w1,
        patchConfig primitive = Some patch ->
        wranglerConfigPath context = Some configPath ->
        configPath <> EmptyString ->
        patch configPath config
          (snd (logger.step ("Adding " +:+ name primitive +:+ " configuration...") w))
        = (Ret false, w1) ->
        runGenericExistingFlow primitive config context w
        = (Exit 1, snd (logger.error "Failed to patch wrangler config" w1)))
  /\ (forall primitive patch config context projectName configPath w w1 w2,
        patchConfig primitive = Some patch ->
        config !! "projectName" = Some projectName ->
        projectName <> EmptyString ->
        exists_in (fs w) (path_join (cwd w) projectName) = false ->
        GenericNew.scaffold projectName (path_join (cwd w) projectName) w
        = (Ret configPath, w1) ->
        patch configPath config
          (snd (logger.step ("Adding " +:+ name primitive +:+ " configuration...") w1))
        = (Ret false, w2) ->
        runGenericNewFlow primitive config context w
        = (Exit 1, snd (logger.error "Failed to patch wrangler config" w2))).
Proof.
  split; [|split; [|split]].
  - intros configPath config w.
    destruct (patchWrangler_run configPath config w) as (b & w' & E & _). eauto.
  - apply patchRaises_false.
  - apply genericExisting_patch_false.
  - apply genericNew_patch_false.
Qed.

Lemma patch_errors_false_and_fatal_witness :
  (exists w', patchWranglerConfigForQueues "/work/wrangler.jsonc" ScenarioC.config
                (worldWith ∅ ∅ ∅) = (Ret false, w')
              /\ fs w' = fs (worldWith ∅ ∅ ∅))
  /\ (exists w', runGenericExistingFlow (QueuesPrimitive.primitive Sample.templates)
                   Sample.config Sample.existingContext (worldWith ∅ ∅ ∅)
                 = (Exit 1, w'))
  /\ (exists w', runGenericNewFlow (QueuesPrimitive.primitive Sample.templates)
                   Sample.config Sample.newContext
                   (Sample.newProjectWorld (jsonc.mkText None) [] [])
                 = (Exit 1, w')).
Proof.
  destruct patch_errors_false_and_fatal as (_ & Hfalse & Hexisting & Hnew).
  split; [|split].
  - apply Hfalse. left. unfold readRaises, raises. simpl.
    eexists _, _. reflexivity.
  - eexists.
    apply (Hexisting (QueuesPrimitive.primitive Sample.templates)
             QueuesPrimitive.patchConfig Sample.config Sample.existingContext
             "/work/wrangler.jsonc" (worldWith ∅ ∅ ∅)
             (snd (QueuesPrimitive.patchConfig "/work/wrangler.jsonc" Sample.config
                     (snd (logger.step "Adding Queues configuration..."
                             (worldWith ∅ ∅ ∅)))))).
    + reflexivity.
    + reflexivity.
    + discriminate.
    + vm_compute; reflexivity.
  - eexists.
    apply (Hnew (QueuesPrimitive.primitive Sample.templates)
             QueuesPrimitive.patchConfig Sample.config Sample.newContext
             "my-app" "/work/my-app/wrangler.jsonc"
             (Sample.newProjectWorld (jsonc.mkText None) [] [])
             (snd (GenericNew.scaffold "my-app" "/work/my-app"
                     (Sample.newProjectWorld (jsonc.mkText None) [] [])))
             (snd (QueuesPrimitive.patchConfig "/work/my-app/wrangler.jsonc" Sample.config
                     (snd (logger.step "Adding Queues configuration..."
                             (snd (GenericNew.scaffold "my-app" "/work/my-app"
                                     (Sample.newProjectWorld (jsonc.mkText None) [] [])))))))).
    + reflexivity.
    + vm_compute; reflexivity.
    + discriminate.
    + vm_compute; reflexivity.
    + vm_compute; reflexivity.
    + vm_compute; reflexivity.
Defined.

(* ===================================================================== *)
(** * Properties: the registry *)
(* ===================================================================== *)

Lemma firstRegistered_elem ids k : k ∈ firstRegistered ids <-> k ∈ ids.
Proof.
  induction ids as [|i ids IH]; simpl; [done|].
  rewrite !elem_of_cons, <- IH, !list_elem_of_In, List.filter_In.
  destruct (String.eqb_spec k i); simpl; intuition congruence.
Qed.

Lemma NoDup_filter_bool {A} (f : A -> bool) (l : list A) :
  NoDup l -> NoDup (List.filter f l).
Proof.
  induction 1 as [|x l Hx Hnd IH]; simpl; [constructor|].
  destruct (f x); [|done]. constructor; [|done].
  rewrite list_elem_of_In, List.filter_In, <- list_elem_of_In. tauto.
Qed.

Lemma firstRegistered_NoDup ids : NoDup (firstRegistered ids).
Proof.
  induction ids as [|i ids IH]; simpl; constructor.
  - rewrite list_elem_of_In, List.filter_In, String.eqb_refl. simpl. intros []; done.
  - by apply NoDup_filter_bool.
Qed.

Lemma firstRegistered_snoc ids k :
  firstRegistered (ids ++ [k])
  = firstRegistered ids ++ (if bool_decide (k ∈ ids) then [] else [k]).
Proof.
  induction ids as [|i ids IH]; simpl; [done|].
  rewrite IH, List.filter_app. f_equal. f_equal.
  destruct (String.eqb_spec k i) as [->|Hne].
  - rewrite (bool_decide_eq_true_2 (i ∈ i :: ids)) by apply list_elem_of_here.
    case_bool_decide; simpl; by rewrite ?String.eqb_refl.
  - apply String.eqb_neq in Hne as Hb.
    repeat case_bool_decide; simpl; rewrite ?Hb; simpl; try done; exfalso;
      rewrite elem_of_cons in *; intuition congruence.
Qed.

Lemma latest_snoc key calls p :
  latest key (calls ++ [p])
  = if String.eqb (id p) key then Some p else latest key calls.
Proof. unfold latest. by rewrite rev_unit. Qed.

Lemma latest_id key calls p : latest key calls = Some p -> id p = key.
Proof.
  unfold latest. intros H. apply List.find_some in H as [_ H].
  by apply String.eqb_eq.
Qed.

Lemma latest_is_Some key calls : key ∈ map id calls -> is_Some (latest key calls).
Proof.
  unfold latest. intros H.
  destruct (List.find _ (rev calls)) eqn:E; [by eexists|].
  apply list_elem_of_In, in_map_iff in H as (p & Hp & Hin).
  apply in_rev in Hin. apply (List.find_none _ _ E p) in Hin.
  rewrite Hp, String.eqb_refl in Hin. discriminate.
Qed.

Lemma omap_ext_in {A B} (f g : A -> option B) (l : list A) :
  (forall x, x ∈ l -> f x = g x) -> omap f l = omap g l.
Proof.
  induction l as [|x l IH]; intros H; [done|].
  cbn. rewrite (H x) by apply list_elem_of_here.
  rewrite IH; [done|]. intros y Hy. apply H. by apply list_elem_of_further.
Qed.

(** [Map.set] on a list of entries with distinct keys: the entry of the key
    is replaced where it stands, or the new entry goes to the end. *)
Lemma Map_set_entries (g : string -> option Primitive) keys key v :
  NoDup keys ->
  (forall k, k ∈ keys -> is_Some (g k)) ->
  Map.set key v (omap (fun k => pair k <$> g k) keys)
  = omap (fun k => pair k <$> (if String.eqb k key then Some v else g k)) keys
    ++ (if bool_decide (key ∈ keys) then [] else [(key, v)]).
Proof.
  induction 1 as [|k keys Hk Hnd IH]; intros Hg; [done|].
  destruct (Hg k (list_elem_of_here _ _)) as [x Hx].
  cbn. rewrite Hx. cbn.
  destruct (String.eqb_spec k key) as [->|Hne]; cbn.
  - rewrite bool_decide_eq_true_2 by apply list_elem_of_here.
    rewrite app_nil_r. f_equal. apply omap_ext_in.
    intros k' Hk'. destruct (String.eqb_spec k' key) as [->|]; [done|done].
  - f_equal.
    rewrite IH by (intros k' Hk'; apply Hg; by apply list_elem_of_further).
    f_equal. repeat case_bool_decide; try done; exfalso;
      rewrite elem_of_cons in *; intuition congruence.
Qed.

Lemma registerAll_snoc calls p :
  registerAll (calls ++ [p]) = PrimitiveRegistry.register p (registerAll calls).
Proof. unfold registerAll. by rewrite fold_left_app. Qed.

(** The entries of the registry after a sequence of calls. *)
Lemma registerAll_entries calls :
  registerAll calls
  = omap (fun k => pair k <$> latest k calls) (firstRegistered (map id calls)).
Proof.
  induction calls as [|p calls IH] using rev_ind; [done|].
  rewrite registerAll_snoc, IH. unfold PrimitiveRegistry.register.
  rewrite Map_set_entries.
  - rewrite map_app. simpl map. rewrite firstRegistered_snoc, omap_app. f_equal.
    + apply omap_ext_in. intros k _. by rewrite latest_snoc, String.eqb_sym.
    + rewrite (bool_decide_ext _ _ (firstRegistered_elem (map id calls) (id p))).
      case_bool_decide; [done|].
      cbn. by rewrite latest_snoc, String.eqb_refl.
  - apply firstRegistered_NoDup.
  - intros k Hk. apply latest_is_Some. by apply firstRegistered_elem.
Qed.

Lemma values_entries (g : string -> option Primitive) keys :
  Map.values (omap (fun k => pair k <$> g k) keys) = omap g keys.
Proof.
  induction keys as [|k keys IH]; [done|].
  cbn. destruct (g k); cbn; [by f_equal | done].
Qed.

Lemma getAll_registrationOrder calls :
  PrimitiveRegistry.getAll (registerAll calls) = registrationOrder calls.
Proof.
  unfold PrimitiveRegistry.getAll. rewrite registerAll_entries. apply values_entries.
Qed.

Lemma filter_all {A} (f : A -> bool) (l : list A) :
  Forall (fun x => f x = true) (List.filter f l).
Proof.
  apply Forall_forall. intros x Hx.
  apply list_elem_of_In, List.filter_In in Hx. tauto.
Qed.

(** C7. After any sequence of [register] calls, the listing for existing
    projects holds no primitive with [supportsExisting = false], the listing
    for new projects none with [supportsNewProject = false], and each listing
    is the registered primitives in registration order (one per id, in the
    order in which the ids were first registered) restricted to the
    primitives that have the flag. *)
Theorem listings_filter_registration_order (calls : list Primitive) :
  let primitives := registerAll calls in
  Forall (fun p => supportsExisting p = true)
    (PrimitiveRegistry.getForExisting primitives)
  /\ Forall (fun p => supportsNewProject p = true)
       (PrimitiveRegistry.getForNewProject primitives)
  /\ PrimitiveRegistry.getForExisting primitives
     = List.filter supportsExisting (registrationOrder calls)
  /\ PrimitiveRegistry.getForNewProject primitives
     = List.filter supportsNewProject (registrationOrder calls).
Proof.
  simpl. unfold PrimitiveRegistry.getForExisting, PrimitiveRegistry.getForNewProject.
  rewrite getAll_registrationOrder.
  split; [apply filter_all|]. split; [apply filter_all|]. done.
Qed.

Lemma Map_set_present {V} key (v : V) entries :
  Map.has key entries = true ->
  exists i old,
    entries !! i = Some (key, old)
    /\ Map.set key v entries = <[i := (key, v)]> entries.
Proof.
  unfold Map.has. induction entries as [|[k x] entries IH]; simpl; [discriminate|].
  destruct (String.eqb_spec k key) as [->|Hne].
  - intros _. by exists 0%nat, x.
  - intros H. destruct (IH H) as (i & old & Hi & Hs).
    exists (S i), old. simpl. by rewrite Hs.
Qed.

Lemma Map_get_set {V} key (v : V) entries :
  Map.get key (Map.set key v entries) = Some v.
Proof.
  induction entries as [|[k x] entries IH]; simpl.
  - by rewrite String.eqb_refl.
  - destruct (String.eqb_spec k key) as [->|Hne]; simpl.
    + by rewrite String.eqb_refl.
    + apply String.eqb_neq in Hne. by rewrite Hne.
Qed.

Lemma map_lookup {A B} (f : A -> B) (l : list A) i :
  map f l !! i = f <$> l !! i.
Proof.
  revert i; induction l as [|x l IH]; intros [|i]; simpl; done.
Qed.

Lemma map_insert {A B} (f : A -> B) (l : list A) i x :
  map f (<[i := x]> l) = <[i := f x]> (map f l).
Proof.
  revert i; induction l as [|y l IH]; intros [|i]; simpl; try done. by rewrite IH.
Qed.

(** Every entry of a registry built by [register] is filed under the id of
    its primitive. *)
Lemma registerAll_keys calls i key p :
  registerAll calls !! i = Some (key, p) -> id p = key.
Proof.
  rewrite registerAll_entries. intros H.
  apply list_elem_of_lookup_2, list_elem_of_omap in H as (k & _ & Hk).
  destruct (latest k calls) as [q|] eqn:E; [|discriminate].
  injection Hk as -> ->. by apply latest_id in E.
Qed.

(** C9. Registering a primitive whose id is registered already replaces the
    earlier primitive and leaves the new one in the earlier one's place in
    the order of [getAll]: the order has the same length, the other places
    are untouched, and lookup by the id gives the new primitive. *)
Theorem reregister_keeps_position (calls : list Primitive) (p : Primitive) :
  PrimitiveRegistry.has (id p) (registerAll calls) = true ->
  exists i old,
    PrimitiveRegistry.getAll (registerAll calls) !! i = Some old
    /\ id old = id p
    /\ PrimitiveRegistry.getAll (PrimitiveRegistry.register p (registerAll calls))
       = <[i := p]> (PrimitiveRegistry.getAll (registerAll calls))
    /\ PrimitiveRegistry.getAll (PrimitiveRegistry.register p (registerAll calls)) !! i
       = Some p
    /\ PrimitiveRegistry.get (id p) (PrimitiveRegistry.register p (registerAll calls))
       = Some p.
Proof.
  intros H. unfold PrimitiveRegistry.has in H.
  destruct (Map_set_present (id p) p _ H) as (i & old & Hi & Hs).
  exists i, old.
  unfold PrimitiveRegistry.getAll, PrimitiveRegistry.register, PrimitiveRegistry.get,
    Map.values.
  rewrite Hs, map_insert, map_lookup, Hi. simpl.
  repeat split.
  - by apply registerAll_keys in Hi.
  - apply list_lookup_insert_eq. rewrite length_map. by eapply lookup_lt_Some.
  - rewrite <- Hs. apply Map_get_set.
Qed.

Lemma reregister_keeps_position_witness :
  let replacement :=
    mkPrimitive "queues" "Test double" "stands in for the queues primitive"
      false false (ret None) None None (fun _ _ => ret tt) None None in
  exists i old,
    PrimitiveRegistry.getAll (registry Sample.templates) !! i = Some old
    /\ id old = "queues"
    /\ PrimitiveRegistry.getAll
         (PrimitiveRegistry.register replacement (registry Sample.templates))
       = <[i := replacement]> (PrimitiveRegistry.getAll (registry Sample.templates))
    /\ PrimitiveRegistry.getAll
         (PrimitiveRegistry.register replacement (registry Sample.templates)) !! i
       = Some replacement
    /\ PrimitiveRegistry.get "queues"
         (PrimitiveRegistry.register replacement (registry Sample.templates))
       = Some replacement.
Proof.
  intros replacement.
  apply (reregister_keeps_position
           [QueuesPrimitive.primitive Sample.templates; WorkerOnlyPrimitive.primitive]
           replacement).
  reflexivity.
Defined.

(* ===================================================================== *)
(** * Properties: detection and the init command *)
(* ===================================================================== *)

Lemma firstExisting_run candidates w :
  exists r, firstExisting candidates w = (Ret r, w).
Proof.
  induction candidates as [|[dir filePath] rest IH]; simpl; [by eexists|].
  unfold bind, pathExists.
  destruct (exists_in (fs w) filePath); [by eexists | apply IH].
Qed.

(** Detection only looks: it returns a context and leaves the world as it
    is; the project is a Worker project exactly when one of the three
    configuration files is there. *)
Lemma detectProjectContext_run w :
  exists context,
    detectProjectContext w = (Ret context, w)
    /\ isWorkerProject context
       = exists_in (fs w) (path_join (cwd w) "wrangler.jsonc")
         || exists_in (fs w) (path_join (cwd w) "wrangler.json")
         || exists_in (fs w) (path_join (cwd w) "wrangler.toml").
Proof.
  unfold detectProjectContext, detectEntryFile.
  unfold bind at 1, process_cwd. cbv beta iota.
  unfold bind at 1, pathExists at 1. cbv beta iota.
  unfold bind at 1, pathExists at 1. cbv beta iota.
  destruct (exists_in (fs w) (path_join (cwd w) "wrangler.jsonc")).
  { unfold bind at 1, ret at 1. cbv beta iota. unfold bind at 1.
    destruct (firstExisting_run (possiblePaths (cwd w)) w) as [r ->].
    eexists; split; reflexivity. }
  unfold bind at 1. unfold bind at 1, pathExists at 1. cbv beta iota.
  destruct (exists_in (fs w) (path_join (cwd w) "wrangler.json")).
  { unfold ret at 1. cbv beta iota. unfold bind at 1.
    destruct (firstExisting_run (possiblePaths (cwd w)) w) as [r ->].
    eexists; split; reflexivity. }
  unfold bind at 1, pathExists at 1. cbv beta iota.
  destruct (exists_in (fs w) (path_join (cwd w) "wrangler.toml")).
  { unfold ret at 1. cbv beta iota. unfold bind at 1.
    destruct (firstExisting_run (possiblePaths (cwd w)) w) as [r ->].
    eexists; split; reflexivity. }
  unfold ret at 1. cbv beta iota. unfold bind at 1, ret at 1. cbv beta iota.
  eexists; split; reflexivity.
Qed.

Lemma detect_noProject w :
  noProject w ->
  exists context,
    detectProjectContext w = (Ret context, w) /\ isWorkerProject context = false.
Proof.
  intros (H1 & H2 & H3).
  destruct (detectProjectContext_run w) as (context & E & Hw).
  exists context. split; [done|]. by rewrite Hw, H1, H2, H3.
Qed.

(* ===================================================================== *)
(** * Properties: the new-project flow *)
(* ===================================================================== *)

(** The new-project flow, once the project is scaffolded and configured, is
    its deployment step. *)
Lemma runGenericNewFlow_steps primitive config context projectName configPath w w1 w2 :
  config !! "projectName" = Some projectName ->
  projectName <> EmptyString ->
  exists_in (fs w) (path_join (cwd w) projectName) = false ->
  GenericNew.scaffold projectName (path_join (cwd w) projectName) w
  = (Ret configPath, w1) ->
  GenericNew.configure primitive config projectName (path_join (cwd w) projectName)
    configPath w1 = (Ret tt, w2) ->
  runGenericNewFlow primitive config context w
  = GenericNew.deployment primitive config projectName (path_join (cwd w) projectName) w2.
Proof.
  intros Hc Hne Hex Hs Hconf. unfold runGenericNewFlow.
  rewrite Hc, (falsy_Some _ Hne). simpl str.
  unfold bind at 1, process_cwd. cbv beta iota.
  unfold bind at 1, pathExists. cbv beta iota. rewrite Hex.
  unfold bind at 1. rewrite Hs.
  unfold bind at 1. rewrite Hconf. reflexivity.
Qed.

Lemma withLines_withLines l1 l2 w :
  withLines l2 (withLines l1 w) = withLines (l1 ++ l2) w.
Proof. unfold withLines. simpl. by rewrite app_assoc. Qed.

Lemma withLines_nil w : withLines [] w = w.
Proof. destruct w. unfold withLines. simpl. by rewrite app_nil_r. Qed.

Lemma log_run level message w : log level message w = (Ret tt, withLines [(level, message)] w).
Proof. reflexivity. Qed.

Lemma logNumbered_run i steps w :
  logNumbered i steps w = (Ret tt, withLines (numberedLines i steps) w).
Proof.
  revert i w; induction steps as [|step rest IH]; intros i w; simpl.
  - by rewrite withLines_nil.
  - unfold bind, console_log. rewrite log_run, IH, withLines_withLines. done.
Qed.

Lemma logAll_run lines w :
  logAll lines w = (Ret tt, withLines (plainLines lines) w).
Proof.
  revert w; induction lines as [|line rest IH]; intros w; simpl.
  - by rewrite withLines_nil.
  - unfold bind, console_log. rewrite log_run, IH, withLines_withLines. done.
Qed.

Lemma logIndented_run steps w :
  logIndented steps w
  = (Ret tt, withLines (plainLines (map (fun step => "  " +:+ step) steps)) w).
Proof.
  revert w; induction steps as [|step rest IH]; intros w; simpl.
  - by rewrite withLines_nil.
  - unfold bind, console_log. rewrite log_run, IH, withLines_withLines. done.
Qed.

(** The deployment step when the answer to the prompt is no, or is missing. *)
Lemma deployment_declined primitive config projectName projectDir w a rest :
  answers w = a :: rest ->
  default false (flags a !! "deploy") = false ->
  GenericNew.deployment primitive config projectName projectDir w
  = (Ret tt, withLines ((Plain, EmptyString) :: localDevLines primitive config projectName)
               (withAnswers rest w)).
Proof.
  intros Ha Hd. unfold GenericNew.deployment, promptDeploy, coloredPrompts, prompts.
  run. rewrite Ha. simpl. rewrite Hd.
  unfold localDevLines, withLines, withAnswers.
  destruct (deploymentInfo primitive config ≫= nextSteps) as [steps|];
    rewrite ?logNumbered_run; unfold withLines;
    destruct (String.eqb (id primitive) "queues"); cbn;
    (f_equal; f_equal; rewrite <- ?app_assoc; simpl; reflexivity).
Qed.

Lemma bind_run {A B} (m : M A) (k : A -> M B) w a w' :
  m w = (Ret a, w') -> bind m k w = k a w'.
Proof. unfold bind. by intros ->. Qed.

Lemma promptDeploy_run w a rest :
  answers w = a :: rest ->
  promptDeploy w = (Ret (default false (flags a !! "deploy")), withAnswers rest w).
Proof.
  intros Ha. unfold promptDeploy, coloredPrompts, prompts, bind, ret. by rewrite Ha.
Qed.





(** C10. In the new-project flow, once the project is scaffolded and
    configured, a cancelled deployment prompt (no answer to [deploy]) is an
    answer of no: [promptDeploy] returns [false]; the flow prints the
    local-development instructions and returns normally, having touched no
    file and run no process since the prompt; and the run is the very run of
    a user who answered no. *)
Theorem cancelled_deploy_prompt_is_no
  (primitive : Primitive) (config : PrimitiveConfig) (context : ProjectContext)
  (projectName configPath : string) (w w1 w2 : World) (a : Answers)
  (rest : list Answers) :
  config !! "projectName" = Some projectName ->
  projectName <> EmptyString ->
  exists_in (fs w) (path_join (cwd w) projectName) = false ->
  GenericNew.scaffold projectName (path_join (cwd w) projectName) w
  = (Ret configPath, w1) ->
  GenericNew.configure primitive config projectName (path_join (cwd w) projectName)
    configPath w1 = (Ret tt, w2) ->
  answers w2 = a :: rest ->
  flags a !! "deploy" = None ->
  promptDeploy w2 = (Ret false, withAnswers rest w2)
  /\ runGenericNewFlow primitive config context w
     = (Ret tt,
        withLines ((Plain, EmptyString) :: localDevLines primitive config projectName)
          (withAnswers rest w2))
  /\ runGenericNewFlow primitive config context w
     = GenericNew.deployment primitive config projectName
         (path_join (cwd w) projectName) (withAnswers (declined a :: rest) w2).
Proof.
  intros Hc Hne Hex Hs Hconf Ha Hd.
  rewrite (runGenericNewFlow_steps _ _ _ _ _ _ _ _ Hc Hne Hex Hs Hconf).
  split; [|split].
  - rewrite (promptDeploy_run _ _ _ Ha), Hd. done.
  - apply (deployment_declined _ _ _ _ _ a rest Ha). by rewrite Hd.
  - rewrite (deployment_declined _ _ _ _ _ a rest Ha) by (by rewrite Hd).
    rewrite (deployment_declined _ _ _ _ (withAnswers (declined a :: rest) w2)
               (declined a) rest); [done | done |].
    simpl. by rewrite lookup_insert_eq.
Qed.

Lemma cancelled_deploy_prompt_is_no_witness :
  let w := Sample.newProjectWorld (jsonc.mkText (Some ScenarioC.minimal))
             [Sample.noAnswer] [] in
  exists w',
    runGenericNewFlow WorkerOnlyPrimitive.primitive Sample.config Sample.newContext w
    = (Ret tt, w')
    /\ printed Plain (nl +:+ "For local development:") w' = true.
Proof.
  intros w.
  pose (w1 := snd (GenericNew.scaffold "my-app" "/work/my-app" w)).
  pose (w2 := snd (GenericNew.configure WorkerOnlyPrimitive.primitive Sample.config
                     "my-app" "/work/my-app" "/work/my-app/wrangler.jsonc" w1)).
  destruct (cancelled_deploy_prompt_is_no WorkerOnlyPrimitive.primitive Sample.config
              Sample.newContext "my-app" "/work/my-app/wrangler.jsonc" w w1 w2
              Sample.noAnswer []) as (_ & H & _).
  - vm_compute; reflexivity.
  - discriminate.
  - vm_compute; reflexivity.
  - vm_compute; reflexivity.
  - vm_compute; reflexivity.
  - vm_compute; reflexivity.
  - vm_compute; reflexivity.
  - eexists. split; [exact H|]. vm_compute; reflexivity.
Defined.




(** C4 fails on the generic flow: in an existing project whose src/index.ts
    holds the user's code, adding the queues primitive through
    [runGenericExistingFlow] replaces that file with the generated worker,
    logs no warning, and tells the user the file was not modified. *)
Theorem generic_existing_flow_overwrites_entry_file :
  let w := Sample.existingProjectWorld [Sample.noAnswer] in
  let run :=
    runGenericExistingFlow (QueuesPrimitive.primitive Sample.templates) Sample.config
      Sample.existingContext w in
  textFiles (fs w) !! "/work/src/index.ts" = Some "export default { /* my code */ }"
  /\ fst run = Ret tt
  /\ textFiles (fs (snd run)) !! "/work/src/index.ts"
     = Some (generateQueueWorkerCode Sample.templates (Some "demo-queue")
               (Some "DEMO_QUEUE"))
  /\ existsb (fun line => Level_eqb (fst line) Warn) (console (snd run)) = false
  /\ printed Plain
       "Your existing index.ts was not modified. You need to integrate the queue code:"
       (snd run) = true.
Proof. repeat split; vm_compute; reflexivity. Qed.

(* ===================================================================== *)
(** * Properties: the command line *)
(* ===================================================================== *)

(** Both flags: [init] and [initQueues] stop at their first test, whatever
    the registry. *)
Lemma both_flags_rejected t registered options w :
  add options = true -> new options = true ->
  init registered options w
  = (Exit 1, withLines [(Error, "Cannot use both --add and --new flags")] w)
  /\ initQueues t options w
     = (Exit 1, withLines [(Error, "Cannot use both --add and --new flags")] w).
Proof. intros Ha Hn. unfold init, initQueues. rewrite Ha, Hn. simpl. done. Qed.

(** [--add] where there is no Worker project: [init] and [initQueues] only
    look, and stop. *)
Lemma add_without_project_rejected t options w :
  add options = true -> new options = false -> noProject w ->
  init (registry t) options w
  = (Exit 1,
     withLines [(Error, "Not a Worker project. Use --new to create a new project.")] w)
  /\ initQueues t options w
     = (Exit 1,
        withLines [(Error, "Not a Worker project. Use --new to create a new project.")] w).
Proof.
  intros Ha Hn Hno. unfold init, initQueues. rewrite Ha, Hn.
  destruct (detect_noProject w Hno) as (context & E & Hw).
  cbn [andb negb].
  rewrite !(bind_run _ _ _ _ _ E).
  change (PrimitiveRegistry.get "queues" (registry t))
    with (Some (QueuesPrimitive.primitive t)).
  cbv iota. rewrite Hw. cbn [negb]. done.
Qed.

(** C8, as the code has it. [main] handles [--help] and [--version] first:
    with either, it prints the help text or the version and ends the process
    with exit code 0, whatever the other flags. A command other than
    [queues] ends with exit code 1 and "Unknown command". Otherwise ([init],
    or the [queues] command), after the banner: with both [--add] and
    [--new] the error is logged and the process ends with exit code 1 before
    anything else; with [--add] alone and no Worker project detected the
    error is logged and the process ends with exit code 1. In both cases the
    world is the one [main] started in with these lines on the console: no
    file is touched or written, no question asked, no process run. *)
Theorem exclusive_flags_and_add_without_project (t : Templates) (parsed : ParsedArgs)
  (w : World) :
  let command := head (positionals parsed) in
  (values_help parsed = true ->
   main t parsed w = (Exit 0, withLines [(Plain, helpText)] w))
  /\ (values_help parsed = false -> values_version parsed = true ->
      main t parsed w = (Exit 0, withLines [(Plain, "clementine-cli v0.1.0")] w))
  /\ (values_help parsed = false -> values_version parsed = false ->
      (falsy command = false -> command <> Some "queues" ->
       main t parsed w
       = (Exit 1,
          withLines [banner;
                     (Error, "Unknown command: " +:+ str command);
                     (Info, "Run " +:+ quoted "clementine --help" +:+ " for usage")] w))
      /\ (runsCommand parsed ->
          (values_add parsed = true -> values_new parsed = true ->
           main t parsed w
           = (Exit 1,
              withLines [banner; (Error, "Cannot use both --add and --new flags")] w))
          /\ (values_add parsed = true -> values_new parsed = false -> noProject w ->
              main t parsed w
              = (Exit 1,
                 withLines
                   [banner;
                    (Error, "Not a Worker project. Use --new to create a new project.")]
                   w)))).
Proof.
  cbv zeta. split; [|split].
  - intros Hh. unfold main, tryCatch. rewrite Hh. reflexivity.
  - intros Hh Hv. unfold main, tryCatch. rewrite Hh, Hv. reflexivity.
  - intros Hh Hv.
    assert (Hmain : forall (body : M unit) code w',
              body (withLines [banner] w) = (Exit code, w') ->
              (if falsy (head (positionals parsed)) then
                 init (registry t)
                   {| add := values_add parsed; new := values_new parsed |}
               else if String.eqb (str (head (positionals parsed))) "queues" then
                 initQueues t {| add := values_add parsed; new := values_new parsed |}
               else
                 logger.error ("Unknown command: " +:+ str (head (positionals parsed)));;
                 logger.info ("Run " +:+ quoted "clementine --help" +:+ " for usage");;
                 process_exit 1) = body ->
              main t parsed w = (Exit code, w')).
    { intros body code w' Hbody Hsel. unfold main, tryCatch. rewrite Hh, Hv.
      cbv zeta. rewrite Hsel. unfold bind at 1, logger.intro. rewrite log_run.
      fold banner. by rewrite Hbody. }
    split.
    + intros Hc Hq. eapply Hmain; [|reflexivity]. rewrite Hc.
      destruct (String.eqb_spec (str (head (positionals parsed))) "queues") as [Heq|_].
      { exfalso. apply Hq. destruct (head (positionals parsed)) as [c|]; [|done].
        simpl in Heq. by subst. }
      unfold bind, logger.error, logger.info, process_exit. rewrite !log_run.
      by rewrite withLines_withLines, withLines_withLines.
    + intros Hruns.
      set (options := {| add := values_add parsed; new := values_new parsed |}).
      assert (Hsel : forall code w',
                init (registry t) options (withLines [banner] w) = (Exit code, w') ->
                initQueues t options (withLines [banner] w) = (Exit code, w') ->
                main t parsed w = (Exit code, w')).
      { intros code w' Hi Hq. destruct Hruns as [Hc | Hc].
        - eapply Hmain; [|reflexivity]. by rewrite Hc.
        - eapply Hmain; [|reflexivity]. rewrite Hc. cbn. exact Hq. }
      split.
      * intros Ha Hn.
        destruct (both_flags_rejected t (registry t) options (withLines [banner] w) Ha Hn)
          as [Hi Hq].
        rewrite withLines_withLines in Hi, Hq. by apply Hsel.
      * intros Ha Hn Hno.
        destruct (add_without_project_rejected t options (withLines [banner] w) Ha Hn Hno)
          as [Hi Hq].
        rewrite withLines_withLines in Hi, Hq. by apply Hsel.
Qed.

Lemma exclusive_flags_and_add_without_project_witness :
  let args add new help version command :=
    {| values_add := add; values_new := new; values_help := help;
       values_version := version; positionals := command |} in
  let w := worldWith ∅ ∅ ∅ in
  main Sample.templates (args true true true false []) w
  = (Exit 0, withLines [(Plain, helpText)] w)
  /\ main Sample.templates (args true true false true []) w
     = (Exit 0, withLines [(Plain, "clementine-cli v0.1.0")] w)
  /\ main Sample.templates (args true true false false ["kv"]) w
     = (Exit 1,
        withLines [banner; (Error, "Unknown command: kv");
                   (Info, "Run " +:+ quoted "clementine --help" +:+ " for usage")] w)
  /\ main Sample.templates (args true true false false []) w
     = (Exit 1, withLines [banner; (Error, "Cannot use both --add and --new flags")] w)
  /\ main Sample.templates (args true false false false ["queues"]) w
     = (Exit 1,
        withLines
          [banner; (Error, "Not a Worker project. Use --new to create a new project.")]
          w).
Proof.
  intros args w. split; [|split; [|split; [|split]]].
  - apply (exclusive_flags_and_add_without_project Sample.templates
             (args true true true false []) w). reflexivity.
  - apply (exclusive_flags_and_add_without_project Sample.templates
             (args true true false true []) w); reflexivity.
  - apply (exclusive_flags_and_add_without_project Sample.templates
             (args true true false false ["kv"]) w); try reflexivity. discriminate.
  - apply (exclusive_flags_and_add_without_project Sample.templates
             (args true true false false []) w); try reflexivity. by left.
  - apply (exclusive_flags_and_add_without_project Sample.templates
             (args true false false false ["queues"]) w); try reflexivity.
    + by right.
    + repeat split; vm_compute; reflexivity.
Defined.

(** C8 as stated fails on the command line: with [--help], both flags end
    with exit code 0 and the help text; and without it, the banner is printed
    before the flags are tested. *)
Lemma both_flags_with_help_exit_0 :
  let args help :=
    {| values_add := true; values_new := true; values_help := help;
       values_version := false; positionals := [] |} in
  fst (main Sample.templates (args true) (worldWith ∅ ∅ ∅)) = Exit 0
  /\ console (snd (main Sample.templates (args false) (worldWith ∅ ∅ ∅)))
     = [banner; (Error, "Cannot use both --add and --new flags")].
Proof. split; vm_compute; reflexivity. Qed.

(* ===================================================================== *)
(** * Further properties of the queue patcher *)
(* ===================================================================== *)

(** X1. [patchWranglerConfigForQueues] touches nothing but the configuration
    file: every other file, the directories and the write permissions are as
    before, no question is asked and no process is run. *)
Theorem patch_touches_only_config (configPath path : string) (config : QueueConfig)
  (w : World) :
  path <> configPath ->
  let w' := snd (patchWranglerConfigForQueues configPath config w) in
  textFiles (fs w') !! path = textFiles (fs w) !! path
  /\ jsoncFiles (fs w') !! path = jsoncFiles (fs w) !! path
  /\ dirs (fs w') = dirs (fs w)
  /\ readOnly (fs w') = readOnly (fs w)
  /\ answers w' = answers w
  /\ processes w' = processes w.
Proof.
  intros Hne. simpl.
  destruct (patchWrangler_run configPath config w) as (b & w' & E & _ & Ha & Hp & R).
  rewrite E. simpl.
  assert (Hfs : fs w' = fs w
                \/ (exists c, fs w' = withText (fs w) configPath c)
                \/ (exists c, fs w' = withJsonc (fs w) configPath c)).
  { unfold patchResult in R.
    repeat match type of R with
           | context [match ?x with _ => _ end] => destruct x
           | _ /\ _ => destruct R as [_ R]
           end; eauto. }
  destruct Hfs as [-> | [[c ->] | [c ->]]]; simpl;
    rewrite ?lookup_insert_ne by done; done.
Qed.

Lemma patch_touches_only_config_witness :
  let w' := snd (patchWranglerConfigForQueues "/work/wrangler.jsonc" ScenarioC.config
                   (Sample.existingProjectWorld [])) in
  textFiles (fs w') !! "/work/src/index.ts"
  = textFiles (fs (Sample.existingProjectWorld [])) !! "/work/src/index.ts"
  /\ jsoncFiles (fs w') !! "/work/src/index.ts"
     = jsoncFiles (fs (Sample.existingProjectWorld [])) !! "/work/src/index.ts"
  /\ dirs (fs w') = dirs (fs (Sample.existingProjectWorld []))
  /\ readOnly (fs w') = readOnly (fs (Sample.existingProjectWorld []))
  /\ answers w' = answers (Sample.existingProjectWorld [])
  /\ processes w' = processes (Sample.existingProjectWorld []).
Proof.
  apply (patch_touches_only_config "/work/wrangler.jsonc" "/work/src/index.ts"
           ScenarioC.config (Sample.existingProjectWorld [])).
  discriminate.
Defined.

(** X2. The structured-text patcher only appends: whatever the call does
    (patch, find the queue already there, or fail), the text of the file
    afterwards starts with the text it had; nothing of the user's content is
    deleted or rewritten. *)
Theorem toml_patch_only_appends (configPath content : string) (config : QueueConfig)
  (w : World) :
  endsWith configPath ".toml" = true ->
  textFiles (fs w) !! configPath = Some content ->
  exists appended,
    textFiles (fs (snd (patchWranglerConfigForQueues configPath config w))) !! configPath
    = Some (content +:+ appended).
Proof.
  intros Ht Hl.
  destruct (patchWrangler_run configPath config w) as (b & w' & E & _ & _ & _ & R).
  rewrite E. simpl. unfold patchResult in R. rewrite Ht, Hl in R.
  destruct (includes content (Toml.queueMarker config)).
  - destruct R as [_ ->]. exists EmptyString. by rewrite string_app_empty.
  - destruct (bool_decide (configPath ∈ readOnly (fs w))).
    + destruct R as [_ ->]. exists EmptyString. by rewrite string_app_empty.
    + destruct R as [_ ->]. simpl. rewrite lookup_insert_eq, toml_updatedContent_blocks.
      eexists. reflexivity.
Qed.

Lemma toml_patch_only_appends_witness :
  exists appended,
    textFiles (fs (snd (patchWranglerConfigForQueues "/work/wrangler.toml"
                          ScenarioC.config TomlDuplicate.world))) !! "/work/wrangler.toml"
    = Some (TomlDuplicate.document +:+ appended).
Proof.
  apply (toml_patch_only_appends "/work/wrangler.toml" TomlDuplicate.document
           ScenarioC.config TomlDuplicate.world); vm_compute; reflexivity.
Defined.

(** X3. A document that already has the queue is left alone: when the
    structured text contains the queue marker, or a JSON producer has the
    queue, the call returns [true], writes nothing (it succeeds even on a file
    that is not writable) and only logs the warning that the queue exists. *)
Theorem patch_short_circuits (configPath : string) (config : QueueConfig) (w : World) :
  (endsWith configPath ".toml" = true
   /\ exists content,
        textFiles (fs w) !! configPath = Some content
        /\ includes content (Toml.queueMarker config) = true)
  \/ (endsWith configPath ".toml" = false
      /\ exists content,
           jsoncFiles (fs w) !! configPath = Some content
           /\ Json.queueExists (jsonc.parse content) config = Val true) ->
  patchWranglerConfigForQueues configPath config w
  = (Ret true,
     withLines [(Warn, "Queue " +:+ quoted (str (queueName config))
                       +:+ " already exists in config")] w).
Proof.
  intros [(Ht & content & Hl & Hi) | (Ht & content & Hl & Hq)];
    unfold patchWranglerConfigForQueues, patchTomlConfigForQueues,
      patchJsonConfigForQueues; rewrite Ht; run; rewrite Hl; simpl.
  - by rewrite Hi.
  - by rewrite Hq.
Qed.

Lemma patch_short_circuits_witness :
  let text := "[[queues.producers]]" +:+ nl +:+ "queue = " +:+ quoted "demo-queue" +:+ nl in
  let w := worldWith {[ "/work/wrangler.toml" := text ]} ∅ ∅ in
  patchWranglerConfigForQueues "/work/wrangler.toml" ScenarioC.config w
  = (Ret true,
     withLines [(Warn, "Queue " +:+ quoted "demo-queue" +:+ " already exists in config")] w).
Proof.
  intros text w.
  apply (patch_short_circuits "/work/wrangler.toml" ScenarioC.config w).
  left. split; [vm_compute; reflexivity|].
  exists text. split; vm_compute; reflexivity.
Defined.

Lemma spread_orElse_prefix v items :
  spread (orElse v (JArray [])) = Val items -> arrayItems v `prefix_of` items.
Proof.
  destruct v as [[| b | n | s | l | m]|]; simpl; intros H;
    try (by apply prefix_nil); try discriminate.
  destruct (truthy (Some (JArray l))) eqn:E; simpl in *; [|done].
  by injection H as <-.
Qed.

(** What a patch that goes through leaves as it was. *)
Lemma updatedContent_frame content config t' :
  Json.updatedContent content config = Val t' ->
  exists m m',
    jsonc.value content = Some (JObject m) /\ jsonc.value t' = Some (JObject m')
    /\ (forall k, k <> "rules" -> k <> "queues" -> k <> "durable_objects" ->
                  k <> "migrations" -> m' !! k = m !! k)
    /\ (forall k, k <> "producers" -> k <> "consumers" ->
                  field2 (JObject m') "queues" k = field2 (JObject m) "queues" k)
    /\ (forall k, k <> "bindings" ->
                  field2 (JObject m') "durable_objects" k
                  = field2 (JObject m) "durable_objects" k)
    /\ consumersOf (JObject m) `prefix_of` consumersOf (JObject m')
    /\ wellShaped content = true.
Proof.
  intros H.
  destruct (updatedContent_object _ _ _ H) as [m Hm].
  destruct content as [c]; simpl in Hm; subst c.
  unfold Json.updatedContent, jsonc.parse in H; simpl jsonc.value in H.
  rewrite !prop_object in H; simpl ebind in H.
  rewrite !optProp_field2 in H.
  apply ebind_Val in H as (hr & Hr & H).
  apply callSome_orElse in Hr as [Hr1 Hr2]. rewrite Hr1 in H.
  apply ebind_Val in H as (t1 & Ht1 & H).
  simpl ebind in H.
  apply ebind_Val in H as (pitems & Hpi & H).
  apply ebind_Val in H as (t2 & Ht2 & H).
  simpl ebind in H.
  apply ebind_Val in H as (citems & Hc & H).
  apply ebind_Val in H as (t3 & Ht3 & H).
  simpl ebind in H.
  apply ebind_Val in H as (hb & Hb & H).
  apply callSome_orElse in Hb as [Hb1 Hb2]. rewrite Hb1 in H.
  apply ebind_Val in H as (t4 & Ht4 & H).
  apply ebind_Val in H as (hm & Hmg & H).
  apply callSome_orElse in Hmg as [Hg1 Hg2]. rewrite Hg1 in H.
  apply ebind_Val in H as (t5 & Ht5 & H).
  injection H as <-.
  apply spread_orElse_prefix in Hc.
  set (P := JArray (pitems ++ [Json.newProducer config])) in *.
  set (C := JArray (citems ++ [Json.newConsumer config])) in *.
  exists m.
  assert (exists m1, t1 = jsonc.mkText (Some (JObject m1))
            /\ (forall k, k <> "rules" -> m1 !! k = m !! k)) as (m1 & -> & Hf1).
  { destruct hr; simpl in Ht1.
    - injection Ht1 as <-. by exists m.
    - rewrite edit_object1 in Ht1. injection Ht1 as <-.
      eexists; split; [done|]. intros k Hk. by rewrite lookup_insert_ne. }
  rewrite edit_object2, Hf1 in Ht2 by done.
  assert (exists q3, t3 = jsonc.mkText (Some (JObject (<["queues" := JObject q3]> m1)))
            /\ q3 !! "consumers" = Some C
            /\ (forall k, k <> "producers" -> k <> "consumers" ->
                          q3 !! k = field2 (JObject m) "queues" k))
    as (q3 & -> & Hq3 & Hfq).
  { unfold field2; simpl.
    destruct (m !! "queues") as [[| | | | |q]|] eqn:Eq; try discriminate Ht2;
      injection Ht2 as <-;
      rewrite edit_object2, lookup_insert_eq in Ht3; injection Ht3 as <-;
      rewrite insert_insert_eq; eexists; (split; [done|]);
      (split; [by rewrite lookup_insert_eq|]); intros k Hk1 Hk2; simpl;
      rewrite ?lookup_insert_ne, ?lookup_singleton_ne by done; done. }
  assert (exists m4, t4 = jsonc.mkText (Some (JObject m4))
            /\ (forall k, k <> "bindings" ->
                   field2 (JObject m4) "durable_objects" k
                   = field2 (JObject m) "durable_objects" k)
            /\ (forall k, k <> "durable_objects" ->
                   m4 !! k = (<["queues" := JObject q3]> m1) !! k))
    as (m4 & -> & Hfd & Hf4).
  { destruct hb; simpl in Ht4.
    - injection Ht4 as <-. eexists; split; [done|]. split; [|done].
      intros k Hk. unfold field2; simpl. by rewrite lookup_insert_ne, Hf1.
    - rewrite edit_object2, lookup_insert_ne, Hf1 in Ht4 by done.
      unfold field2; simpl.
      destruct (m !! "durable_objects") as [[| | | | |d]|] eqn:Ed;
        try discriminate Ht4; injection Ht4 as <-;
        (eexists; split; [done|]; split;
         [ intros k Hk; rewrite lookup_insert_eq; simpl;
           rewrite ?lookup_insert_ne, ?lookup_singleton_ne by done; done
         | by intros k Hk; rewrite lookup_insert_ne ]). }
  assert (exists m5, t5 = jsonc.mkText (Some (JObject m5))
            /\ (forall k, k <> "migrations" -> m5 !! k = m4 !! k))
    as (m5 & -> & Hf5).
  { destruct hm; simpl in Ht5.
    - injection Ht5 as <-. by eexists.
    - rewrite edit_object1 in Ht5. injection Ht5 as <-.
      eexists; split; [done|]. intros k Hk. by rewrite lookup_insert_ne. }
  assert (Hshape : wellShaped (jsonc.mkText (Some (JObject m))) = true).
  { unfold wellShaped; simpl. apply andb_true_iff; split.
    - clear -Ht2. by destruct (m !! "queues") as [[]|].
    - clear -Hb2 Ht4 Hf1. unfold field2 in Hb2; simpl in Hb2.
      destruct hb; simpl in Ht4.
      + by destruct (m !! "durable_objects") as [[]|].
      + rewrite edit_object2, lookup_insert_ne, Hf1 in Ht4 by done.
        by destruct (m !! "durable_objects") as [[]|]. }
  exists m5. repeat split; try done.
  - intros k ? ? ? ?. by rewrite Hf5, Hf4, lookup_insert_ne, Hf1.
  - intros k ? ?. unfold field2 at 1; simpl.
    rewrite Hf5, Hf4, lookup_insert_eq by done. simpl. by apply Hfq.
  - intros k ?. unfold field2 at 1; simpl. rewrite Hf5 by done.
    by apply (Hfd k).
  - unfold consumersOf, field2 at 2; simpl.
    rewrite Hf5, Hf4, lookup_insert_eq by done. simpl. rewrite Hq3.
    destruct Hc as [rest ->]. exists (rest ++ [Json.newConsumer config]).
    subst C; simpl. by rewrite app_assoc.
Qed.


Lemma prefix_appendUnless b (l : list json) x : l `prefix_of` appendUnless b l x.
Proof. destruct b; simpl; [done | by exists [x]]. Qed.

(** X4. On a JSON/JSONC file the patcher leaves the user's other settings
    alone, whatever the call does: top-level keys other than [rules],
    [queues], [durable_objects] and [migrations], the keys of [queues] other
    than [producers] and [consumers], and the keys of [durable_objects] other
    than [bindings] keep their values; and the entries the five sequences
    had are still there, in order, at the front. *)
Theorem json_patch_keeps_other_settings (configPath : string) (config : QueueConfig)
  (w : World) (content : jsonc.Text) (root : json) :
  endsWith configPath ".toml" = false ->
  jsoncFiles (fs w) !! configPath = Some content ->
  jsonc.value content = Some root ->
  exists content' root',
    jsoncFiles (fs (snd (patchWranglerConfigForQueues configPath config w))) !! configPath
    = Some content'
    /\ jsonc.value content' = Some root'
    /\ (forall k, k <> "rules" -> k <> "queues" -> k <> "durable_objects" ->
                  k <> "migrations" -> field root' k = field root k)
    /\ (forall k, k <> "producers" -> k <> "consumers" ->
                  field2 root' "queues" k = field2 root "queues" k)
    /\ (forall k, k <> "bindings" ->
                  field2 root' "durable_objects" k = field2 root "durable_objects" k)
    /\ rulesOf root `prefix_of` rulesOf root'
    /\ producersOf root `prefix_of` producersOf root'
    /\ consumersOf root `prefix_of` consumersOf root'
    /\ bindingsOf root `prefix_of` bindingsOf root'
    /\ migrationsOf root `prefix_of` migrationsOf root'.
Proof.
  intros Hext Hfile Hroot.
  destruct (patchWrangler_run configPath config w) as (b & w' & E & _ & _ & _ & R).
  rewrite E; simpl.
  unfold patchResult in R. rewrite Hext, Hfile in R.
  assert (Hsame : fs w' = fs w -> exists content' root',
    jsoncFiles (fs w') !! configPath = Some content'
    /\ jsonc.value content' = Some root'
    /\ (forall k, k <> "rules" -> k <> "queues" -> k <> "durable_objects" ->
                  k <> "migrations" -> field root' k = field root k)
    /\ (forall k, k <> "producers" -> k <> "consumers" ->
                  field2 root' "queues" k = field2 root "queues" k)
    /\ (forall k, k <> "bindings" ->
                  field2 root' "durable_objects" k = field2 root "durable_objects" k)
    /\ rulesOf root `prefix_of` rulesOf root'
    /\ producersOf root `prefix_of` producersOf root'
    /\ consumersOf root `prefix_of` consumersOf root'
    /\ bindingsOf root `prefix_of` bindingsOf root'
    /\ migrationsOf root `prefix_of` migrationsOf root').
  { intros ->. exists content, root. by repeat split. }
  destruct (Json.queueExists (jsonc.parse content) config) as [[]|] eqn:Eq;
    try (by apply Hsame, R).
  destruct (Json.updatedContent content config) as [updated|] eqn:Eu;
    try (by apply Hsame, R).
  destruct (bool_decide (configPath ∈ readOnly (fs w))); try (by apply Hsame, R).
  destruct R as [_ ->]. clear Hsame. simpl. rewrite lookup_insert_eq.
  destruct (updatedContent_frame _ _ _ Eu)
    as (m & m' & Hm & Hm' & F1 & F2 & F3 & Pc & _).
  destruct (updatedContent_inv _ _ _ Eq Eu)
    as (r & r' & hr & hb & hm & Hr & Hr' & _ & Pp & _ & Pr & _ & Pb & _ & Pm).
  rewrite Hroot in Hm, Hr. injection Hm as ->. injection Hr as <-.
  rewrite Hm' in Hr'. injection Hr' as <-.
  exists updated, (JObject m'). repeat split; try done.
  - rewrite Pr. apply prefix_appendUnless.
  - rewrite Pp. by eexists.
  - rewrite Pb. apply prefix_appendUnless.
  - rewrite Pm. apply prefix_appendUnless.
Qed.

Lemma json_patch_keeps_other_settings_witness :
  exists content' root',
    jsoncFiles (fs (snd (patchWranglerConfigForQueues "/work/wrangler.jsonc"
                           ScenarioC.config scenarioC_world)))
      !! "/work/wrangler.jsonc" = Some content'
    /\ jsonc.value content' = Some root'
    /\ (forall k, k <> "rules" -> k <> "queues" -> k <> "durable_objects" ->
                  k <> "migrations" -> field root' k = field ScenarioC.minimal k)
    /\ (forall k, k <> "producers" -> k <> "consumers" ->
                  field2 root' "queues" k = field2 ScenarioC.minimal "queues" k)
    /\ (forall k, k <> "bindings" ->
                  field2 root' "durable_objects" k
                  = field2 ScenarioC.minimal "durable_objects" k)
    /\ rulesOf ScenarioC.minimal `prefix_of` rulesOf root'
    /\ producersOf ScenarioC.minimal `prefix_of` producersOf root'
    /\ consumersOf ScenarioC.minimal `prefix_of` consumersOf root'
    /\ bindingsOf ScenarioC.minimal `prefix_of` bindingsOf root'
    /\ migrationsOf ScenarioC.minimal `prefix_of` migrationsOf root'.
Proof.
  apply (json_patch_keeps_other_settings "/work/wrangler.jsonc" ScenarioC.config
           scenarioC_world (jsonc.mkText (Some ScenarioC.minimal)) ScenarioC.minimal).
  - vm_compute; reflexivity.
  - vm_compute; reflexivity.
  - reflexivity.
Defined.

(** X5. A JSON/JSONC document that does not have the shape the patcher
    edits (the root, [queues] or [durable_objects] is something other than an
    object) is refused, unless the queue is found listed before any edit is
    tried: the call returns [false], logs one error, and leaves every file as
    it was. *)
Theorem json_patch_refuses_misshapen (configPath : string) (config : QueueConfig)
  (w : World) (content : jsonc.Text) :
  endsWith configPath ".toml" = false ->
  jsoncFiles (fs w) !! configPath = Some content ->
  wellShaped content = false ->
  Json.queueExists (jsonc.parse content) config <> Val true ->
  exists message,
    patchWranglerConfigForQueues configPath config w
    = (Ret false,
       withLines [(Error, "Failed to patch JSON config: " +:+ message)] w).
Proof.
  intros Hext Hfile Hshape Hq.
  assert (Hu : exists message, Json.updatedContent content config = Raise message).
  { destruct (Json.updatedContent content config) as [t'|message] eqn:Eu; [|by eexists].
    destruct (updatedContent_frame _ _ _ Eu) as (? & ? & _ & _ & _ & _ & _ & _ & Hs).
    congruence. }
  destruct Hu as [mu Hu].
  unfold patchWranglerConfigForQueues, tryCatch at 1. rewrite Hext.
  unfold bind at 1, readJsonc. rewrite Hfile.
  unfold patchJsonConfigForQueues. run.
  destruct (Json.queueExists (jsonc.parse content) config) as [[]|message]; simpl.
  - done.
  - rewrite Hu; simpl. by eexists.
  - by eexists.
Qed.

Lemma json_patch_refuses_misshapen_witness :
  exists message,
    patchWranglerConfigForQueues "/work/wrangler.jsonc" ScenarioC.config
      (worldWith ∅ {[ "/work/wrangler.jsonc" :=
                        jsonc.mkText (Some (JObject {[ "queues" := JString "later" ]})) ]} ∅)
    = (Ret false,
       withLines [(Error, "Failed to patch JSON config: " +:+ message)]
         (worldWith ∅ {[ "/work/wrangler.jsonc" :=
                        jsonc.mkText (Some (JObject {[ "queues" := JString "later" ]})) ]} ∅)).
Proof.
  apply (json_patch_refuses_misshapen "/work/wrangler.jsonc" ScenarioC.config
           (worldWith ∅ {[ "/work/wrangler.jsonc" :=
                        jsonc.mkText (Some (JObject {[ "queues" := JString "later" ]})) ]} ∅)
           (jsonc.mkText (Some (JObject {[ "queues" := JString "later" ]})))).
  - vm_compute; reflexivity.
  - vm_compute; reflexivity.
  - vm_compute; reflexivity.
  - vm_compute; discriminate.
Defined.

(* ===================================================================== *)
(** * The key-value binding patcher of lib/config.ts *)
(* ===================================================================== *)

Lemma kv_isBinding_newBinding binding namespaceId :
  KV.isBinding binding (KV.newBinding binding namespaceId) = Val true.
Proof.
  unfold KV.isBinding, KV.newBinding; simpl.
  rewrite lookup_insert_eq; simpl. by rewrite String.eqb_refl.
Qed.

(** After an edit that went through, the binding is found. *)
Lemma kv_updatedContent_exists content binding namespaceId updated :
  KV.bindingExists (jsonc.parse content) binding = Val false ->
  KV.updatedContent content binding namespaceId = Val updated ->
  KV.bindingExists (jsonc.parse updated) binding = Val true.
Proof.
  unfold KV.bindingExists, KV.updatedContent, jsonc.parse.
  destruct content as [[root|]]; simpl; [|discriminate].
  destruct root as [| b | n | s | l | m]; simpl; try discriminate.
  intros Hq H.
  apply ebind_Val in H as (items & Hi & H).
  rewrite edit_object1 in H. injection H as <-. simpl.
  rewrite lookup_insert_eq. simpl.
  assert (Hitems : js_some (KV.isBinding binding) items = Val false).
  { destruct (m !! "kv_namespaces") as [v|]; simpl in *.
    - destruct v as [| [] | [] | s | l | m']; simpl in *;
        try discriminate; try (by injection Hi as <-).
      destruct (String.eqb s EmptyString); simpl in *;
        try discriminate; by injection Hi as <-.
    - by injection Hi as <-. }
  rewrite (js_some_snoc _ _ _ Hitems). cbn [js_some].
  by rewrite kv_isBinding_newBinding.
Qed.

Lemma kv_patchJson_run configPath content binding namespaceId w :
  exists b w',
    KV.patchJsonConfig configPath content binding namespaceId w = (Ret b, w') /\
    match KV.bindingExists (jsonc.parse content) binding with
    | Raise _ => b = false /\ fs w' = fs w /\ written w' = written w
    | Val true => b = true /\ fs w' = fs w /\ written w' = written w
    | Val false =>
        match KV.updatedContent content binding namespaceId with
        | Raise _ => b = false /\ fs w' = fs w /\ written w' = written w
        | Val updated =>
            if bool_decide (configPath ∈ readOnly (fs w)) then
              b = false /\ fs w' = fs w /\ written w' = written w
            else b = true /\ fs w' = withJsonc (fs w) configPath updated
                 /\ written w' = written w ++ [configPath]
        end
    end.
Proof.
  unfold KV.patchJsonConfig. run.
  destruct (KV.bindingExists (jsonc.parse content) binding) as [[]|]; simpl; eauto 10.
  destruct (KV.updatedContent content binding namespaceId); simpl; eauto 10.
  destruct (bool_decide (configPath ∈ readOnly (fs w))); simpl; eauto 10.
Qed.

Lemma kv_patch_json_run configPath binding namespaceId w :
  endsWith configPath ".toml" = false ->
  exists b w',
    KV.patchWranglerConfig configPath binding namespaceId w = (Ret b, w') /\
    match jsoncFiles (fs w) !! configPath with
    | None => b = false /\ fs w' = fs w /\ written w' = written w
    | Some content =>
        match KV.bindingExists (jsonc.parse content) binding with
        | Raise _ => b = false /\ fs w' = fs w /\ written w' = written w
        | Val true => b = true /\ fs w' = fs w /\ written w' = written w
        | Val false =>
            match KV.updatedContent content binding namespaceId with
            | Raise _ => b = false /\ fs w' = fs w /\ written w' = written w
            | Val updated =>
                if bool_decide (configPath ∈ readOnly (fs w)) then
                  b = false /\ fs w' = fs w /\ written w' = written w
                else b = true /\ fs w' = withJsonc (fs w) configPath updated
                     /\ written w' = written w ++ [configPath]
            end
        end
    end.
Proof.
  intros Hext. unfold KV.patchWranglerConfig, tryCatch at 1. rewrite Hext.
  unfold bind at 1, readJsonc.
  destruct (jsoncFiles (fs w) !! configPath) as [content|].
  - destruct (kv_patchJson_run configPath content binding namespaceId w)
      as (b & w' & -> & ?). by eexists _, _.
  - run. eauto 10.
Qed.

(** X6. The key-value patcher on a JSON/JSONC file is idempotent: a second
    call with the same binding and namespace id returns what the first
    returned, changes no file and writes none (after a patch that went
    through, it finds the binding and stops). *)
Theorem kv_json_patch_idempotent (configPath binding namespaceId : string) (w : World) :
  endsWith configPath ".toml" = false ->
  let first := KV.patchWranglerConfig configPath binding namespaceId w in
  let second := KV.patchWranglerConfig configPath binding namespaceId (snd first) in
  fst second = fst first /\ fs (snd second) = fs (snd first)
  /\ written (snd second) = written (snd first).
Proof.
  intros Hext. simpl.
  destruct (kv_patch_json_run configPath binding namespaceId w Hext)
    as (b & w' & -> & R). simpl.
  destruct (kv_patch_json_run configPath binding namespaceId w' Hext)
    as (b2 & w2 & -> & R2). simpl.
  destruct (jsoncFiles (fs w) !! configPath) as [content|] eqn:E.
  - destruct (KV.bindingExists (jsonc.parse content) binding) as [[]|] eqn:Eq.
    + destruct R as (-> & Hfs & _). rewrite Hfs, E, Eq in R2.
      by destruct R2 as (-> & -> & ->).
    + destruct (KV.updatedContent content binding namespaceId) as [updated|] eqn:Eu.
      * destruct (bool_decide (configPath ∈ readOnly (fs w))) eqn:Er.
        -- destruct R as (-> & Hfs & _). rewrite Hfs, E, Eq, Eu, Er in R2.
           by destruct R2 as (-> & -> & ->).
        -- destruct R as (-> & Hfs & _). rewrite Hfs in R2. simpl in R2.
           rewrite lookup_insert_eq in R2.
           rewrite (kv_updatedContent_exists _ _ _ _ Eq Eu) in R2.
           destruct R2 as (-> & -> & ->). by rewrite Hfs.
      * destruct R as (-> & Hfs & _). rewrite Hfs, E, Eq, Eu in R2.
        by destruct R2 as (-> & -> & ->).
    + destruct R as (-> & Hfs & _). rewrite Hfs, E, Eq in R2.
      by destruct R2 as (-> & -> & ->).
  - destruct R as (-> & Hfs & _). rewrite Hfs, E in R2. by destruct R2 as (-> & -> & ->).
Qed.

Lemma kv_json_patch_idempotent_witness :
  let first := KV.patchWranglerConfig "/work/wrangler.jsonc" "CACHE" "abc123"
                 scenarioC_world in
  let second := KV.patchWranglerConfig "/work/wrangler.jsonc" "CACHE" "abc123"
                  (snd first) in
  fst second = fst first /\ fs (snd second) = fs (snd first)
  /\ written (snd second) = written (snd first).
Proof.
  apply (kv_json_patch_idempotent "/work/wrangler.jsonc" "CACHE" "abc123"
           scenarioC_world).
  vm_compute; reflexivity.
Defined.

Lemma kv_patchToml_run configPath content binding namespaceId w :
  bool_decide (configPath ∈ readOnly (fs w)) = false ->
  KV.patchTomlConfig configPath content binding namespaceId w
  = (Ret true,
     withLines [(Success, "Updated wrangler.toml with KV binding")]
       (wrote configPath
          (withText (fs w) configPath
             (content +:+
              (if includes content "[[kv_namespaces]]"
               then nl +:+ KV.bindingBlock binding namespaceId
               else nl +:+ "# KV Namespaces" +:+ nl
                    +:+ KV.bindingBlock binding namespaceId))) w)).
Proof.
  intros Hw. unfold KV.patchTomlConfig. run.
  destruct (includes content "[[kv_namespaces]]"); rewrite Hw; reflexivity.
Qed.

(** X7. On a structured-text file the key-value patcher does not look for
    the binding: every call on a writable file returns [true] and appends one
    more [[[kv_namespaces]]] block to the text as it stands. The first call
    leaves the user's text followed by the block, with the heading
    [# KV Namespaces] before it exactly when the text had no
    [[[kv_namespaces]]]; the second call appends the block again, without a
    heading, so two calls leave the binding twice. Each call logs its one
    success line and writes the file once. *)
Theorem kv_toml_patch_appends_every_time (configPath content binding namespaceId : string)
  (w : World) :
  endsWith configPath ".toml" = true ->
  textFiles (fs w) !! configPath = Some content ->
  configPath ∉ readOnly (fs w) ->
  let block := KV.bindingBlock binding namespaceId in
  let once :=
    content +:+ (if includes content "[[kv_namespaces]]"
                 then nl +:+ block
                 else nl +:+ "# KV Namespaces" +:+ nl +:+ block) in
  let twice := once +:+ (nl +:+ block) in
  let done := (Success, "Updated wrangler.toml with KV binding") in
  let first := KV.patchWranglerConfig configPath binding namespaceId w in
  let second := KV.patchWranglerConfig configPath binding namespaceId (snd first) in
  first
  = (Ret true, withLines [done] (wrote configPath (withText (fs w) configPath once) w))
  /\ second
     = (Ret true,
        withLines [done]
          (wrote configPath (withText (fs (snd first)) configPath twice) (snd first)))
  /\ textFiles (fs (snd first)) !! configPath = Some once
  /\ textFiles (fs (snd second)) !! configPath = Some twice
  /\ (forall path, path <> configPath ->
        textFiles (fs (snd second)) !! path = textFiles (fs w) !! path)
  /\ written (snd second) = written w ++ [configPath; configPath].
Proof.
  intros Hext Hfile Hw. cbv zeta.
  assert (Hw' : bool_decide (configPath ∈ readOnly (fs w)) = false)
    by by apply bool_decide_eq_false_2.
  assert (Hrun : forall content' w',
            textFiles (fs w') !! configPath = Some content' ->
            KV.patchWranglerConfig configPath binding namespaceId w'
            = KV.patchTomlConfig configPath content' binding namespaceId w').
  { intros content' w' H'. unfold KV.patchWranglerConfig, tryCatch at 1.
    rewrite Hext. unfold bind at 1, readFile. rewrite H'.
    unfold KV.patchTomlConfig. run.
    destruct (includes content' "[[kv_namespaces]]");
      destruct (bool_decide (configPath ∈ readOnly (fs w'))); reflexivity. }
  rewrite (Hrun content w Hfile), (kv_patchToml_run _ _ _ _ _ Hw').
  set (once := content +:+ _).
  assert (Hin : includes once "[[kv_namespaces]]" = true).
  { unfold once. destruct (includes content "[[kv_namespaces]]") eqn:Ei.
    - by apply includes_app_r.
    - do 4 apply includes_app_l. unfold KV.bindingBlock. apply includes_prefix. }
  set (w1 := withLines _ (wrote configPath (withText (fs w) configPath once) w)).
  cbn [snd].
  assert (Hfile1 : textFiles (fs w1) !! configPath = Some once)
    by apply lookup_insert_eq.
  rewrite (Hrun once w1 Hfile1),
    (kv_patchToml_run configPath once binding namespaceId w1 Hw'), Hin.
  split; [done|]. split; [done|]. split; [done|]. split; [apply lookup_insert_eq|].
  split.
  - intros path Hne. cbn. by rewrite !lookup_insert_ne.
  - cbn. by rewrite <- app_assoc.
Qed.

Lemma kv_toml_patch_appends_every_time_witness :
  let w := worldWith {[ "/work/wrangler.toml" := "name = 'x'" ]} ∅ ∅ in
  let block := KV.bindingBlock "CACHE" "abc123" in
  let once := "name = 'x'" +:+ nl +:+ "# KV Namespaces" +:+ nl +:+ block in
  let twice := once +:+ (nl +:+ block) in
  let done := (Success, "Updated wrangler.toml with KV binding") in
  let first := KV.patchWranglerConfig "/work/wrangler.toml" "CACHE" "abc123" w in
  let second := KV.patchWranglerConfig "/work/wrangler.toml" "CACHE" "abc123" (snd first) in
  first
  = (Ret true,
     withLines [done] (wrote "/work/wrangler.toml"
                         (withText (fs w) "/work/wrangler.toml" once) w))
  /\ second
     = (Ret true,
        withLines [done]
          (wrote "/work/wrangler.toml"
             (withText (fs (snd first)) "/work/wrangler.toml" twice) (snd first)))
  /\ textFiles (fs (snd first)) !! "/work/wrangler.toml" = Some once
  /\ textFiles (fs (snd second)) !! "/work/wrangler.toml" = Some twice
  /\ (forall path, path <> "/work/wrangler.toml" ->
        textFiles (fs (snd second)) !! path = textFiles (fs w) !! path)
  /\ written (snd second) = written w ++ ["/work/wrangler.toml"; "/work/wrangler.toml"].
Proof.
  apply (kv_toml_patch_appends_every_time "/work/wrangler.toml" "name = 'x'"
           "CACHE" "abc123" (worldWith {[ "/work/wrangler.toml" := "name = 'x'" ]} ∅ ∅)).
  - vm_compute; reflexivity.
  - vm_compute; reflexivity.
  - simpl. apply not_elem_of_empty.
Defined.

(* ===================================================================== *)
(** * Further properties of the registry *)
(* ===================================================================== *)

Lemma Map_get_set_ne {V} key key' (v : V) entries :
  key <> key' -> Map.get key' (Map.set key v entries) = Map.get key' entries.
Proof.
  intros Hne. induction entries as [|[k x] entries IH]; simpl.
  - apply String.eqb_neq in Hne. by rewrite Hne.
  - destruct (String.eqb_spec k key) as [->|Hk]; simpl.
    + apply String.eqb_neq in Hne. by rewrite Hne.
    + by rewrite IH.
Qed.

Lemma registry_get_latest calls key :
  PrimitiveRegistry.get key (registerAll calls) = latest key calls.
Proof.
  induction calls as [|p calls IH] using rev_ind; [done|].
  rewrite registerAll_snoc, latest_snoc.
  unfold PrimitiveRegistry.get, PrimitiveRegistry.register in *.
  destruct (String.eqb_spec (id p) key) as [<-|Hne].
  - apply Map_get_set.
  - by rewrite Map_get_set_ne.
Qed.

Lemma latest_None key calls : key ∉ map id calls -> latest key calls = None.
Proof.
  intros H. unfold latest. destruct (List.find _ (rev calls)) as [p|] eqn:E; [|done].
  apply List.find_some in E as [Hin Hp]. apply String.eqb_eq in Hp.
  exfalso. apply H. apply list_elem_of_In, in_map_iff. exists p.
  split; [done|]. by apply in_rev.
Qed.

Lemma registrationOrder_ids calls :
  map id (registrationOrder calls) = firstRegistered (map id calls).
Proof.
  unfold registrationOrder.
  assert (H : forall keys, (forall k, k ∈ keys -> k ∈ map id calls) ->
            map id (omap (fun key => latest key calls) keys) = keys).
  { induction keys as [|k keys IH]; intros Hk; [done|].
    cbn. destruct (latest_is_Some k calls (Hk k (list_elem_of_here _ _))) as [p Hp].
    rewrite Hp. cbn. rewrite (latest_id _ _ _ Hp). f_equal.
    apply IH. intros k' Hk'. apply Hk. by apply list_elem_of_further. }
  apply H. intros k. apply firstRegistered_elem.
Qed.

(** X8. After any sequence of [register] calls, [get] returns the primitive
    registered last under the id (nothing for an id never registered),
    [has] tells whether the id was registered, what [get] returns carries the
    id asked for and is listed by [getAll], and no two primitives listed by
    [getAll] share an id. *)
Theorem registry_lookup_and_distinct_ids (calls : list Primitive) (key : string) :
  let primitives := registerAll calls in
  PrimitiveRegistry.get key primitives = latest key calls
  /\ PrimitiveRegistry.has key primitives = bool_decide (key ∈ map id calls)
  /\ match PrimitiveRegistry.get key primitives with
     | Some p => id p = key /\ p ∈ PrimitiveRegistry.getAll primitives
     | None => True
     end
  /\ NoDup (map id (PrimitiveRegistry.getAll primitives)).
Proof.
  simpl. split; [apply registry_get_latest|]. split; [|split].
  - unfold PrimitiveRegistry.has, Map.has.
    change (Map.get key (registerAll calls))
      with (PrimitiveRegistry.get key (registerAll calls)).
    rewrite registry_get_latest. case_bool_decide as Hk.
    + by destruct (latest_is_Some _ _ Hk) as [p ->].
    + by rewrite latest_None.
  - rewrite registry_get_latest, getAll_registrationOrder.
    destruct (latest key calls) as [p|] eqn:Hp; [|done].
    split; [by apply latest_id in Hp|].
    unfold registrationOrder. apply list_elem_of_omap. exists key. split; [|done].
    apply firstRegistered_elem.
    destruct (decide (key ∈ map id calls)) as [|Hn]; [done|].
    by rewrite (latest_None _ _ Hn) in Hp.
  - rewrite getAll_registrationOrder, registrationOrder_ids.
    apply firstRegistered_NoDup.
Qed.

(** X9. Registering a primitive under an id the registry does not have
    puts it at the end of the order of [getAll] and leaves the others where
    they were. *)
Theorem register_new_id_appends (calls : list Primitive) (p : Primitive) :
  PrimitiveRegistry.has (id p) (registerAll calls) = false ->
  PrimitiveRegistry.getAll (PrimitiveRegistry.register p (registerAll calls))
  = PrimitiveRegistry.getAll (registerAll calls) ++ [p].
Proof.
  unfold PrimitiveRegistry.has, PrimitiveRegistry.getAll, PrimitiveRegistry.register,
    Map.has, Map.values.
  induction (registerAll calls) as [|[k x] entries IH]; simpl; [done|].
  destruct (String.eqb_spec k (id p)) as [->|Hne]; [discriminate|].
  intros H. simpl. by rewrite IH.
Qed.

Lemma register_new_id_appends_witness :
  PrimitiveRegistry.getAll
    (PrimitiveRegistry.register WorkerOnlyPrimitive.primitive
       (registerAll [QueuesPrimitive.primitive Sample.templates]))
  = PrimitiveRegistry.getAll (registerAll [QueuesPrimitive.primitive Sample.templates])
    ++ [WorkerOnlyPrimitive.primitive].
Proof.
  apply (register_new_id_appends [QueuesPrimitive.primitive Sample.templates]
           WorkerOnlyPrimitive.primitive).
  reflexivity.
Defined.

(* ===================================================================== *)
(** * Further properties of detection *)
(* ===================================================================== *)

Lemma firstExisting_find candidates w :
  firstExisting candidates w
  = (Ret (List.find (fun c => exists_in (fs w) (snd c)) candidates), w).
Proof.
  induction candidates as [|[dir filePath] rest IH]; simpl; [done|].
  unfold bind, pathExists. by destruct (exists_in (fs w) filePath).
Qed.

Lemma eqb_length (s t : string) : String.eqb s t = true -> String.length s = String.length t.
Proof. by intros ->%String.eqb_eq. Qed.

Lemma length_app (s t : string) :
  String.length (s +:+ t) = (String.length s + String.length t)%nat.
Proof.
  induction s as [|c s IH]; [done|].
  change (S (String.length (s +:+ t)) = S (String.length s + String.length t)).
  by rewrite IH.
Qed.

(** A path ends with the extension of its file name, whatever the directory,
    when the name is longer than the extension. *)
Lemma endsWith_path_join dir name ext :
  (String.length ext <= String.length name)%nat ->
  endsWith (path_join dir name) ext = endsWith ("/" +:+ name) ext.
Proof.
  intros Hlen. unfold path_join. induction dir as [|c dir IH]; [done|].
  change (String c dir +:+ "/" +:+ name) with (String c (dir +:+ "/" +:+ name)).
  cbn [endsWith]. rewrite IH.
  destruct (String.eqb _ ext) eqn:E; [|done].
  apply eqb_length in E. simpl in E. rewrite length_app in E.
  change (String.length ("/" +:+ name)) with (S (String.length name)) in E. lia.
Qed.

(** X10. Detection only looks: it leaves the world as it is. The
    configuration file it reports is the first that exists of
    [wrangler.jsonc], [wrangler.json] and [wrangler.toml]; the project is a
    Worker project exactly when there is one; the type reported is [toml]
    exactly when the path ends in [.toml], the test by which the patchers
    choose how to read the file. The entry file is looked for only in a
    Worker project, is the first that exists of the eight common locations,
    and [srcDir] is the directory of that location. *)
Theorem detection_only_looks (w : World) :
  let dir := cwd w in
  let present := exists_in (fs w) in
  exists context,
    detectProjectContext w = (Ret context, w)
    /\ hasPackageJson context = present (path_join dir "package.json")
    /\ wranglerConfigPath context
       = List.find present [path_join dir "wrangler.jsonc"; path_join dir "wrangler.json";
                            path_join dir "wrangler.toml"]
    /\ isWorkerProject context = bool_decide (is_Some (wranglerConfigPath context))
    /\ match wranglerConfigPath context, wranglerConfigType context with
       | Some configPath, Some toml => endsWith configPath ".toml" = true
       | Some configPath, Some jsonc_ => endsWith configPath ".toml" = false
       | None, None => True
       | _, _ => False
       end
    /\ entryFilePath context
       = (if isWorkerProject context
          then List.find present (map snd (possiblePaths dir)) else None)
    /\ match entryFilePath context, srcDir context with
       | Some entry, Some src => (src, entry) ∈ possiblePaths dir
       | None, None => True
       | _, _ => False
       end.
Proof.
  cbv zeta. unfold detectProjectContext, detectEntryFile.
  unfold bind at 1, process_cwd. cbv beta iota.
  unfold bind at 1, pathExists at 1. cbv beta iota.
  unfold bind at 1, pathExists at 1. cbv beta iota.
  assert (Hentry : match List.find (fun c => exists_in (fs w) (snd c)) (possiblePaths (cwd w)) with
                   | Some c => c ∈ possiblePaths (cwd w)
                   | None => True
                   end).
  { destruct (List.find _ _) as [c|] eqn:E; [|done].
    apply List.find_some in E as [E _]. by apply list_elem_of_In. }
  assert (Hfind : snd <$> List.find (fun c => exists_in (fs w) (snd c)) (possiblePaths (cwd w))
                  = List.find (exists_in (fs w)) (map snd (possiblePaths (cwd w)))).
  { generalize (possiblePaths (cwd w)). induction l as [|[d e] l IH]; [done|].
    simpl. by destruct (exists_in (fs w) e). }
  assert (Hj : endsWith (path_join (cwd w) "wrangler.jsonc") ".toml" = false)
    by by rewrite endsWith_path_join by (simpl; lia).
  assert (Hs : endsWith (path_join (cwd w) "wrangler.json") ".toml" = false)
    by by rewrite endsWith_path_join by (simpl; lia).
  assert (Ht : endsWith (path_join (cwd w) "wrangler.toml") ".toml" = true)
    by by rewrite endsWith_path_join by (simpl; lia).
  set (entries := List.find (exists_in (fs w)) (map snd (possiblePaths (cwd w)))) in *.
  cbn [List.find].
  destruct (exists_in (fs w) (path_join (cwd w) "wrangler.jsonc")).
  { unfold bind at 1, ret at 1. cbv beta iota. unfold bind at 1.
    rewrite firstExisting_find. unfold ret. eexists. split; [reflexivity|].
    cbn [hasPackageJson wranglerConfigPath wranglerConfigType isWorkerProject
         entryFilePath srcDir fmap option_fmap option_map fst snd].
    rewrite <- Hfind.
    destruct (List.find _ (possiblePaths (cwd w))) as [[d e]|]; repeat split; done. }
  unfold bind at 1. unfold bind at 1, pathExists at 1. cbv beta iota.
  destruct (exists_in (fs w) (path_join (cwd w) "wrangler.json")).
  { unfold ret at 1. cbv beta iota. unfold bind at 1.
    rewrite firstExisting_find. unfold ret. eexists. split; [reflexivity|].
    cbn [hasPackageJson wranglerConfigPath wranglerConfigType isWorkerProject
         entryFilePath srcDir fmap option_fmap option_map fst snd].
    rewrite <- Hfind.
    destruct (List.find _ (possiblePaths (cwd w))) as [[d e]|]; repeat split; done. }
  unfold bind at 1, pathExists at 1. cbv beta iota.
  destruct (exists_in (fs w) (path_join (cwd w) "wrangler.toml")).
  { unfold ret at 1. cbv beta iota. unfold bind at 1.
    rewrite firstExisting_find. unfold ret. eexists. split; [reflexivity|].
    cbn [hasPackageJson wranglerConfigPath wranglerConfigType isWorkerProject
         entryFilePath srcDir fmap option_fmap option_map fst snd].
    rewrite <- Hfind.
    destruct (List.find _ (possiblePaths (cwd w))) as [[d e]|]; repeat split; done. }
  unfold ret, bind. eexists. split; [reflexivity|]. repeat split; done.
Qed.

(* ===================================================================== *)
(** * What the flows keep *)
(* ===================================================================== *)

Section Keeps.
Context (Q : FileSystem -> Prop) (dir : string).

Lemma keeps_ret {A} (a : A) : keeps Q dir (ret a).
Proof. by intros w H. Qed.

Lemma keeps_throw {A} message : keeps Q dir (@throw A message).
Proof. by intros w H. Qed.

Lemma keeps_exit {A} code : keeps Q dir (@process_exit A code).
Proof. by intros w H. Qed.

Lemma keeps_bind {A B} (m : M A) (k : A -> M B) :
  keeps Q dir m -> (forall a, keeps Q dir (k a)) -> keeps Q dir (bind m k).
Proof.
  intros Hm Hk w H. specialize (Hm w H). unfold bind.
  destruct (m w) as [[a | e | c] w']; simpl in *; try done. by apply Hk.
Qed.

Lemma keeps_tryCatch {A} (body : M A) handler :
  keeps Q dir body -> (forall e, keeps Q dir (handler e)) ->
  keeps Q dir (tryCatch body handler).
Proof.
  intros Hm Hk w H. specialize (Hm w H). unfold tryCatch.
  destruct (body w) as [[a | e | c] w']; simpl in *; try done. by apply Hk.
Qed.

Lemma keeps_log level message : keeps Q dir (log level message).
Proof. by intros w H. Qed.

Lemma keeps_cwd : keeps Q dir process_cwd.
Proof. by intros w H. Qed.

(** What follows [process.cwd()] runs with the working directory. *)
Lemma keeps_bind_cwd {B} (k : string -> M B) :
  keeps Q dir (k dir) -> keeps Q dir (bind process_cwd k).
Proof.
  intros Hk w H. unfold bind, process_cwd. destruct H as (? & <- & ?). by apply Hk.
Qed.

Lemma keeps_pathExists path : keeps Q dir (pathExists path).
Proof. by intros w H. Qed.

Lemma keeps_prompts : keeps Q dir prompts.
Proof. intros w H. unfold prompts. by destruct (answers w). Qed.

Lemma keeps_execa file args d : keeps Q dir (execa file args d).
Proof.
  intros w H. unfold execa.
  destruct (processes w) as [|p rest] eqn:E; [exact H|].
  destruct H as (HQ & Hd & Hp). rewrite E in Hp.
  apply Forall_cons in Hp as [Hp Hrest].
  destruct (failure p); (split; [exact (Hp _ HQ) | split; [exact Hd | exact Hrest]]).
Qed.

Lemma keeps_logAll lines : keeps Q dir (logAll lines).
Proof.
  induction lines as [|line rest IH]; simpl; [apply keeps_ret|].
  apply keeps_bind; [apply keeps_log | done].
Qed.

Lemma keeps_logIndented lines : keeps Q dir (logIndented lines).
Proof.
  induction lines as [|line rest IH]; simpl; [apply keeps_ret|].
  apply keeps_bind; [apply keeps_log | done].
Qed.

Lemma keeps_logNumbered i lines : keeps Q dir (logNumbered i lines).
Proof.
  revert i; induction lines as [|line rest IH]; intros i; simpl; [apply keeps_ret|].
  apply keeps_bind; [apply keeps_log | done].
Qed.

End Keeps.

(** Taking a computation apart. *)
Ltac keeps_unfold :=
  unfold logger.success, logger.error, logger.info, logger.warn, logger.step,
    logger.intro, console_log, coloredPrompts.

Ltac keeps_step :=
  lazymatch goal with
  | |- keeps _ _ (ret _) => apply keeps_ret
  | |- keeps _ _ (throw _) => apply keeps_throw
  | |- keeps _ _ (process_exit _) => apply keeps_exit
  | |- keeps _ _ (log _ _) => apply keeps_log
  | |- keeps _ _ (console_log _) => apply keeps_log
  | |- keeps _ _ (logger.success _) => apply keeps_log
  | |- keeps _ _ (logger.error _) => apply keeps_log
  | |- keeps _ _ (logger.info _) => apply keeps_log
  | |- keeps _ _ (logger.warn _) => apply keeps_log
  | |- keeps _ _ (logger.step _) => apply keeps_log
  | |- keeps _ _ (logger.intro _) => apply keeps_log
  | |- keeps _ _ coloredPrompts => apply keeps_prompts
  | |- keeps _ _ process_cwd => apply keeps_cwd
  | |- keeps _ _ (pathExists _) => apply keeps_pathExists
  | |- keeps _ _ prompts => apply keeps_prompts
  | |- keeps _ _ (execa _ _ _) => apply keeps_execa
  | |- keeps _ _ (logAll _) => apply keeps_logAll
  | |- keeps _ _ (logIndented _) => apply keeps_logIndented
  | |- keeps _ _ (logNumbered _ _) => apply keeps_logNumbered
  | |- keeps _ _ (bind process_cwd _) => apply keeps_bind_cwd
  | |- keeps _ _ (bind _ _) => apply keeps_bind; [|intros ?]
  | |- keeps _ _ (tryCatch _ _) => apply keeps_tryCatch; [|intros ?]
  | |- keeps _ _ (if ?b then _ else _) => destruct b
  | |- keeps _ _ (match ?x with _ => _ end) => destruct x
  end.

Section SameFile.
Context (f0 : FileSystem) (path dir : string).

Lemma exists_in_withText f p content q :
  exists_in f q = true -> exists_in (withText f p content) q = true.
Proof.
  unfold exists_in; simpl. intros H.
  apply orb_true_iff in H as [H|H]; [|by rewrite H, orb_true_r].
  apply orb_true_iff in H as [H|H]; [|by rewrite H, orb_true_r].
  apply bool_decide_eq_true in H.
  rewrite (bool_decide_eq_true_2 (q ∈ dom (<[p:=content]> (textFiles f)))); [done|].
  rewrite dom_insert. set_solver.
Qed.

Lemma exists_in_withJsonc f p content q :
  exists_in f q = true -> exists_in (withJsonc f p content) q = true.
Proof.
  unfold exists_in; simpl. intros H.
  apply orb_true_iff in H as [H|H]; [|by rewrite H, orb_true_r].
  apply orb_true_iff in H as [H|H]; [by rewrite H|].
  apply bool_decide_eq_true in H.
  rewrite (bool_decide_eq_true_2 (q ∈ dom (<[p:=content]> (jsoncFiles f))));
    [by rewrite orb_true_r|].
  rewrite dom_insert. set_solver.
Qed.

Lemma sameFile_withText f p content :
  p <> path -> sameFile f0 path f -> sameFile f0 path (withText f p content).
Proof.
  intros Hne (H1 & H2 & H3). split; [|split].
  - simpl. by rewrite lookup_insert_ne.
  - done.
  - by apply exists_in_withText.
Qed.

Lemma sameFile_withJsonc f p content :
  p <> path -> sameFile f0 path f -> sameFile f0 path (withJsonc f p content).
Proof.
  intros Hne (H1 & H2 & H3). split; [|split].
  - done.
  - simpl. by rewrite lookup_insert_ne.
  - by apply exists_in_withJsonc.
Qed.

Lemma keeps_ensureDir d : keeps (sameFile f0 path) dir (ensureDir d).
Proof.
  intros w ((H1 & H2 & H3) & Hd & Hp). split; [|done]. simpl.
  split; [done|]. split; [done|].
  unfold exists_in in *; simpl.
  apply orb_true_iff in H3 as [H|H]; [by rewrite H|].
  apply bool_decide_eq_true in H.
  rewrite (bool_decide_eq_true_2 (path ∈ {[d]} ∪ dirs (fs w))); [apply orb_true_r|].
  set_solver.
Qed.

Lemma keeps_writeFile p content :
  p <> path -> keeps (sameFile f0 path) dir (writeFile p content).
Proof.
  intros Hne w (HQ & Hd & Hp). unfold writeFile.
  destruct (bool_decide (p ∈ readOnly (fs w))); [done|].
  split; [|done]. simpl. by apply (sameFile_withText (fs w)).
Qed.

(** A file that is there is not one [createUnlessExists] writes. *)
Lemma keeps_createUnlessExists p content warning created :
  keeps (sameFile f0 path) dir (createUnlessExists p content warning created).
Proof.
  intros w H. unfold createUnlessExists, bind at 1, pathExists.
  destruct (exists_in (fs w) p) eqn:E.
  - by apply keeps_log.
  - assert (p <> path).
    { intros ->. destruct H as ((_ & _ & H) & _). congruence. }
    revert w H E. 
    change (forall w, stable (sameFile f0 path) dir w -> exists_in (fs w) p = false ->
              stable (sameFile f0 path) dir
                (snd ((writeFile p content;; logger.success created) w))).
    intros w H _. revert w H.
    apply keeps_bind; [by apply keeps_writeFile | intros; apply keeps_log].
Qed.

Lemma keeps_patch configPath config :
  configPath <> path ->
  keeps (sameFile f0 path) dir (patchWranglerConfigForQueues configPath config).
Proof.
  intros Hne w (HQ & Hd & Hp).
  destruct (patchWrangler_run configPath config w) as (b & w' & E & Hc & _ & Hpr & R).
  rewrite E; simpl. split; [|by rewrite Hc, Hpr].
  assert (Hfs : fs w' = fs w
                \/ (exists c, fs w' = withText (fs w) configPath c)
                \/ (exists c, fs w' = withJsonc (fs w) configPath c)).
  { unfold patchResult in R.
    repeat match type of R with
           | context [match ?x with _ => _ end] => destruct x
           | _ /\ _ => destruct R as [_ R]
           end; eauto. }
  destruct Hfs as [-> | [[c ->] | [c ->]]]; [done | |].
  - by apply sameFile_withText.
  - by apply sameFile_withJsonc.
Qed.

End SameFile.

Lemma keeps_legacy_existing t context f0 path dir :
  wranglerConfigPath context <> Some path ->
  keeps (sameFile f0 path) dir (runExistingProjectFlow t context).
Proof.
  intros Hne. unfold runExistingProjectFlow, promptExistingQueueProject.
  keeps_unfold.
  apply keeps_bind; [repeat keeps_step|]. intros [choices|]; [|repeat keeps_step].
  destruct (wranglerConfigPath context) as [configPath|] eqn:Ec;
    [|simpl; repeat keeps_step].
  destruct (falsy (Some configPath)); [repeat keeps_step|].
  apply keeps_bind; [keeps_step|]. intros _.
  apply keeps_bind; [apply keeps_patch; simpl; congruence|]. intros [|]; simpl;
    [|repeat keeps_step].
  apply keeps_bind; [keeps_step|]. intros _.
  apply keeps_bind_cwd.
  apply keeps_bind; [apply keeps_ensureDir|]. intros _.
  apply keeps_bind; [apply keeps_createUnlessExists|]. intros _.
  apply keeps_bind; [apply keeps_createUnlessExists|]. intros _.
  apply keeps_bind; [apply keeps_createUnlessExists|]. intros _.
  repeat keeps_step.
Qed.

(** X11. The older existing-project flow never overwrites: whatever the
    user answers and however the flow ends, a file that was there when it
    started, other than the configuration file, has the content it had
    (provided the one process the flow may run, [wrangler queues create],
    leaves the files alone). *)
Theorem legacy_existing_flow_keeps_existing_files (t : Templates)
  (context : ProjectContext) (w : World) (path : string) :
  exists_in (fs w) path = true ->
  wranglerConfigPath context <> Some path ->
  Forall (fun p => forall f, effect p f = f) (processes w) ->
  let w' := snd (runExistingProjectFlow t context w) in
  textFiles (fs w') !! path = textFiles (fs w) !! path
  /\ jsoncFiles (fs w') !! path = jsoncFiles (fs w) !! path.
Proof.
  intros Hex Hne Hp. simpl.
  destruct (keeps_legacy_existing t context (fs w) path (cwd w) Hne w) as ((H1 & H2 & _) & _).
  - split; [by split|]. split; [done|].
    eapply Forall_impl; [exact Hp|]. intros p Hid f Hf. by rewrite Hid.
  - done.
Qed.

Lemma legacy_existing_flow_keeps_existing_files_witness :
  let w := Sample.existingProjectWorld
             [{| texts := <["action" := "add-minimal"]>
                            (<["queueName" := "demo-queue"]>
                               {[ "bindingName" := "DEMO_QUEUE" ]});
                 flags := ∅ |}] in
  let w' := snd (runExistingProjectFlow Sample.templates Sample.existingContext w) in
  textFiles (fs w') !! "/work/src/index.ts" = textFiles (fs w) !! "/work/src/index.ts"
  /\ jsoncFiles (fs w') !! "/work/src/index.ts" = jsoncFiles (fs w) !! "/work/src/index.ts".
Proof.
  apply (legacy_existing_flow_keeps_existing_files Sample.templates Sample.existingContext
           (Sample.existingProjectWorld
              [{| texts := <["action" := "add-minimal"]>
                             (<["queueName" := "demo-queue"]>
                                {[ "bindingName" := "DEMO_QUEUE" ]});
                  flags := ∅ |}])
           "/work/src/index.ts").
  - vm_compute; reflexivity.
  - discriminate.
  - constructor.
Defined.

Section Untouched.
Context (f0 : FileSystem) (path dir : string).

Lemma keeps_untouched_ensureDir d : keeps (untouched f0 path) dir (ensureDir d).
Proof. by intros w H. Qed.

Lemma keeps_untouched_writeFile p content :
  p <> path -> keeps (untouched f0 path) dir (writeFile p content).
Proof.
  intros Hne w ((H1 & H2) & Hd & Hp). unfold writeFile.
  destruct (bool_decide (p ∈ readOnly (fs w))); [done|].
  split; [|done]. split; [|done]. simpl. by rewrite lookup_insert_ne.
Qed.

Lemma keeps_untouched_patch configPath config :
  configPath <> path ->
  keeps (untouched f0 path) dir (patchWranglerConfigForQueues configPath config).
Proof.
  intros Hne w ((H1 & H2) & Hd & Hp).
  destruct (patchWrangler_run configPath config w) as (b & w' & E & Hc & _ & Hpr & R).
  rewrite E; simpl. split; [|by rewrite Hc, Hpr].
  assert (Hfs : fs w' = fs w
                \/ (exists c, fs w' = withText (fs w) configPath c)
                \/ (exists c, fs w' = withJsonc (fs w) configPath c)).
  { unfold patchResult in R.
    repeat match type of R with
           | context [match ?x with _ => _ end] => destruct x
           | _ /\ _ => destruct R as [_ R]
           end; eauto. }
  destruct Hfs as [-> | [[c ->] | [c ->]]]; [done | |];
    (split; simpl; rewrite ?lookup_insert_ne by done; done).
Qed.

Lemma keeps_untouched_generateFiles t projectDir config :
  path ∉ generatedFiles projectDir ->
  keeps (untouched f0 path) dir (QueuesPrimitive.generateFiles t projectDir config).
Proof.
  intros Hne. unfold QueuesPrimitive.generateFiles, generatedFiles in *. keeps_unfold.
  apply keeps_bind; [apply keeps_untouched_ensureDir|]. intros _.
  apply keeps_bind; [apply keeps_untouched_writeFile; set_solver|]. intros _.
  apply keeps_bind; [apply keeps_untouched_writeFile; set_solver|]. intros _.
  apply keeps_bind; [apply keeps_untouched_writeFile; set_solver|]. intros _.
  apply keeps_log.
Qed.

End Untouched.

Lemma keeps_generic_existing t config context f0 path dir :
  wranglerConfigPath context <> Some path ->
  path ∉ generatedFiles dir ->
  keeps (untouched f0 path) dir
    (runGenericExistingFlow (QueuesPrimitive.primitive t) config context).
Proof.
  intros Hne Hgen. unfold runGenericExistingFlow. keeps_unfold.
  destruct (wranglerConfigPath context) as [configPath|] eqn:Ec;
    [|simpl; repeat keeps_step].
  destruct (falsy (Some configPath)); [repeat keeps_step|].
  cbn [patchConfig generateFiles preDeploySteps id name QueuesPrimitive.primitive].
  apply keeps_bind.
  { apply keeps_bind; [keeps_step|]. intros _.
    apply keeps_bind; [apply keeps_untouched_patch; simpl; congruence|].
    intros [|]; simpl; repeat keeps_step. }
  intros _.
  apply keeps_bind; [keeps_step|]. intros _.
  apply keeps_bind_cwd.
  apply keeps_bind; [apply keeps_untouched_ensureDir|]. intros _.
  apply keeps_bind; [by apply keeps_untouched_generateFiles|]. intros _.
  unfold QueuesPrimitive.preDeploySteps, deploymentInfo. keeps_unfold.
  repeat keeps_step.
Qed.

(** X12. The generic existing-project flow with the queues primitive writes
    nothing but the configuration file and the three generated files
    [src/index.ts], [src/event-store.ts] and [src/dashboard.html] of the
    working directory: every other path is as it was, however the flow
    ends (provided [wrangler queues create] leaves the files alone). *)
Theorem generic_existing_flow_writes_only_generated_files (t : Templates)
  (config : PrimitiveConfig) (context : ProjectContext) (w : World) (path : string) :
  wranglerConfigPath context <> Some path ->
  path ∉ generatedFiles (cwd w) ->
  Forall (fun p => forall f, effect p f = f) (processes w) ->
  let w' := snd (runGenericExistingFlow (QueuesPrimitive.primitive t) config context w) in
  textFiles (fs w') !! path = textFiles (fs w) !! path
  /\ jsoncFiles (fs w') !! path = jsoncFiles (fs w) !! path.
Proof.
  intros Hne Hgen Hp. simpl.
  destruct (keeps_generic_existing t config context (fs w) path (cwd w) Hne Hgen w)
    as (H & _); [|done].
  split; [by split|]. split; [done|].
  eapply Forall_impl; [exact Hp|]. intros p Hid f Hf. by rewrite Hid.
Qed.

Lemma generic_existing_flow_writes_only_generated_files_witness :
  let w := Sample.existingProjectWorld [] in
  let w' := snd (runGenericExistingFlow (QueuesPrimitive.primitive Sample.templates)
                   Sample.config Sample.existingContext w) in
  textFiles (fs w') !! "/work/src/routes.ts" = textFiles (fs w) !! "/work/src/routes.ts"
  /\ jsoncFiles (fs w') !! "/work/src/routes.ts" = jsoncFiles (fs w) !! "/work/src/routes.ts".
Proof.
  apply (generic_existing_flow_writes_only_generated_files Sample.templates Sample.config
           Sample.existingContext (Sample.existingProjectWorld []) "/work/src/routes.ts").
  - discriminate.
  - unfold generatedFiles. rewrite !elem_of_cons, elem_of_nil.
    intros [H|[H|[H|[]]]]; vm_compute in H; discriminate H.
  - constructor.
Defined.

(* ===================================================================== *)
(** * Further properties of the new-project flow *)
(* ===================================================================== *)

(** X13. The new-project flow ends with exit code 1 before the primitive is
    asked for anything (no patch, no generated file), whatever the
    primitive: when the configuration has no project name; when the target
    directory is there already (nothing has run then); when
    create-cloudflare fails; and when the project it generated has none of
    the three configuration files. In the last two cases the files are as
    create-cloudflare left them. *)
Theorem new_flow_stops_before_configuring (primitive : Primitive)
  (config : PrimitiveConfig) (context : ProjectContext) (w : World) :
  (falsy (config !! "projectName") = true ->
   runGenericNewFlow primitive config context w
   = (Exit 1, withLines [(Error, "Project name is required")] w))
  /\ (forall projectName,
        config !! "projectName" = Some projectName ->
        projectName <> EmptyString ->
        (exists_in (fs w) (path_join (cwd w) projectName) = true ->
         runGenericNewFlow primitive config context w
         = (Exit 1,
            withLines [(Error, "Directory " +:+ quoted projectName +:+ " already exists")]
              w))
        /\ (forall p later message,
              exists_in (fs w) (path_join (cwd w) projectName) = false ->
              processes w = p :: later ->
              failure p = Some message ->
              runGenericNewFlow primitive config context w
              = (Exit 1,
                 withLines
                   [(Error, "Failed to run create-cloudflare");
                    (Info, "Make sure you have npm installed and internet connection")]
                   (afterProcess p later
                      (withLines
                         [(Step, "Creating Worker project with create-cloudflare...")] w))))
        /\ (forall p later,
              exists_in (fs w) (path_join (cwd w) projectName) = false ->
              processes w = p :: later ->
              failure p = None ->
              let projectDir := path_join (cwd w) projectName in
              exists_in (effect p (fs w)) (path_join projectDir "wrangler.jsonc") = false ->
              exists_in (effect p (fs w)) (path_join projectDir "wrangler.json") = false ->
              exists_in (effect p (fs w)) (path_join projectDir "wrangler.toml") = false ->
              runGenericNewFlow primitive config context w
              = (Exit 1,
                 withLines
                   [(Success, "Base Worker project created");
                    (Error, "Could not find wrangler config in the generated project")]
                   (afterProcess p later
                      (withLines
                         [(Step, "Creating Worker project with create-cloudflare...")] w))))).
Proof.
  split.
  { intros Hf. unfold runGenericNewFlow. rewrite Hf. reflexivity. }
  intros projectName Hc Hne. split; [|split].
  - intros Hex. unfold runGenericNewFlow. rewrite Hc, (falsy_Some _ Hne). simpl str.
    unfold bind at 1, process_cwd. cbv beta iota.
    unfold bind at 1, pathExists. cbv beta iota. rewrite Hex. reflexivity.
  - intros p later message Hex Hp Hfail. unfold runGenericNewFlow.
    rewrite Hc, (falsy_Some _ Hne). simpl str.
    unfold bind at 1, process_cwd. cbv beta iota.
    unfold bind at 1, pathExists. cbv beta iota. rewrite Hex.
    unfold GenericNew.scaffold, execa. run. rewrite Hp. simpl. rewrite Hfail. simpl.
    unfold withLines, afterProcess. simpl. by rewrite <- app_assoc.
  - intros p later Hex Hp Hfail projectDir H1 H2 H3. unfold runGenericNewFlow.
    rewrite Hc, (falsy_Some _ Hne). simpl str.
    unfold bind at 1, process_cwd. cbv beta iota.
    unfold bind at 1, pathExists. cbv beta iota. rewrite Hex.
    unfold GenericNew.scaffold, execa. run. rewrite Hp. simpl. rewrite Hfail. simpl.
    subst projectDir. rewrite H1. simpl. rewrite H2. simpl. rewrite H3. simpl.
    unfold withLines, afterProcess. simpl. by rewrite <- !app_assoc.
Qed.

Lemma new_flow_stops_before_configuring_witness :
  let primitive := QueuesPrimitive.primitive Sample.templates in
  let idle := {| effect := fun f => f; failure := None |} in
  let started w :=
    withLines [(Step, "Creating Worker project with create-cloudflare...")] w in
  let world later :=
    {| fs := {| textFiles := ∅; jsoncFiles := ∅; dirs := {["/work"]}; readOnly := ∅ |};
       console := []; cwd := "/work"; answers := []; processes := later;
       written := [] |} in
  runGenericNewFlow primitive ∅ Sample.newContext (worldWith ∅ ∅ ∅)
  = (Exit 1, withLines [(Error, "Project name is required")] (worldWith ∅ ∅ ∅))
  /\ runGenericNewFlow primitive Sample.config Sample.newContext
       (worldWith ∅ ∅ {["/work/my-app"]})
     = (Exit 1,
        withLines [(Error, "Directory " +:+ quoted "my-app" +:+ " already exists")]
          (worldWith ∅ ∅ {["/work/my-app"]}))
  /\ runGenericNewFlow primitive Sample.config Sample.newContext
       (world [Sample.failingProcess])
     = (Exit 1,
        withLines
          [(Error, "Failed to run create-cloudflare");
           (Info, "Make sure you have npm installed and internet connection")]
          (afterProcess Sample.failingProcess [] (started (world [Sample.failingProcess]))))
  /\ runGenericNewFlow primitive Sample.config Sample.newContext (world [idle])
     = (Exit 1,
        withLines
          [(Success, "Base Worker project created");
           (Error, "Could not find wrangler config in the generated project")]
          (afterProcess idle [] (started (world [idle])))).
Proof.
  intros primitive idle started world. split; [|split; [|split]].
  - apply (new_flow_stops_before_configuring primitive ∅ Sample.newContext
             (worldWith ∅ ∅ ∅)).
    reflexivity.
  - apply (proj1 (proj2 (new_flow_stops_before_configuring primitive Sample.config
                           Sample.newContext (worldWith ∅ ∅ {["/work/my-app"]}))
                    "my-app" eq_refl ltac:(discriminate))).
    vm_compute; reflexivity.
  - eapply (proj1 (proj2 (proj2 (new_flow_stops_before_configuring primitive Sample.config
                                   Sample.newContext (world [Sample.failingProcess]))
                            "my-app" eq_refl ltac:(discriminate)))).
    + vm_compute; reflexivity.
    + reflexivity.
    + reflexivity.
  - eapply (proj2 (proj2 (proj2 (new_flow_stops_before_configuring primitive Sample.config
                                   Sample.newContext (world [idle]))
                            "my-app" eq_refl ltac:(discriminate)))).
    + vm_compute; reflexivity.
    + reflexivity.
    + reflexivity.
    + vm_compute; reflexivity.
    + vm_compute; reflexivity.
    + vm_compute; reflexivity.
Defined.

(* ===================================================================== *)
(** * The deployment step always returns *)
(* ===================================================================== *)

Lemma returns_ret {A} (a : A) : returns (ret a).
Proof. intros w. by eexists _, _. Qed.

Lemma returns_log level message : returns (log level message).
Proof. intros w. by eexists _, _. Qed.

Lemma returns_prompts : returns prompts.
Proof. intros w. unfold prompts. destruct (answers w); by eexists _, _. Qed.

Lemma returns_bind {A B} (m : M A) (k : A -> M B) :
  returns m -> (forall a, returns (k a)) -> returns (bind m k).
Proof.
  intros Hm Hk w. destruct (Hm w) as (a & w' & E). unfold bind. rewrite E. apply Hk.
Qed.

Lemma returns_logNumbered i steps : returns (logNumbered i steps).
Proof.
  revert i; induction steps as [|step rest IH]; intros i; simpl; [apply returns_ret|].
  apply returns_bind; [apply returns_log | done].
Qed.

Lemma neverExits_returns {A} (m : M A) : returns m -> neverExits m.
Proof. intros H w code w' E. destruct (H w) as (a & w1 & E1). congruence. Qed.

Lemma neverExits_execa file args dir : neverExits (execa file args dir).
Proof.
  intros w code w'. unfold execa.
  destruct (processes w) as [|p rest]; [done|]. by destruct (failure p).
Qed.

Lemma neverExits_bind {A B} (m : M A) (k : A -> M B) :
  neverExits m -> (forall a, neverExits (k a)) -> neverExits (bind m k).
Proof.
  intros Hm Hk w code w'. unfold bind.
  destruct (m w) as [[a | e | c] w1] eqn:E; [apply Hk | done |].
  by destruct (Hm w c w1).
Qed.

(** A handler that returns, after a body that does not end the process. *)
Lemma returns_tryCatch (body : M unit) handler :
  neverExits body -> (forall e, returns (handler e)) -> returns (tryCatch body handler).
Proof.
  intros Hb Hh w. unfold tryCatch.
  destruct (body w) as [[[] | e | c] w1] eqn:E.
  - by eexists _, _.
  - apply Hh.
  - by destruct (Hb w c w1).
Qed.

Ltac returns_step :=
  lazymatch goal with
  | |- returns (ret _) => apply returns_ret
  | |- returns (log _ _) => apply returns_log
  | |- returns (console_log _) => apply returns_log
  | |- returns (logger.success _) => apply returns_log
  | |- returns (logger.error _) => apply returns_log
  | |- returns (logger.info _) => apply returns_log
  | |- returns (logger.warn _) => apply returns_log
  | |- returns (logger.step _) => apply returns_log
  | |- returns prompts => apply returns_prompts
  | |- returns coloredPrompts => apply returns_prompts
  | |- returns (logNumbered _ _) => apply returns_logNumbered
  | |- returns (bind _ _) => apply returns_bind; [|intros ?]
  | |- returns (tryCatch _ _) => apply returns_tryCatch; [|intros ?]
  | |- returns (if ?b then _ else _) => destruct b
  | |- returns (match ?x with _ => _ end) => destruct x
  | |- neverExits (execa _ _ _) => apply neverExits_execa
  | |- neverExits (bind _ _) => apply neverExits_bind; [|intros ?]
  | |- neverExits (if ?b then _ else _) => destruct b
  | |- neverExits _ => apply neverExits_returns
  end.

Lemma returns_preDeploySteps projectDir config :
  returns (QueuesPrimitive.preDeploySteps projectDir config).
Proof. unfold QueuesPrimitive.preDeploySteps. repeat returns_step. Qed.

Lemma returns_deployProject projectDir queue projectName :
  returns (deployProject projectDir queue projectName).
Proof. unfold deployProject. repeat returns_step. Qed.

Lemma returns_promptDeploy : returns promptDeploy.
Proof. unfold promptDeploy. repeat returns_step. Qed.

Lemma returns_deployment primitive config projectName projectDir :
  (forall steps, preDeploySteps primitive = Some steps ->
                 returns (steps projectDir config)) ->
  returns (GenericNew.deployment primitive config projectName projectDir).
Proof.
  intros Hsteps. unfold GenericNew.deployment.
  apply returns_bind; [returns_step|]. intros _.
  apply returns_bind; [apply returns_promptDeploy|]. intros [|].
  - apply returns_bind; [returns_step|]. intros _.
    apply returns_bind.
    { destruct (preDeploySteps primitive) as [steps|]; [by apply Hsteps | returns_step]. }
    intros _.
    apply returns_bind; [apply returns_deployProject|]. intros _.
    repeat returns_step.
  - repeat returns_step.
Qed.

(** X14. The deployment step cannot fail the flow: [deployProject], the
    pre-deploy steps of the queues primitive, and step 6 of the new-project
    flow for the queues and for the worker-only primitive return normally in
    every world, whatever the user answers and whether the processes
    succeed, fail or cannot be started; none of them raises or ends the
    process. *)
Theorem deployment_step_always_returns (t : Templates) (config : PrimitiveConfig)
  (projectName projectDir : string) (queue : option string) (w : World) :
  (exists w', deployProject projectDir queue projectName w = (Ret tt, w'))
  /\ (exists w', QueuesPrimitive.preDeploySteps projectDir config w = (Ret tt, w'))
  /\ (exists w', GenericNew.deployment (QueuesPrimitive.primitive t) config projectName
                   projectDir w = (Ret tt, w'))
  /\ (exists w', GenericNew.deployment WorkerOnlyPrimitive.primitive config projectName
                   projectDir w = (Ret tt, w')).
Proof.
  assert (Hunit : forall (m : M unit), returns m -> exists w', m w = (Ret tt, w')).
  { intros m H. destruct (H w) as ([] & w' & E). by exists w'. }
  repeat split; apply Hunit.
  - apply returns_deployProject.
  - apply returns_preDeploySteps.
  - apply returns_deployment. intros steps [= <-]. apply returns_preDeploySteps.
  - apply returns_deployment. intros steps [=].
Qed.

(* ===================================================================== *)
(** * A cancelled setup *)
(* ===================================================================== *)

Lemma prompts_run w : prompts w = (Ret (nextAnswers w), afterPrompt w).
Proof.
  unfold prompts, nextAnswers, afterPrompt, withAnswers.
  destruct w as [f c d a p wr]; simpl. by destruct a.
Qed.

Lemma getForExisting_registry t :
  PrimitiveRegistry.getForExisting (registry t) = [QueuesPrimitive.primitive t].
Proof. reflexivity. Qed.

Lemma getForNewProject_registry t :
  PrimitiveRegistry.getForNewProject (registry t)
  = [QueuesPrimitive.primitive t; WorkerOnlyPrimitive.primitive].
Proof. reflexivity. Qed.

Lemma promptPrimitiveSelection_run t isExisting w :
  exists line,
    promptPrimitiveSelection (registry t) isExisting w
    = (Ret (if falsy (texts (nextAnswers w) !! "primitive") then None
            else texts (nextAnswers w) !! "primitive"),
       afterPrompt (withLines [line] w)).
Proof.
  unfold promptPrimitiveSelection.
  destruct isExisting.
  - rewrite getForExisting_registry. eexists.
    unfold bind at 1, console_log. rewrite log_run. unfold bind, ret. by rewrite prompts_run.
  - rewrite getForNewProject_registry. eexists.
    unfold bind at 1, console_log. rewrite log_run. unfold bind, ret. by rewrite prompts_run.
Qed.

Lemma promptNew_cancelled t w :
  texts (nextAnswers w) = ∅ ->
  exists line,
    promptNew (QueuesPrimitive.primitive t) w = (Ret None, afterPrompt (withLines [line] w))
    /\ exists line',
         promptNew WorkerOnlyPrimitive.primitive w
         = (Ret None, afterPrompt (withLines [line'] w)).
Proof.
  intros He. eexists. split; [|eexists].
  - cbn [promptNew QueuesPrimitive.primitive].
    unfold QueuesPrimitive.promptNew, promptNewQueueProject, coloredPrompts.
    unfold bind, console_log. rewrite log_run, prompts_run.
    change (nextAnswers (withLines ?l w)) with (nextAnswers w). by rewrite He.
  - cbn [promptNew WorkerOnlyPrimitive.primitive].
    unfold WorkerOnlyPrimitive.promptNew, coloredPrompts.
    unfold bind, console_log. rewrite log_run, prompts_run.
    change (nextAnswers (withLines ?l w)) with (nextAnswers w). by rewrite He.
Qed.

Lemma promptExisting_cancelled w :
  texts (nextAnswers w) = ∅ ->
  exists line,
    QueuesPrimitive.promptExisting w = (Ret None, afterPrompt (withLines [line] w)).
Proof.
  intros He. eexists.
  unfold QueuesPrimitive.promptExisting, promptExistingQueueProject, coloredPrompts.
  unfold bind, console_log. rewrite log_run, prompts_run.
  change (nextAnswers (withLines ?l w)) with (nextAnswers w). by rewrite He.
Qed.

Lemma detect_project w :
  ~ noProject w ->
  exists context,
    detectProjectContext w = (Ret context, w) /\ isWorkerProject context = true.
Proof.
  intros Hp. destruct (detectProjectContext_run w) as (context & Ed & Hw).
  exists context. split; [done|]. rewrite Hw.
  destruct (exists_in (fs w) (path_join (cwd w) "wrangler.jsonc")) eqn:E1; [done|].
  destruct (exists_in (fs w) (path_join (cwd w) "wrangler.json")) eqn:E2; [done|].
  destruct (exists_in (fs w) (path_join (cwd w) "wrangler.toml")) eqn:E3; [done|].
  exfalso. by apply Hp.
Qed.

(** X15. A setup cancelled at the first question changes nothing: when the
    user gives no answer to the first prompt of [init] (the selection menu,
    or the questions of the queues primitive under [--new] or [--add]), the
    command logs [Setup cancelled] and ends the process with exit code 0; no
    file is touched and no process is run. *)
Theorem cancelled_setup_changes_nothing (t : Templates) (options : InitOptions)
  (w : World) :
  add options && new options = false ->
  (add options = true -> ~ noProject w) ->
  texts (nextAnswers w) = ∅ ->
  exists w',
    init (registry t) options w = (Exit 0, w')
    /\ fs w' = fs w
    /\ processes w' = processes w
    /\ printed Info "Setup cancelled" w' = true.
Proof.
  intros Hflags Hadd He. unfold init. rewrite Hflags.
  destruct (detectProjectContext_run w) as (context & Ed & Hw).
  erewrite bind_run by exact Ed. cbv beta.
  destruct (add options) eqn:Ea, (new options) eqn:En; try discriminate Hflags;
    cbn [negb andb].
  - (* --add *)
    assert (isWorkerProject context = true) as ->.
    { rewrite Hw. destruct (exists_in (fs w) (path_join (cwd w) "wrangler.jsonc")) eqn:E1;
        [done|].
      destruct (exists_in (fs w) (path_join (cwd w) "wrangler.json")) eqn:E2; [done|].
      destruct (exists_in (fs w) (path_join (cwd w) "wrangler.toml")) eqn:E3; [done|].
      exfalso. by apply Hadd. }
    change (PrimitiveRegistry.get "queues" (registry t))
      with (Some (QueuesPrimitive.primitive t)).
    cbn [negb promptExisting QueuesPrimitive.primitive].
    destruct (promptExisting_cancelled w He) as (line & E).
    erewrite bind_run by exact E. cbv beta iota.
    eexists. split; [reflexivity|]. repeat split.
    unfold printed. simpl. rewrite existsb_app. simpl. apply orb_true_r.
  - (* --new *)
    change (PrimitiveRegistry.get "queues" (registry t))
      with (Some (QueuesPrimitive.primitive t)).
    cbn iota.
    destruct (promptNew_cancelled t w He) as (line & E & _).
    erewrite bind_run by exact E. cbv beta iota.
    eexists. split; [reflexivity|]. repeat split.
    unfold printed. simpl. rewrite existsb_app. simpl. apply orb_true_r.
  - (* interactive *)
    destruct (promptPrimitiveSelection_run t (isWorkerProject context) w) as (line & E).
    erewrite bind_run by exact E. rewrite He. cbv beta iota.
    change (falsy (∅ !! "primitive")) with true. cbv iota.
    eexists. split; [reflexivity|]. repeat split.
    unfold printed. simpl. rewrite existsb_app. simpl. apply orb_true_r.
Qed.

Lemma cancelled_setup_changes_nothing_witness :
  exists w',
    init (registry Sample.templates) {| add := true; new := false |}
      (Sample.existingProjectWorld [])
    = (Exit 0, w')
    /\ fs w' = fs (Sample.existingProjectWorld [])
    /\ processes w' = processes (Sample.existingProjectWorld [])
    /\ printed Info "Setup cancelled" w' = true.
Proof.
  apply (cancelled_setup_changes_nothing Sample.templates {| add := true; new := false |}
           (Sample.existingProjectWorld [])).
  - reflexivity.
  - intros _ (H & _). vm_compute in H. discriminate H.
  - reflexivity.
Defined.

(* ===================================================================== *)
(** * The action chosen in an existing project *)
(* ===================================================================== *)

Lemma detect_withAnswers replies w :
  detectProjectContext (withAnswers replies w)
  = (fst (detectProjectContext w), withAnswers replies w).
Proof.
  unfold detectProjectContext, detectEntryFile.
  unfold bind, process_cwd, pathExists, ret.
  cbv beta iota.
  change (fs (withAnswers replies w)) with (fs w).
  change (cwd (withAnswers replies w)) with (cwd w).
  destruct (exists_in (fs w) (path_join (cwd w) "wrangler.jsonc")).
  { rewrite !firstExisting_find. reflexivity. }
  cbv beta iota. change (fs (withAnswers replies w)) with (fs w).
  destruct (exists_in (fs w) (path_join (cwd w) "wrangler.json")).
  { rewrite !firstExisting_find. reflexivity. }
  cbv beta iota. change (fs (withAnswers replies w)) with (fs w).
  destruct (exists_in (fs w) (path_join (cwd w) "wrangler.toml")).
  { rewrite !firstExisting_find. reflexivity. }
  reflexivity.
Qed.

Lemma promptExistingQueueProject_run w :
  promptExistingQueueProject w
  = (Ret (if falsy (texts (nextAnswers w) !! "action") then None
          else Some (texts (nextAnswers w))),
     afterPrompt
       (withLines
          [(Plain, nl +:+ "Detected a Cloudflare Worker project in this directory." +:+ nl)]
          w)).
Proof.
  unfold promptExistingQueueProject, coloredPrompts, bind, console_log.
  rewrite log_run, prompts_run.
  change (nextAnswers (withLines ?l w)) with (nextAnswers w).
  by destruct (falsy (texts (nextAnswers w) !! "action")).
Qed.

Lemma bind_agree {A B} (m : M A) (k : A -> M B) w1 w2 a1 a2 w' :
  m w1 = (Ret a1, w') -> m w2 = (Ret a2, w') -> k a1 w' = k a2 w' ->
  bind m k w1 = bind m k w2.
Proof. unfold bind. by intros -> ->. Qed.

(** X16. In an existing project the action chosen at the first question is
    only tested for being there: whichever action is chosen, the queues
    primitive returns the same configuration, and [init --add] and the
    older flow do the same and leave the same world. (Choosing [Create a new
    queue project in a subfolder] adds the queue to the project at hand.) *)
Theorem existing_project_ignores_action (t : Templates) (context : ProjectContext)
  (a : Answers) (action1 action2 : string) (rest : list Answers) (w : World) :
  action1 <> EmptyString ->
  action2 <> EmptyString ->
  let chosen action := withAnswers (withAction action a :: rest) w in
  QueuesPrimitive.promptExisting (chosen action1)
  = QueuesPrimitive.promptExisting (chosen action2)
  /\ (~ noProject w ->
      init (registry t) {| add := true; new := false |} (chosen action1)
      = init (registry t) {| add := true; new := false |} (chosen action2))
  /\ runExistingProjectFlow t context (chosen action1)
     = runExistingProjectFlow t context (chosen action2).
Proof.
  intros H1 H2 chosen.
  assert (Hq : forall action, action <> EmptyString ->
            promptExistingQueueProject (chosen action)
            = (Ret (Some (<["action" := action]> (texts a))),
               withAnswers rest
                 (withLines
                    [(Plain, nl +:+ "Detected a Cloudflare Worker project in this directory."
                             +:+ nl)] w))).
  { intros action Hne. rewrite promptExistingQueueProject_run.
    unfold chosen, nextAnswers, withAction. cbn [answers withAnswers hd texts].
    rewrite lookup_insert_eq, (falsy_Some _ Hne). reflexivity. }
  assert (Hp : QueuesPrimitive.promptExisting (chosen action1)
               = QueuesPrimitive.promptExisting (chosen action2)).
  { unfold QueuesPrimitive.promptExisting, bind. rewrite !Hq by done.
    by rewrite !(lookup_insert_ne (texts a)) by done. }
  split; [exact Hp|]. split.
  - intros Hproject.
    destruct (detect_project w Hproject) as (context' & Ed & Hworker).
    assert (Hd : forall action,
              detectProjectContext (chosen action) = (Ret context', chosen action)).
    { intros action. unfold chosen. by rewrite detect_withAnswers, Ed. }
    unfold init. cbn [add new andb negb].
    rewrite !(bind_run _ _ _ _ _ (Hd _)).
    change (PrimitiveRegistry.get "queues" (registry t))
      with (Some (QueuesPrimitive.primitive t)).
    cbn iota. rewrite Hworker. cbn [negb].
    cbn [promptExisting QueuesPrimitive.primitive]. unfold bind. by rewrite Hp.
  - unfold runExistingProjectFlow.
    eapply bind_agree; [apply (Hq action1 H1) | apply (Hq action2 H2) |].
    cbv beta iota. by rewrite !(lookup_insert_ne (texts a)) by done.
Qed.

Lemma existing_project_ignores_action_witness :
  let a := {| texts := <["queueName" := "demo-queue"]> {[ "bindingName" := "DEMO_QUEUE" ]};
              flags := ∅ |} in
  let chosen action := withAnswers [withAction action a] (Sample.existingProjectWorld []) in
  QueuesPrimitive.promptExisting (chosen "add-minimal")
  = QueuesPrimitive.promptExisting (chosen "new-subfolder")
  /\ init (registry Sample.templates) {| add := true; new := false |} (chosen "add-minimal")
     = init (registry Sample.templates) {| add := true; new := false |}
         (chosen "new-subfolder")
  /\ runExistingProjectFlow Sample.templates Sample.existingContext (chosen "add-minimal")
     = runExistingProjectFlow Sample.templates Sample.existingContext
         (chosen "new-subfolder").
Proof.
  intros a chosen.
  destruct (existing_project_ignores_action Sample.templates Sample.existingContext a
              "add-minimal" "new-subfolder" [] (Sample.existingProjectWorld []))
    as (H1 & H2 & H3); [discriminate | discriminate |].
  split; [exact H1|]. split; [|exact H3].
  apply H2. intros (H & _). vm_compute in H. discriminate H.
Defined.

(* ===================================================================== *)
(** * How the command line tool ends *)
(* ===================================================================== *)

Lemma clean_neverExits {A} (m : M A) : neverExits m -> exitsCleanly m.
Proof. intros H w code w' E. by destruct (H w code w'). Qed.

Lemma clean_returns {A} (m : M A) : returns m -> exitsCleanly m.
Proof. intros H. by apply clean_neverExits, neverExits_returns. Qed.

Lemma clean_exit {A} code : code = 0 \/ code = 1 -> exitsCleanly (@process_exit A code).
Proof. intros H w c w' [= <- _]. done. Qed.

Lemma clean_bind {A B} (m : M A) (k : A -> M B) :
  exitsCleanly m -> (forall a, exitsCleanly (k a)) -> exitsCleanly (bind m k).
Proof.
  intros Hm Hk w code w'. unfold bind.
  destruct (m w) as [[a | e | c] w1] eqn:E; [apply Hk | done |].
  intros [= <- <-]. by apply (Hm w c w1).
Qed.

Lemma clean_tryCatch {A} (body : M A) handler :
  exitsCleanly body -> (forall e, exitsCleanly (handler e)) ->
  exitsCleanly (tryCatch body handler).
Proof.
  intros Hm Hk w code w'. unfold tryCatch.
  destruct (body w) as [[a | e | c] w1] eqn:E; [done | apply Hk |].
  intros [= <- <-]. by apply (Hm w c w1).
Qed.

Lemma neverExits_throw {A} message : neverExits (@throw A message).
Proof. by intros w code w'. Qed.

Lemma neverExits_writeFile path content : neverExits (writeFile path content).
Proof.
  intros w code w'. unfold writeFile.
  by destruct (bool_decide (path ∈ readOnly (fs w))).
Qed.

Lemma returns_pathExists path : returns (pathExists path).
Proof. intros w. by eexists _, _. Qed.

Lemma returns_cwd : returns process_cwd.
Proof. intros w. by eexists _, _. Qed.

Lemma returns_ensureDir path : returns (ensureDir path).
Proof. intros w. by eexists _, _. Qed.

Lemma returns_logAll lines : returns (logAll lines).
Proof.
  induction lines as [|line rest IH]; simpl; [apply returns_ret|].
  apply returns_bind; [apply returns_log | done].
Qed.

Lemma returns_logIndented lines : returns (logIndented lines).
Proof.
  induction lines as [|line rest IH]; simpl; [apply returns_ret|].
  apply returns_bind; [apply returns_log | done].
Qed.

Lemma returns_detect : returns detectProjectContext.
Proof.
  intros w. destruct (detectProjectContext_run w) as (context & E & _). by eexists _, _.
Qed.

Lemma returns_patch configPath config :
  returns (patchWranglerConfigForQueues configPath config).
Proof.
  intros w. destruct (patchWrangler_run configPath config w) as (b & w' & E & _).
  by eexists _, _.
Qed.

Ltac clean_step :=
  lazymatch goal with
  | |- exitsCleanly (process_exit _) => apply clean_exit; auto
  | |- exitsCleanly (bind _ _) => apply clean_bind; [|intros ?]
  | |- exitsCleanly (tryCatch _ _) => apply clean_tryCatch; [|intros ?]
  | |- exitsCleanly (if ?b then _ else _) => destruct b
  | |- exitsCleanly (match ?x with _ => _ end) => destruct x
  | |- exitsCleanly (ret _) => apply clean_returns, returns_ret
  | |- exitsCleanly (log _ _) => apply clean_returns, returns_log
  | |- exitsCleanly (console_log _) => apply clean_returns, returns_log
  | |- exitsCleanly (logger.success _) => apply clean_returns, returns_log
  | |- exitsCleanly (logger.error _) => apply clean_returns, returns_log
  | |- exitsCleanly (logger.info _) => apply clean_returns, returns_log
  | |- exitsCleanly (logger.warn _) => apply clean_returns, returns_log
  | |- exitsCleanly (logger.step _) => apply clean_returns, returns_log
  | |- exitsCleanly (logger.intro _) => apply clean_returns, returns_log
  | |- exitsCleanly prompts => apply clean_returns, returns_prompts
  | |- exitsCleanly coloredPrompts => apply clean_returns, returns_prompts
  | |- exitsCleanly promptDeploy => apply clean_returns, returns_promptDeploy
  | |- exitsCleanly (pathExists _) => apply clean_returns, returns_pathExists
  | |- exitsCleanly process_cwd => apply clean_returns, returns_cwd
  | |- exitsCleanly (ensureDir _) => apply clean_returns, returns_ensureDir
  | |- exitsCleanly (logAll _) => apply clean_returns, returns_logAll
  | |- exitsCleanly (logIndented _) => apply clean_returns, returns_logIndented
  | |- exitsCleanly (logNumbered _ _) => apply clean_returns, returns_logNumbered
  | |- exitsCleanly detectProjectContext => apply clean_returns, returns_detect
  | |- exitsCleanly (patchWranglerConfigForQueues _ _) =>
      apply clean_returns, returns_patch
  | |- exitsCleanly (deployProject _ _ _) => apply clean_returns, returns_deployProject
  | |- exitsCleanly (writeFile _ _) => apply clean_neverExits, neverExits_writeFile
  | |- exitsCleanly (execa _ _ _) => apply clean_neverExits, neverExits_execa
  | |- exitsCleanly (throw _) => apply clean_neverExits, neverExits_throw
  end.

Lemma queues_wellBehaved t : wellBehaved (QueuesPrimitive.primitive t).
Proof.
  repeat split.
  - cbn. unfold QueuesPrimitive.promptNew, promptNewQueueProject. repeat clean_step.
  - intros prompt [= <-].
    unfold QueuesPrimitive.promptExisting, promptExistingQueueProject. repeat clean_step.
  - intros patch [= <-] configPath config. unfold QueuesPrimitive.patchConfig. clean_step.
  - intros projectDir config. cbn. unfold QueuesPrimitive.generateFiles. repeat clean_step.
  - intros steps [= <-] projectDir config.
    apply clean_returns, returns_preDeploySteps.
Qed.

Lemma workerOnly_wellBehaved : wellBehaved WorkerOnlyPrimitive.primitive.
Proof.
  repeat split; try (by intros ? [=]).
  - cbn. unfold WorkerOnlyPrimitive.promptNew. repeat clean_step.
  - intros projectDir config. cbn. unfold WorkerOnlyPrimitive.generateFiles. clean_step.
Qed.

Lemma clean_runGenericNewFlow primitive config context :
  wellBehaved primitive -> exitsCleanly (runGenericNewFlow primitive config context).
Proof.
  intros (_ & _ & Hpatch & Hgen & Hsteps).
  unfold runGenericNewFlow, GenericNew.scaffold, GenericNew.configure,
    GenericNew.deployment, deploymentInfo.
  destruct (falsy (config !! "projectName")); [repeat clean_step|].
  clean_step; [clean_step|]. clean_step; [clean_step|]. clean_step; [repeat clean_step|].
  clean_step; [repeat clean_step|].
  clean_step.
  { clean_step.
    - destruct (patchConfig primitive) as [patch|] eqn:Ep; [|clean_step].
      clean_step; [clean_step|]. clean_step; [by apply Hpatch|]. repeat clean_step.
    - clean_step; [clean_step|]. clean_step; [apply Hgen|]. clean_step. }
  clean_step; [clean_step|]. clean_step; [clean_step|]. clean_step.
  - clean_step; [clean_step|]. clean_step.
    { destruct (preDeploySteps primitive) as [steps|] eqn:Es; [by apply Hsteps|clean_step]. }
    clean_step; [clean_step|].
    destruct (getDeploymentInfo primitive); simpl; repeat clean_step.
  - destruct (getDeploymentInfo primitive); simpl; repeat clean_step.
Qed.

Lemma clean_runGenericExistingFlow primitive config context :
  wellBehaved primitive -> exitsCleanly (runGenericExistingFlow primitive config context).
Proof.
  intros (_ & _ & Hpatch & Hgen & Hsteps).
  unfold runGenericExistingFlow, deploymentInfo.
  destruct (falsy (wranglerConfigPath context)); [repeat clean_step|].
  clean_step.
  { destruct (patchConfig primitive) as [patch|] eqn:Ep; [|clean_step].
    clean_step; [clean_step|]. clean_step; [by apply Hpatch|]. repeat clean_step. }
  clean_step; [clean_step|]. clean_step; [clean_step|]. clean_step; [clean_step|].
  clean_step; [apply Hgen|]. clean_step; [clean_step|]. clean_step; [clean_step|].
  clean_step; [clean_step|]. clean_step; [repeat clean_step|].
  clean_step.
  { destruct (preDeploySteps primitive) as [steps|] eqn:Es; [|clean_step].
    clean_step; [clean_step|]. clean_step; [clean_step|].
    clean_step; [|repeat clean_step].
    clean_step; [clean_step|]. clean_step; [clean_step|]. by apply Hsteps. }
  clean_step; [clean_step|]. clean_step; [clean_step|].
  destruct (getDeploymentInfo primitive); simpl; repeat clean_step.
Qed.

Lemma clean_promptPrimitiveSelection registered isExisting :
  exitsCleanly (promptPrimitiveSelection registered isExisting).
Proof. unfold promptPrimitiveSelection. repeat clean_step. Qed.

Lemma clean_init registered options :
  (forall key p, PrimitiveRegistry.get key registered = Some p -> wellBehaved p) ->
  exitsCleanly (init registered options).
Proof.
  intros Hreg. unfold init.
  destruct (add options && new options); [repeat clean_step|].
  apply clean_bind; [clean_step|]. intros context.
  destruct (negb (add options) && negb (new options)).
  - apply clean_bind; [apply clean_promptPrimitiveSelection|]. intros [key|];
      [|repeat clean_step].
    destruct (PrimitiveRegistry.get key registered) as [p|] eqn:Ep; [|repeat clean_step].
    pose proof (Hreg key p Ep) as Hp.
    pose proof Hp as (Hnew & Hex & _).
    destruct (isWorkerProject context).
    + destruct (negb (supportsExisting p)); [repeat clean_step|].
      destruct (promptExisting p) as [prompt|] eqn:Epr; [|repeat clean_step].
      apply clean_bind; [by apply Hex|].
      intros [config|]; [by apply clean_runGenericExistingFlow | repeat clean_step].
    + apply clean_bind; [exact Hnew|].
      intros [config|]; [by apply clean_runGenericNewFlow | repeat clean_step].
  - destruct (PrimitiveRegistry.get "queues" registered) as [p|] eqn:Ep;
      [|repeat clean_step].
    pose proof (Hreg _ p Ep) as Hp.
    pose proof Hp as (Hnew & Hex & _).
    destruct (new options).
    + apply clean_bind; [exact Hnew|].
      intros [config|]; [by apply clean_runGenericNewFlow | repeat clean_step].
    + destruct (add options); [|clean_step].
      destruct (negb (isWorkerProject context)); [repeat clean_step|].
      destruct (promptExisting p) as [prompt|] eqn:Epr; [|repeat clean_step].
      apply clean_bind; [by apply Hex|].
      intros [config|]; [by apply clean_runGenericExistingFlow | repeat clean_step].
Qed.

Lemma registry_wellBehaved t key p :
  PrimitiveRegistry.get key (registry t) = Some p -> wellBehaved p.
Proof.
  unfold registry, PrimitiveRegistry.get, PrimitiveRegistry.register,
    PrimitiveRegistry.empty. cbn [Map.set Map.get id QueuesPrimitive.primitive
    WorkerOnlyPrimitive.primitive].
  change (String.eqb "queues" "worker-only") with false. cbn [Map.get].
  destruct (String.eqb "queues" key).
  - intros [= <-]. apply queues_wellBehaved.
  - destruct (String.eqb "worker-only" key); [|discriminate].
    intros [= <-]. apply workerOnly_wellBehaved.
Qed.

Lemma clean_scaffoldWith stepLine created projectName projectDir :
  exitsCleanly (scaffoldWith stepLine created projectName projectDir).
Proof. unfold scaffoldWith. repeat clean_step. Qed.

Lemma clean_createUnlessExists filePath content warning created :
  exitsCleanly (createUnlessExists filePath content warning created).
Proof. unfold createUnlessExists. repeat clean_step. Qed.

Lemma clean_runExistingProjectFlow t context :
  exitsCleanly (runExistingProjectFlow t context).
Proof.
  unfold runExistingProjectFlow, promptExistingQueueProject.
  apply clean_bind; [repeat clean_step|]. intros [choices|]; [|repeat clean_step].
  destruct (falsy (wranglerConfigPath context)); [repeat clean_step|].
  clean_step; [clean_step|]. apply clean_bind; [clean_step|]. intros configPatched.
  destruct (negb configPatched); [repeat clean_step|].
  clean_step; [clean_step|]. clean_step; [clean_step|]. clean_step; [clean_step|].
  clean_step; [apply clean_createUnlessExists|].
  clean_step; [apply clean_createUnlessExists|].
  clean_step; [apply clean_createUnlessExists|].
  repeat clean_step.
Qed.

Lemma clean_runNewProjectFlow t context : exitsCleanly (runNewProjectFlow t context).
Proof.
  unfold runNewProjectFlow, promptNewQueueProject.
  apply clean_bind; [repeat clean_step|]. intros [choices|]; [|repeat clean_step].
  clean_step; [clean_step|]. clean_step; [apply clean_scaffoldWith|].
  repeat clean_step.
Qed.

Lemma clean_runWorkerOnlyFlow context : exitsCleanly (runWorkerOnlyFlow context).
Proof.
  unfold runWorkerOnlyFlow, promptWorkerOnlyProject, WorkerOnlyPrimitive.promptNew.
  apply clean_bind; [repeat clean_step|]. intros [choices|]; [|repeat clean_step].
  clean_step; [clean_step|]. clean_step; [apply clean_scaffoldWith|].
  repeat clean_step.
Qed.

Lemma clean_initQueues t options : exitsCleanly (initQueues t options).
Proof.
  unfold initQueues.
  destruct (add options && new options); [repeat clean_step|].
  apply clean_bind; [clean_step|]. intros context.
  destruct (new options); [apply clean_runNewProjectFlow|].
  destruct (add options).
  - destruct (negb (isWorkerProject context));
      [repeat clean_step | apply clean_runExistingProjectFlow].
  - destruct (isWorkerProject context).
    + clean_step; [clean_step | apply clean_runExistingProjectFlow].
    + clean_step; [clean_step | apply clean_runNewProjectFlow].
Qed.

(** X17. However the tool is called and whatever happens while it runs
    (answers, files, processes), [main] lets no error escape and ends the
    process, if it does, with exit code 0 or 1: every [process.exit] of the
    commands and flows has one of these codes, and an error raised anywhere
    is caught at the top, logged, and turned into exit code 1. *)
Theorem main_ends_cleanly (t : Templates) (parsed : ParsedArgs) (w : World) :
  match fst (main t parsed w) with
  | Ret _ => True
  | Throw _ => False
  | Exit code => code = 0 \/ code = 1
  end.
Proof.
  assert (Hbody : exitsCleanly
    (if values_help parsed then printHelp;; process_exit 0
     else if values_version parsed then
       console_log "clementine-cli v0.1.0";; process_exit 0
     else
       let options := {| add := values_add parsed; new := values_new parsed |} in
       logger.intro "🍊 Clementine";;
       let command := head (positionals parsed) in
       if falsy command then init (registry t) options
       else if String.eqb (str command) "queues" then initQueues t options
       else
         logger.error ("Unknown command: " +:+ str command);;
         logger.info ("Run " +:+ quoted "clementine --help" +:+ " for usage");;
         process_exit 1)).
  { unfold printHelp.
    destruct (values_help parsed); [repeat clean_step|].
    destruct (values_version parsed); [repeat clean_step|].
    cbv zeta. clean_step; [clean_step|].
    destruct (falsy (head (positionals parsed))).
    - apply clean_init. apply registry_wellBehaved.
    - destruct (String.eqb _ "queues"); [apply clean_initQueues | repeat clean_step]. }
  unfold main, tryCatch.
  match goal with |- context [fst (match ?b w with _ => _ end)] =>
    change b with (if values_help parsed then printHelp;; process_exit 0
     else if values_version parsed then
       console_log "clementine-cli v0.1.0";; process_exit 0
     else
       let options := {| add := values_add parsed; new := values_new parsed |} in
       logger.intro "🍊 Clementine";;
       let command := head (positionals parsed) in
       if falsy command then init (registry t) options
       else if String.eqb (str command) "queues" then initQueues t options
       else
         logger.error ("Unknown command: " +:+ str command);;
         logger.info ("Run " +:+ quoted "clementine --help" +:+ " for usage");;
         process_exit 1);
    destruct (b w) as [[[] | e | c] w1] eqn:E
  end; simpl.
  - done.
  - right. reflexivity.
  - by apply (Hbody w c w1).
Qed.

(* ===================================================================== *)
(** * Answers that stop half way *)
(* ===================================================================== *)

(** X18. The questions of the queues primitive can stop half way: answers
    that have a project name but no queue name are taken as a configuration,
    not as a cancellation, and patching a writable structured-text file with
    them succeeds and leaves the file naming the queue [undefined]. *)
Theorem partial_answers_name_the_queue_undefined (t : Templates) (w : World)
  (projectName configPath content : string) :
  texts (nextAnswers w) !! "projectName" = Some projectName ->
  projectName <> EmptyString ->
  texts (nextAnswers w) !! "queueName" = None ->
  endsWith configPath ".toml" = true ->
  textFiles (fs w) !! configPath = Some content ->
  configPath ∉ readOnly (fs w) ->
  exists line w1 w2 text,
    promptNew (QueuesPrimitive.primitive t) w = (Ret (Some (texts (nextAnswers w))), w1)
    /\ w1 = afterPrompt (withLines [line] w)
    /\ QueuesPrimitive.patchConfig configPath (texts (nextAnswers w)) w1 = (Ret true, w2)
    /\ textFiles (fs w2) !! configPath = Some text
    /\ includes text ("queue = " +:+ quoted "undefined") = true.
Proof.
  intros Hname Hne Hqueue Hext Hfile Hw.
  assert (Hprompt : promptNew (QueuesPrimitive.primitive t) w
                    = (Ret (Some (texts (nextAnswers w))),
                       afterPrompt
                         (withLines
                            [(Plain, nl +:+ "No Worker project detected. Let's create a new one with Queues!" +:+ nl)]
                            w))).
  { cbn [promptNew QueuesPrimitive.primitive].
    unfold QueuesPrimitive.promptNew, promptNewQueueProject, coloredPrompts.
    unfold bind, console_log. rewrite log_run, prompts_run.
    change (nextAnswers (withLines ?l w)) with (nextAnswers w).
    by rewrite Hname, (falsy_Some _ Hne). }
  set (w1 := afterPrompt _) in Hprompt.
  set (config := {| queueName := None;
                    bindingName := texts (nextAnswers w) !! "bindingName";
                    maxBatchSize := Some 4; maxBatchTimeout := Some 3;
                    maxRetries := Some 3 |}).
  assert (Hpatch : QueuesPrimitive.patchConfig configPath (texts (nextAnswers w))
                   = patchWranglerConfigForQueues configPath config).
  { exact (f_equal
             (fun queue =>
                patchWranglerConfigForQueues configPath
                  {| queueName := queue;
                     bindingName := texts (nextAnswers w) !! "bindingName";
                     maxBatchSize := Some 4; maxBatchTimeout := Some 3;
                     maxRetries := Some 3 |}) Hqueue). }
  rewrite Hpatch.
  destruct (patchWrangler_run configPath config w1) as (b & w2 & E & _ & _ & _ & R).
  unfold patchResult in R. rewrite Hext in R.
  change (fs w1) with (fs w) in R. rewrite Hfile in R.
  rewrite (bool_decide_eq_false_2 _ Hw) in R.
  destruct (includes content (Toml.queueMarker config)) eqn:Ei; destruct R as [-> Hfs].
  - eexists _, w1, w2, content.
    split; [exact Hprompt|]. split; [reflexivity|]. split; [exact E|].
    split; [by rewrite Hfs|].
    change ("queue = " +:+ quoted "undefined") with (Toml.queueMarker config). exact Ei.
  - eexists _, w1, w2, (Toml.updatedContent content config).
    split; [exact Hprompt|]. split; [reflexivity|]. split; [exact E|]. split.
    + rewrite Hfs. simpl. apply lookup_insert_eq.
    + change ("queue = " +:+ quoted "undefined") with (Toml.queueMarker config).
      apply updatedContent_includes.
Qed.

Lemma partial_answers_name_the_queue_undefined_witness :
  let w := {| fs := {| textFiles := {[ "/work/my-app/wrangler.toml" := "name = 'my-app'" ]};
                       jsoncFiles := ∅; dirs := ∅; readOnly := ∅ |};
              console := []; cwd := "/work";
              answers := [{| texts := {[ "projectName" := "my-app" ]}; flags := ∅ |}];
              processes := []; written := [] |} in
  exists line w1 w2 text,
    promptNew (QueuesPrimitive.primitive Sample.templates) w
    = (Ret (Some (texts (nextAnswers w))), w1)
    /\ w1 = afterPrompt (withLines [line] w)
    /\ QueuesPrimitive.patchConfig "/work/my-app/wrangler.toml" (texts (nextAnswers w)) w1
       = (Ret true, w2)
    /\ textFiles (fs w2) !! "/work/my-app/wrangler.toml" = Some text
    /\ includes text ("queue = " +:+ quoted "undefined") = true.
Proof.
  intros w.
  apply (partial_answers_name_the_queue_undefined Sample.templates w "my-app"
           "/work/my-app/wrangler.toml" "name = 'my-app'").
  - reflexivity.
  - discriminate.
  - reflexivity.
  - vm_compute; reflexivity.
  - reflexivity.
  - simpl. apply not_elem_of_empty.
Defined.
